(** * Google Maps lead extractor: validation, filtering, listing walk and
      email enrichment

    A shallow embedding of [src/utils/validation.js], of the listing walker
    and the hours extraction of [src/scraper.js], and of the email finder
    ([findEmailOnWebsite], [batchFindEmails]), together with the properties
    the specification states about them.

    Conventions of the embedding.
    - A JavaScript string is a [string] (a sequence of one-byte characters);
      the functions that scan it work on [list ascii].  White space is the
      ASCII part of what [\s] and [trim] recognise.
    - A JavaScript number is a rational [Q]; [NaN] is an absent value
      ([None]) where the code tests for it.  The rounding that [parseFloat]
      performs is a parameter ([fround]) of the development, left abstract;
      the integer that [parseInt] reads is rounded to the nearest double
      ([to_double]).
    - [null] is [None]; a function that can throw returns a [completion].
    - The page and the network are oracles: records of what the selectors
      find ([Card], [DetailView], [Page]) and Section variables for the feed
      and for navigation.  Waits and delays are left out.
    - [config/email-blacklist.json] and the [URL] constructor are
      parameters. *)

From Stdlib Require Import QArith.
From stdpp Require Import gmap strings list fin_maps.
From Stdlib Require Import Ascii String.

Local Open Scope bool_scope.
Local Open Scope list_scope.

(** ** Characters and the string builtins the code uses *)

Module JsString.

Definition chars (s : string) : list ascii := list_ascii_of_string s.
Definition str (l : list ascii) : string := string_of_list_ascii l.

Definition code (c : ascii) : nat := nat_of_ascii c.

Definition is_digit (c : ascii) : bool := (48 <=? code c)%nat && (code c <=? 57)%nat.
Definition is_upper (c : ascii) : bool := (65 <=? code c)%nat && (code c <=? 90)%nat.
Definition is_lower (c : ascii) : bool := (97 <=? code c)%nat && (code c <=? 122)%nat.
Definition is_alpha (c : ascii) : bool := is_upper c || is_lower c.

(** [\s] and the characters [trim] strips: TAB, LF, VT, FF, CR, SPACE. *)
Definition is_space (c : ascii) : bool :=
  ((9 <=? code c)%nat && (code c <=? 13)%nat) || (code c =? 32)%nat.

(** [.] matches everything but a line terminator. *)
Definition is_dot (c : ascii) : bool :=
  negb ((code c =? 10)%nat || (code c =? 13)%nat).

Definition is_char (a c : ascii) : bool := (code a =? code c)%nat.

Definition lower (c : ascii) : ascii :=
  if is_upper c then ascii_of_nat (code c + 32) else c.

(** [String.prototype.toLowerCase] *)
Definition toLowerCase (l : list ascii) : list ascii := map lower l.

Fixpoint trimStart (l : list ascii) : list ascii :=
  match l with
  | c :: t => if is_space c then trimStart t else l
  | [] => []
  end.

Definition trimEnd (l : list ascii) : list ascii := rev (trimStart (rev l)).

(** [String.prototype.trim] *)
Definition trim (l : list ascii) : list ascii := trimEnd (trimStart l).

Fixpoint startsWith (p l : list ascii) : bool :=
  match p, l with
  | [], _ => true
  | a :: p', c :: l' => is_char a c && startsWith p' l'
  | _ :: _, [] => false
  end.

(** [String.prototype.includes] *)
Fixpoint includes (sub l : list ascii) : bool :=
  startsWith sub l ||
  match l with
  | [] => false
  | _ :: t => includes sub t
  end.

(** [String.prototype.split] on a one-character separator: the pieces
    between the separators, an empty string giving one empty piece. *)
Fixpoint split (sep : ascii) (l : list ascii) : list (list ascii) :=
  match l with
  | [] => [[]]
  | c :: t =>
      if is_char sep c then [] :: split sep t
      else match split sep t with
           | p :: ps => (c :: p) :: ps
           | [] => [[c]]
           end
  end.

Definition digit_val (c : ascii) : Z := Z.of_nat (code c - 48).

(** The value of a run of decimal digits. *)
Definition digits_val (l : list ascii) : Z :=
  fold_left (fun acc c => (10 * acc + digit_val c)%Z) l 0%Z.

Fixpoint span (p : ascii -> bool) (l : list ascii) : list ascii * list ascii :=
  match l with
  | c :: t => if p c then let '(a, b) := span p t in (c :: a, b) else ([], l)
  | [] => ([], [])
  end.

Definition sign_split (l : list ascii) : bool * list ascii :=
  match l with
  | c :: t => if is_char "-" c then (true, t)
              else if is_char "+" c then (false, t) else (false, l)
  | [] => (false, [])
  end.

(** The double nearest to a non-negative integer, ties going to the even
    significand.  An integer below [2^53] is a double; of a larger one the 53
    leading bits are kept and the [e] bits behind them are rounded.  A
    result of [2^1024] or more stands for [Infinity]: it compares with every
    finite double as [Infinity] does. *)
Definition to_double (n : Z) : Z :=
  if (n <? 9007199254740992)%Z then n
  else
    let e := (Z.log2 n - 52)%Z in
    let q := Z.shiftr n e in
    let r := (n - Z.shiftl q e)%Z in
    let half := Z.shiftl 1 (e - 1) in
    let q' := if (half <? r)%Z || ((r =? half)%Z && Z.odd q) then (q + 1)%Z else q in
    Z.shiftl q' e.

(** [parseInt(s, 10)]: leading white space, an optional sign, the longest
    run of digits, read as a number, that is as a double; [None] is [NaN]. *)
Definition parseInt (l : list ascii) : option Z :=
  let '(neg, body) := sign_split (trimStart l) in
  match fst (span is_digit body) with
  | [] => None
  | ds =>
      Some (if neg then (- to_double (digits_val ds))%Z else to_double (digits_val ds))
  end.

(** The decimal literal [parseFloat] reads: leading white space, an
    optional sign, digits, an optional fraction; [None] is [NaN].  The
    value is the exact rational; the rounding to a double is applied by
    the caller. *)
Definition decimal (l : list ascii) : option Q :=
  let '(neg, body) := sign_split (trimStart l) in
  let '(ip, r1) := span is_digit body in
  let fp := match r1 with
            | c :: t => if is_char "." c then fst (span is_digit t) else []
            | [] => []
            end in
  match ip, fp with
  | [], [] => None
  | _, _ =>
      let num := digits_val (ip ++ fp) in
      let den := Pos.pow 10 (Pos.of_succ_nat (List.length fp)) in
      let q := Qred (Qmake (10 * num) den) in
      Some (if neg then Qopp q else q)
  end.

End JsString.

(** ** A backtracking matcher for the regular expressions of the code

    The semantics is that of the ECMAScript matcher restricted to what the
    sources use: ordered alternation, greedy and lazy repetition (an
    iteration that consumes nothing is rejected), capture groups, [^] and [$]
    without the multiline flag.  Matching is written in continuation-passing
    style, the continuation standing for "the rest of the pattern". *)

Module Regex.
Import JsString.

Inductive regex : Type :=
| Eps
| Cls (p : ascii -> bool)
| Seq (r1 r2 : regex)
| Alt (r1 r2 : regex)
| Star (greedy : bool) (r : regex)
| Grp (i : nat) (r : regex)
| Bol
| Eol.

(** The matcher's state: the index reached, the input still to read and the
    captures recorded so far. *)
Record mstate : Type := MState {
  pos : nat;
  rest : list ascii;
  caps : list (nat * list ascii)
}.

Definition advance (c : ascii) (t : list ascii) (s : mstate) : mstate :=
  {| pos := S (pos s); rest := t; caps := caps s |}.

Definition capture (i : nat) (from to : mstate) : mstate :=
  {| pos := pos to; rest := rest to;
     caps := (i, firstn (pos to - pos from) (rest from)) :: caps to |}.

Definition orelse {A} (x y : option A) : option A :=
  match x with Some _ => x | None => y end.

(** The iterations of a repetition: [body] matches the repeated
    expression once; an iteration has to move forward, so at most [n], the
    number of characters left, can follow. *)
Fixpoint star_iter (body : mstate -> (mstate -> option mstate) -> option mstate)
  (greedy : bool) (k : mstate -> option mstate) (n : nat) (s : mstate)
  {struct n} : option mstate :=
  let again :=
    match n with
    | O => None
    | S n' =>
        body s (fun s1 =>
          if (pos s <? pos s1)%nat then star_iter body greedy k n' s1 else None)
    end in
  if greedy then orelse again (k s) else orelse (k s) again.

Fixpoint rmatch (r : regex) (s : mstate) (k : mstate -> option mstate)
  {struct r} : option mstate :=
  match r with
  | Eps => k s
  | Cls p =>
      match rest s with
      | c :: t => if p c then k (advance c t s) else None
      | [] => None
      end
  | Seq r1 r2 => rmatch r1 s (fun s1 => rmatch r2 s1 k)
  | Alt r1 r2 => orelse (rmatch r1 s k) (rmatch r2 s k)
  | Star greedy r1 => star_iter (rmatch r1) greedy k (List.length (rest s)) s
  | Grp i r1 => rmatch r1 s (fun s1 => k (capture i s s1))
  | Bol => if (pos s =? 0)%nat then k s else None
  | Eol => match rest s with [] => k s | _ :: _ => None end
  end.

(** Derived forms. *)
Definition Chr (a : ascii) : regex := Cls (is_char a).
(** a literal letter under the [i] flag *)
Definition ChrI (a : ascii) : regex := Cls (fun c => is_char (lower a) (lower c)).
Definition Plus (r : regex) : regex := Seq r (Star true r).
Definition PlusLazy (r : regex) : regex := Seq r (Star false r).
Definition Opt (r : regex) : regex := Alt r Eps.
Fixpoint Rep (n : nat) (r : regex) : regex :=
  match n with O => Eps | S n' => Seq r (Rep n' r) end.
Definition AtLeast (n : nat) (r : regex) : regex := Seq (Rep n r) (Star true r).
Definition Lit (l : string) : regex :=
  fold_right (fun a r => Seq (Chr a) r) Eps (chars l).
Definition LitI (l : string) : regex :=
  fold_right (fun a r => Seq (ChrI a) r) Eps (chars l).
Definition AltL (rs : list regex) : regex :=
  match rs with
  | [] => Cls (fun _ => false)
  | r :: rs' => fold_left Alt rs' r
  end.

Definition start_at (i : nat) (l : list ascii) : mstate :=
  {| pos := i; rest := l; caps := [] |}.

(** An attempt at one index. *)
Definition match_here (r : regex) (i : nat) (l : list ascii) : option mstate :=
  rmatch r (start_at i l) Some.

(** The result of a successful [exec]: the matched text and the groups. *)
Record found : Type := Found {
  index : nat;
  text : list ascii;
  groups : list (nat * list ascii)
}.

Definition found_of (i : nat) (l : list ascii) (m : mstate) : found :=
  {| index := i; text := firstn (pos m - i) l; groups := caps m |}.

(** Group [i] of a match; [None] is [undefined]. *)
Definition group (i : nat) (f : found) : option (list ascii) :=
  snd <$> List.find (fun p => (fst p =? i)%nat) (groups f).

(** The leftmost match at or after index [i], [l] being the input from
    [i] on. *)
Fixpoint search (r : regex) (i : nat) (l : list ascii) : option found :=
  match match_here r i l with
  | Some m => Some (found_of i l m)
  | None =>
      match l with
      | [] => None
      | _ :: t => search r (S i) t
      end
  end.

(** [str.match(r)] and [r.exec(str)] without the [g] flag. *)
Definition exec (r : regex) (l : list ascii) : option found := search r 0 l.

(** [r.test(str)] without the [g] flag. *)
Definition test (r : regex) (l : list ascii) : bool :=
  match exec r l with Some _ => true | None => false end.

(** The scan of a [g] regular expression: [skip] characters of the last
    match are still to be passed; an empty match moves on by one
    character. *)
Fixpoint scan (r : regex) (i skip : nat) (l : list ascii) : list found :=
  match skip with
  | S k =>
      match l with
      | [] => []
      | _ :: t => scan r (S i) k t
      end
  | O =>
      match match_here r i l with
      | Some m =>
          found_of i l m ::
          match l with
          | [] => []
          | _ :: t => scan r (S i) (pos m - i - 1) t
          end
      | None =>
          match l with
          | [] => []
          | _ :: t => scan r (S i) 0 t
          end
      end
  end.

(** [str.match(r)] with the [g] flag: the matched texts, [[]] standing for
    the [null] of no match. *)
Definition match_all (r : regex) (l : list ascii) : list (list ascii) :=
  map text (scan r 0 0 l).

(** [str.replace(r, by)] with the [g] flag and a constant replacement. *)
Fixpoint replace_from (r : regex) (by_ : list ascii) (i skip : nat)
  (l : list ascii) : list ascii :=
  match skip with
  | S k =>
      match l with
      | [] => []
      | _ :: t => replace_from r by_ (S i) k t
      end
  | O =>
      match match_here r i l with
      | Some m =>
          by_ ++
          match l with
          | [] => []
          | c :: t =>
              if (pos m =? i)%nat then c :: replace_from r by_ (S i) 0 t
              else replace_from r by_ (S i) (pos m - i - 1) t
          end
      | None =>
          match l with
          | [] => []
          | c :: t => c :: replace_from r by_ (S i) 0 t
          end
      end
  end.

Definition replace_all (r : regex) (by_ l : list ascii) : list ascii :=
  replace_from r by_ 0 0 l.

(** The state after the longest run of characters of a class: what a greedy
    repetition of the class reaches when nothing follows it in the
    pattern. *)
Definition run (p : ascii -> bool) (s : mstate) : mstate :=
  {| pos := pos s + List.length (fst (span p (rest s)));
     rest := snd (span p (rest s));
     caps := caps s |}.

End Regex.

(** ** JavaScript values and completions *)

(** The dynamic type of the record fields whose type changes between the
    extractor's output (strings) and the validator's output (numbers). *)
Inductive value : Type :=
| VNull
| VStr (s : string)
| VNum (q : Q).

(** The outcome of a call: it returns, or it throws the [TypeError] of a
    string method applied to a number. *)
Inductive completion (A : Type) : Type :=
| Normal (a : A)
| TypeError.
Arguments Normal {A} a.
Arguments TypeError {A}.

#[global] Instance completion_ret : MRet completion := fun A a => Normal a.
#[global] Instance completion_bind : MBind completion := fun A B f c =>
  match c with
  | Normal a => f a
  | TypeError => TypeError
  end.

Definition opt_value (o : option string) : value :=
  match o with
  | Some s => VStr s
  | None => VNull
  end.

(** [x || null] on a string: the empty string is falsy. *)
Definition or_null (l : list ascii) : option string :=
  match l with
  | [] => None
  | _ :: _ => Some (JsString.str l)
  end.

(** Truthiness of a string-or-null. *)
Definition truthy_str (o : option string) : option string :=
  match o with
  | Some s => or_null (JsString.chars s)
  | None => None
  end.

(** A [Set] keeps its elements in insertion order; adding a member again
    changes nothing. *)
Module JsSet.
Definition add (x : string) (s : list string) : list string :=
  if bool_decide (x ∈ s) then s else s ++ [x].
(** [new Set(l)], and [forEach(x => s.add(x))] on an existing set *)
Definition add_all (l s : list string) : list string := fold_left (fun acc x => add x acc) l s.
Definition of_list (l : list string) : list string := add_all l [].
End JsSet.

(** ** The patterns of [validation.js] and [scraper.js] *)

Module Patterns.
Import JsString Regex.

Local Notation "a ⋅ b" := (Seq a b) (at level 41, right associativity).

Definition digit : regex := Cls is_digit.
Definition space : regex := Cls is_space.

(** [/\s+/g] *)
Definition spaces : regex := Plus space.

(** [/[^\d+]/g] *)
Definition not_phone_char : regex :=
  Cls (fun c => negb (is_digit c || is_char "+" c)).

(** [[a-zA-Z0-9._%+-]] *)
Definition local_char (c : ascii) : bool :=
  is_alpha c || is_digit c || is_char "." c || is_char "_" c ||
  is_char "%" c || is_char "+" c || is_char "-" c.

(** [[a-zA-Z0-9.-]] *)
Definition domain_char (c : ascii) : bool :=
  is_alpha c || is_digit c || is_char "." c || is_char "-" c.

(** [/[a-zA-Z0-9._%+-]+@[a-zA-Z0-9.-]+\.[a-zA-Z]{2,}/g] *)
Definition emailPattern : regex :=
  Plus (Cls local_char) ⋅ Chr "@" ⋅ Plus (Cls domain_char) ⋅ Chr "." ⋅
  AtLeast 2 (Cls is_alpha).

(** [/^[a-zA-Z0-9._%+-]+@[a-zA-Z0-9.-]+\.[a-zA-Z]{2,}$/] *)
Definition emailRegex : regex := Bol ⋅ emailPattern ⋅ Eol.

(** the pattern of [parseRating]: group 1 is [\d+], an optional dot and
    any further digits *)
Definition ratingRegex : regex :=
  Grp 1 (Plus digit ⋅ Opt (Chr ".") ⋅ Star true digit).

(** [/([\d,]+)/] *)
Definition reviewRegex : regex :=
  Grp 1 (Plus (Cls (fun c => is_digit c || is_char "," c))).

(** [/,/g] *)
Definition comma : regex := Chr ",".

(** [-?\d+\.\d+] *)
Definition coordinate : regex := Opt (Chr "-") ⋅ Plus digit ⋅ Chr "." ⋅ Plus digit.

(** [/@(-?\d+\.\d+),(-?\d+\.\d+)/] *)
Definition atRegex : regex :=
  Chr "@" ⋅ Grp 1 coordinate ⋅ Chr "," ⋅ Grp 2 coordinate.

(** [/!3d(-?\d+\.\d+)!4d(-?\d+\.\d+)/] *)
Definition dataRegex : regex :=
  Lit "!3d" ⋅ Grp 1 coordinate ⋅ Lit "!4d" ⋅ Grp 2 coordinate.

(** the pattern of [parseAddress]: group 1 is [[A-Z]{2}]; after any white
    space the optional group 2 is [\d{5}] with the optional group 3
    [-\d{4}] *)
Definition stateZipRegex : regex :=
  Grp 1 (Rep 2 (Cls is_upper)) ⋅ Star true space ⋅
  Opt (Grp 2 (Rep 5 digit ⋅ Opt (Grp 3 (Chr "-" ⋅ Rep 4 digit)))).

Definition validDays : list string :=
  ["Monday"; "Tuesday"; "Wednesday"; "Thursday"; "Friday"; "Saturday"; "Sunday"]%string.

(** the pattern of [extractHoursData], under the [i] flag: at the start
    group 1 is one of the seven day names, then a comma, any white space,
    group 2 the lazy [.+?], a comma, any white space and the words
    [Copy open hours] *)
Definition hoursRegex : regex :=
  Bol ⋅ Grp 1 (AltL (map LitI validDays)) ⋅ Chr "," ⋅ Star true space ⋅
  Grp 2 (PlusLazy (Cls is_dot)) ⋅ Chr "," ⋅ Star true space ⋅
  LitI "Copy open hours".

(** [/\d+/g] *)
Definition digitsRegex : regex := Plus digit.

End Patterns.

(** ** The records *)

(** What [extractBusinessData] hands to the validator.  The three fields
    typed [value] are those the validator also reads back as numbers or
    tests for being a string. *)
Record RawData : Type := {
  raw_businessName : value;
  raw_address : option string;
  raw_phone : option string;
  raw_website : option string;
  raw_rating : value;
  raw_reviewCount : value;
  raw_category : option string;
  raw_priceLevel : option string;
  raw_priceRange : option string;
  raw_googleMapsUrl : option string;
  raw_emails : option (list string);
  raw_emailSource : option string;
  raw_businessHours : option (gmap string string)
}.

(** The object [validateBusinessData] returns. *)
Record BusinessRecord : Type := {
  businessName : option string;
  address : option string;
  street : option string;
  city : option string;
  state : option string;
  zip : option string;
  country : option string;
  phone : option string;
  website : option string;
  rating : option Q;
  reviewCount : Z;
  category : option string;
  priceLevel : option string;
  priceRange : option string;
  googleMapsUrl : option string;
  latitude : option Q;
  longitude : option Q;
  businessHours : option (gmap string string);
  emails : list string;
  emailSource : string
}.


(** [config/email-blacklist.json]: domain substrings and patterns, the
    patterns as [new RegExp] compiles them. *)
Record Blacklist : Type := {
  domains : list string;
  patterns : list Regex.regex
}.

Record AddressParts : Type := {
  ap_street : option string;
  ap_city : option string;
  ap_state : option string;
  ap_zip : option string;
  ap_country : option string
}.

Record Filters : Type := {
  minRating : Q;
  minReviews : Q;
  filterByPriceLevel : list string;
  minPrice : Q;
  maxPrice : Q
}.

Definition Qltb (x y : Q) : bool := negb (Qle_bool y x).

(** ** [src/utils/validation.js] *)

Section Validation.
Import JsString Regex Patterns.

(** Rounding of a decimal literal to the nearest double. *)
Variable fround : Q -> Q.

(** [new URL(url)]: the protocol and the serialised [href], [None] when the
    constructor throws. *)
Variable URL_parse : string -> option (string * string).

(** The blacklist [loadEmailBlacklist] caches. *)
Variable blacklist : Blacklist.

Definition parseFloat (l : list ascii) : option Q := fround <$> decimal l.

Definition cleanString (v : value) : option string :=
  match v with
  | VStr s =>
      match chars s with
      | [] => None
      | l => or_null (replace_all spaces (chars " ") (trim l))
      end
  | VNull | VNum _ => None
  end.

Definition cleanPhone (phone : option string) : option string :=
  match truthy_str phone with
  | None => None
  | Some p =>
      let cleaned := replace_all not_phone_char [] (chars p) in
      let cleaned :=
        if negb (startsWith (chars "+") cleaned) && (List.length cleaned =? 10)%nat
        then chars "+1" ++ cleaned else cleaned in
      or_null cleaned
  end.

Definition validateEmail (email : string) : option string :=
  match chars email with
  | [] => None
  | l =>
      let trimmed := toLowerCase (trim l) in
      if existsb (fun domain => includes (chars domain) trimmed) (domains blacklist)
      then None
      else if existsb (fun pattern => test pattern trimmed) (patterns blacklist)
      then None
      else if test emailRegex trimmed then Some (str trimmed) else None
  end.

Definition validateUrl (url : option string) : option string :=
  match truthy_str url with
  | None => None
  | Some u =>
      match URL_parse u with
      | Some (protocol, href) =>
          if negb (String.eqb protocol "http:") && negb (String.eqb protocol "https:")
          then None else Some href
      | None => None
      end
  end.

Definition in_range (lo hi : Q) (x : option Q) : bool :=
  match x with
  | Some q => Qle_bool lo q && Qle_bool q hi
  | None => false
  end.

Definition parseRating (ratingText : value) : completion (option Q) :=
  match ratingText with
  | VNull => Normal None
  | VNum q => if Qeq_bool q 0 then Normal None else TypeError
  | VStr s =>
      match chars s with
      | [] => Normal None
      | l =>
          match exec ratingRegex l with
          | Some m =>
              let rating := parseFloat (default [] (group 1 m)) in
              Normal (if in_range 0 5 rating then rating else None)
          | None => Normal None
          end
      end
  end.

Definition parseReviewCount (reviewText : value) : completion Z :=
  match reviewText with
  | VNull => Normal 0%Z
  | VNum q => if Qeq_bool q 0 then Normal 0%Z else TypeError
  | VStr s =>
      match chars s with
      | [] => Normal 0%Z
      | l =>
          match exec reviewRegex l with
          | Some m =>
              Normal (default 0%Z
                (parseInt (replace_all comma [] (default [] (group 1 m)))))
          | None => Normal 0%Z
          end
      end
  end.

(** The pair a coordinate pattern yields when it matches and both numbers
    are in range. *)
Definition coordinates_of (r : regex) (url : list ascii) : option (Q * Q) :=
  match exec r url with
  | Some m =>
      let latitude := parseFloat (default [] (group 1 m)) in
      let longitude := parseFloat (default [] (group 2 m)) in
      if in_range (-90) 90 latitude && in_range (-180) 180 longitude
      then match latitude, longitude with
           | Some la, Some lo => Some (la, lo)
           | _, _ => None
           end
      else None
  | None => None
  end.

Definition parseCoordinates (url : option string) : option Q * option Q :=
  match truthy_str url with
  | None => (None, None)
  | Some u =>
      match coordinates_of atRegex (chars u) with
      | Some (la, lo) => (Some la, Some lo)
      | None =>
          match coordinates_of dataRegex (chars u) with
          | Some (la, lo) => (Some la, Some lo)
          | None => (None, None)
          end
      end
  end.

Definition no_address : AddressParts :=
  {| ap_street := None; ap_city := None; ap_state := None; ap_zip := None;
     ap_country := None |}.

(** [x || null] followed by [cleanString] *)
Definition clean_part (o : option (list ascii)) : option string :=
  cleanString (opt_value (o ≫= or_null)).

Definition parseAddress (fullAddress : option string) : AddressParts :=
  match truthy_str fullAddress with
  | None => no_address
  | Some a =>
      let parts := map trim (split "," (chars a)) in
      let n := List.length parts in
      let street := if (2 <=? n)%nat then parts !! 0%nat else None in
      let city := if (2 <=? n)%nat then parts !! 1%nat else None in
      let stateZipMatch :=
        if (3 <=? n)%nat then parts !! 2%nat ≫= exec stateZipRegex else None in
      let state :=
        if (3 <=? n)%nat then
          match stateZipMatch with
          | Some m => group 1 m
          | None => parts !! 2%nat
          end
        else None in
      let zip := stateZipMatch ≫= group 2 in
      let country := if (4 <=? n)%nat then parts !! (n - 1)%nat else None in
      {| ap_street := clean_part street;
         ap_city := clean_part city;
         ap_state := clean_part state;
         ap_zip := clean_part zip;
         ap_country :=
           match clean_part country with
           | Some c => Some c
           | None => Some "United States"%string
           end |}
  end.

Definition valid_hours_entry (day time : string) : option string :=
  if bool_decide (day ∈ validDays) then or_null (trim (chars time)) else None.

Definition validateBusinessHours (hours : option (gmap string string))
  : option (gmap string string) :=
  match hours with
  | None => None
  | Some h =>
      if (size h =? 0)%nat then None
      else
        let validatedHours := map_imap valid_hours_entry h in
        if (0 <? size validatedHours)%nat then Some validatedHours else None
  end.

Definition validateBusinessData (rawData : RawData)
  : completion (option BusinessRecord) :=
  let '(latitude, longitude) := parseCoordinates (raw_googleMapsUrl rawData) in
  let addressComponents := parseAddress (raw_address rawData) in
  let validatedEmails :=
    match raw_emails rawData with
    | Some l => omap validateEmail l
    | None => []
    end in
  rating ← parseRating (raw_rating rawData);
  reviewCount ← parseReviewCount (raw_reviewCount rawData);
  Normal (Some {|
    businessName := cleanString (raw_businessName rawData);
    address := cleanString (opt_value (raw_address rawData));
    street := ap_street addressComponents;
    city := ap_city addressComponents;
    state := ap_state addressComponents;
    zip := ap_zip addressComponents;
    country := ap_country addressComponents;
    phone := cleanPhone (raw_phone rawData);
    website := validateUrl (raw_website rawData);
    rating := rating;
    reviewCount := reviewCount;
    category := cleanString (opt_value (raw_category rawData));
    priceLevel := truthy_str (raw_priceLevel rawData);
    priceRange := truthy_str (raw_priceRange rawData);
    googleMapsUrl := validateUrl (raw_googleMapsUrl rawData);
    latitude := latitude;
    longitude := longitude;
    businessHours := validateBusinessHours (raw_businessHours rawData);
    emails := validatedEmails;
    emailSource := default "not_found"%string (truthy_str (raw_emailSource rawData))
  |}).

(** The four checks of [meetsFilterCriteria]; each says whether the record
    survives it. *)
Definition rating_ok (business : BusinessRecord) (filters : Filters) : bool :=
  match rating business with
  | Some r =>
      negb (Qltb 0 (minRating filters) && negb (Qeq_bool r 0) &&
            Qltb r (minRating filters))
  | None => true
  end.

Definition reviews_ok (business : BusinessRecord) (filters : Filters) : bool :=
  negb (Qltb 0 (minReviews filters) && negb (reviewCount business =? 0)%Z &&
        Qltb (inject_Z (reviewCount business)) (minReviews filters)).

Definition priceLevel_ok (business : BusinessRecord) (filters : Filters) : bool :=
  match filterByPriceLevel filters, truthy_str (priceLevel business) with
  | _ :: _, Some level => bool_decide (level ∈ filterByPriceLevel filters)
  | _, _ => true
  end.

Definition priceRange_ok (business : BusinessRecord) (filters : Filters) : bool :=
  if Qltb 0 (minPrice filters) || Qltb 0 (maxPrice filters) then
    match truthy_str (priceRange business) with
    | Some range =>
        let priceNumbers := match_all digitsRegex (chars range) in
        match priceNumbers with
        | first :: _ =>
            match parseInt first with
            | Some businessMinPrice =>
                if Qltb 0 (minPrice filters) &&
                   Qltb (inject_Z businessMinPrice) (minPrice filters)
                then false
                else if Qltb 0 (maxPrice filters) then
                  if includes (chars "+") (chars range) then
                    negb (Qltb (maxPrice filters) (inject_Z businessMinPrice))
                  else if (List.length priceNumbers =? 2)%nat then
                    negb (Qltb (maxPrice filters) (inject_Z businessMinPrice))
                  else true
                else true
            | None => true
            end
        | [] => true
        end
    | None => true
    end
  else true.

Definition meetsFilterCriteria (business : BusinessRecord) (filters : Filters) : bool :=
  if negb (rating_ok business filters) then false
  else if negb (reviews_ok business filters) then false
  else if negb (priceLevel_ok business filters) then false
  else if negb (priceRange_ok business filters) then false
  else true.

Definition extractEmailsFromHTML (html : string) : list string :=
  match chars html with
  | [] => []
  | l =>
      let emails := map str (match_all emailPattern l) in
      let validEmails := omap validateEmail emails in
      JsSet.of_list validEmails
  end.

End Validation.

(** ** [src/scraper.js]: the detail view, the hours and the listing walk *)

(** What the selectors find in an opened detail panel. *)
Record DetailView : Type := {
  dv_businessName : option string;
  dv_address : option string;
  dv_phone : option string;
  dv_website : option string;
  dv_rating : option string;
  dv_reviewCount : string;
  dv_category : option string;
  dv_priceLevel : option string;
  dv_priceRange : option string;
  (** the [aria-label]s of the buttons disclosed by the hours button, [None]
      when there is no such button or the click throws *)
  dv_hoursLabels : option (list string);
  (** the address of a [mailto:] link, if any *)
  dv_profileEmail : option string
}.

(** A card of the results feed: its [href] and the panel that opens when it
    is clicked, [None] when an interaction with the page throws. *)
Record Card : Type := {
  href : option string;
  panel : option DetailView
}.

Section Scraper.
Import JsString Regex Patterns.

Variable fround : Q -> Q.
Variable URL_parse : string -> option (string * string).
Variable blacklist : Blacklist.

(** The body of the [forEach] over the disclosed buttons: the state is the
    [hours] object and the [seenDays] set. *)
Definition hours_step (acc : gmap string string * gset string) (ariaLabel : string)
  : gmap string string * gset string :=
  let '(hours, seenDays) := acc in
  match chars ariaLabel with
  | [] => acc
  | l =>
      match exec hoursRegex l with
      | Some m =>
          let day := str (default [] (group 1 m)) in
          let timeRange := str (trim (default [] (group 2 m))) in
          if bool_decide (day ∈ seenDays) then acc
          else (<[day := timeRange]> hours, {[day]} ∪ seenDays)
      | None => acc
      end
  end.

(** The callback of [$$eval] in [extractHoursData]. *)
Definition collectHours (labels : list string) : gmap string string :=
  fst (fold_left hours_step labels (∅, ∅)).

Definition extractHoursData (view : DetailView) : option (gmap string string) :=
  match dv_hoursLabels view with
  | None => None
  | Some labels =>
      let hoursData := collectHours labels in
      if (size hoursData =? 0)%nat then None else Some hoursData
  end.

Definition fullUrl (businessUrl : string) : string :=
  if startsWith (chars "http") (chars businessUrl) then businessUrl
  else ("https://www.google.com/maps" +:+ businessUrl)%string.

(** [extractBusinessData]: the raw record, or [null], and the set of seen
    URLs after the call. *)
Definition extractBusinessData (card : Card) (seenUrls : gset string)
  (extractBusinessHours : bool) : option RawData * gset string :=
  match truthy_str (href card) with
  | None => (None, seenUrls)
  | Some businessUrl =>
      if bool_decide (businessUrl ∈ seenUrls) then (None, seenUrls)
      else
        let seenUrls := {[businessUrl]} ∪ seenUrls in
        match panel card with
        | None => (None, seenUrls)
        | Some view =>
            match truthy_str (dv_businessName view) with
            | None => (None, seenUrls)
            | Some name =>
                let profileEmail := truthy_str (dv_profileEmail view) in
                (Some {|
                   raw_businessName := VStr name;
                   raw_address := dv_address view;
                   raw_phone := dv_phone view;
                   raw_website := dv_website view;
                   raw_rating := opt_value (dv_rating view);
                   raw_reviewCount := VStr (dv_reviewCount view);
                   raw_category := dv_category view;
                   raw_priceLevel := dv_priceLevel view;
                   raw_priceRange := dv_priceRange view;
                   raw_googleMapsUrl := Some (fullUrl businessUrl);
                   raw_emails :=
                     Some match profileEmail with Some e => [e] | None => [] end;
                   raw_emailSource :=
                     Some match profileEmail with
                          | Some _ => "google_profile"
                          | None => "not_found"
                          end%string;
                   raw_businessHours :=
                     if extractBusinessHours then extractHoursData view else None
                 |}, seenUrls)
            end
        end
  end.

(** The variables of [extractBusinessListings]. *)
Record Walk : Type := {
  businesses : list BusinessRecord;
  seenUrls : gset string;
  previousCount : nat;
  noNewResultsCount : nat;
  firstDebugDone : bool
}.

Definition initial : Walk :=
  {| businesses := []; seenUrls := ∅; previousCount := 0;
     noNewResultsCount := 0; firstDebugDone := false |}.

Variable maxResults : Z.
Variable filters : Filters.
Variable extractBusinessHours : bool.

Definition below_cap (w : Walk) : bool :=
  (Z.of_nat (List.length (businesses w)) <? maxResults)%Z.

(** The body of the [for] loop, for one card. *)
Definition visit (card : Card) (w : Walk) : Walk :=
  let '(businessData, seen) :=
    extractBusinessData card (seenUrls w) extractBusinessHours in
  let w := {| businesses := businesses w; seenUrls := seen;
              previousCount := previousCount w;
              noNewResultsCount := noNewResultsCount w;
              firstDebugDone := firstDebugDone w |} in
  match businessData with
  | Some raw =>
      match validateBusinessData fround URL_parse blacklist raw with
      | Normal (Some validatedData) =>
          if meetsFilterCriteria validatedData filters then
            {| businesses := businesses w ++ [validatedData];
               seenUrls := seenUrls w;
               previousCount := previousCount w;
               noNewResultsCount := noNewResultsCount w;
               firstDebugDone := firstDebugDone w |}
          else w
      | Normal None => w
      | TypeError => w
      end
  | None =>
      {| businesses := businesses w; seenUrls := seenUrls w;
         previousCount := previousCount w;
         noNewResultsCount := noNewResultsCount w;
         firstDebugDone := true |}
  end.

(** The [for] loop over the cards from index [previousCount] on; it stops
    when the cap is reached. *)
Fixpoint visit_all (cards : list Card) (w : Walk) : Walk :=
  match cards with
  | [] => w
  | card :: cards' => if below_cap w then visit_all cards' (visit card w) else w
  end.

(** One turn of the [while] loop on the cards currently rendered: the new
    variables and whether the loop is left. *)
Definition turn (businessLinks : list Card) (w : Walk) : Walk * bool :=
  let w := visit_all (drop (previousCount w) businessLinks) w in
  let n := List.length businessLinks in
  let stalls :=
    if (n =? previousCount w)%nat then S (noNewResultsCount w) else 0%nat in
  let w' := {| businesses := businesses w; seenUrls := seenUrls w;
               previousCount := n; noNewResultsCount := stalls;
               firstDebugDone := firstDebugDone w |} in
  if (n =? previousCount w)%nat && (3 <=? stalls)%nat
  then ({| businesses := businesses w; seenUrls := seenUrls w;
           previousCount := previousCount w; noNewResultsCount := stalls;
           firstDebugDone := firstDebugDone w |}, true)
  else (w', negb (below_cap w')).

(** The feed: the cards [page.$$] returns at the [i]-th turn, that is after
    [i] scrolls. *)
Variable feed : nat -> list Card.

(** The [while] loop from its [i]-th turn on; [None] when the fuel runs
    out before the loop is left. *)
Fixpoint walk_from (fuel : nat) (i : nat) (w : Walk) : option Walk :=
  match fuel with
  | O => None
  | S fuel' =>
      if below_cap w then
        let '(w', stop) := turn (feed i) w in
        if stop then Some w' else walk_from fuel' (S i) w'
      else Some w
  end.

Definition extractBusinessListings (fuel : nat) : option (list BusinessRecord) :=
  businesses <$> walk_from fuel 0 initial.

End Scraper.

(** ** The email finder: [findEmailOnWebsite] and [batchFindEmails] *)

(** A loaded page: its HTML and its anchors ([href], text content). *)
Record Page : Type := {
  content : string;
  anchors : list (string * string)
}.

Section EmailFinder.
Import JsString Regex.

Variable blacklist : Blacklist.

(** [page.goto(url)] followed by reading the page; [None] when the
    navigation fails or times out. *)
Variable goto : string -> option Page.

Definition contactVocabulary : list string :=
  ["contact"; "about"; "team"; "get-in-touch"; "reach-us"; "email"; "connect"]%string.

Definition findContactPages (page : Page) : list string :=
  let links :=
    filter (fun link : string * string =>
              let url := toLowerCase (chars (fst link)) in
              let text := toLowerCase (chars (snd link)) in
              existsb (fun pattern =>
                         includes (chars pattern) url || includes (chars pattern) text)
                      contactVocabulary = true)
           (anchors page) in
  JsSet.of_list (map fst links).

(** The loop over the first two contact pages; a page that fails to load
    is skipped. *)
Definition visit_contact (allEmails : list string) (link : string) : list string :=
  match goto link with
  | Some page => JsSet.add_all (extractEmailsFromHTML blacklist (content page)) allEmails
  | None => allEmails
  end.

(** [None] is the [null] of "no email found"; otherwise the emails, whose
    source is ['website']. *)
Definition findEmailOnWebsite (websiteUrl : option string) : option (list string) :=
  match truthy_str websiteUrl with
  | None => None
  | Some url =>
      match goto url with
      | None => None
      | Some page =>
          let allEmails := JsSet.add_all (extractEmailsFromHTML blacklist (content page)) [] in
          let contactLinks := findContactPages page in
          let allEmails := fold_left visit_contact (take 2 contactLinks) allEmails in
          match allEmails with
          | [] => None
          | _ :: _ => Some allEmails
          end
      end
  end.

Definition with_emails (b : BusinessRecord) (es : list string) (src : string)
  : BusinessRecord :=
  {| businessName := businessName b; address := address b; street := street b;
     city := city b; state := state b; zip := zip b; country := country b;
     phone := phone b; website := website b; rating := rating b;
     reviewCount := reviewCount b; category := category b;
     priceLevel := priceLevel b; priceRange := priceRange b;
     googleMapsUrl := googleMapsUrl b; latitude := latitude b;
     longitude := longitude b; businessHours := businessHours b;
     emails := es; emailSource := src |}.

(** The task [batchFindEmails] runs for one business. *)
Definition findEmails_task (business : BusinessRecord) : BusinessRecord :=
  match truthy_str (website business) with
  | None => business
  | Some _ =>
      match findEmailOnWebsite (website business) with
      | Some emails => with_emails business emails "website"
      | None => with_emails business [] "not_found"
      end
  end.

(** Each task writes its own record only, so the outcome does not depend on
    how the limiter interleaves them. *)
Definition batchFindEmails (businesses : list BusinessRecord) : list BusinessRecord :=
  map findEmails_task businesses.

End EmailFinder.

(** ** Concrete oracles and records for the examples *)

Module Sample.
Import JsString Regex.
Local Open Scope string_scope.

(** The decimals of the examples are doubles: rounding leaves them alone. *)
Definition exact (q : Q) : Q := q.

(** A parser that accepts what starts with [http://] or [https://] and
    serialises it unchanged. *)
Definition simple_URL (u : string) : option (string * string) :=
  if startsWith (chars "http://") (chars u) then Some ("http:", u)
  else if startsWith (chars "https://") (chars u) then Some ("https:", u)
  else None.

Definition blacklist : Blacklist :=
  {| domains := ["example.com"];
     patterns := [Seq Bol (Lit "noreply@")] |}.

Definition no_filters : Filters :=
  {| minRating := 0; minReviews := 0; filterByPriceLevel := [];
     minPrice := 0; maxPrice := 0 |}.

Definition raw_named (name : value) : RawData :=
  {| raw_businessName := name; raw_address := None; raw_phone := None;
     raw_website := None; raw_rating := VNull; raw_reviewCount := VStr "0";
     raw_category := None; raw_priceLevel := None; raw_priceRange := None;
     raw_googleMapsUrl := None; raw_emails := Some []; raw_emailSource := None;
     raw_businessHours := None |}.

Definition view_named (name : option string) : DetailView :=
  {| dv_businessName := name; dv_address := None; dv_phone := None;
     dv_website := None; dv_rating := None; dv_reviewCount := "0";
     dv_category := None; dv_priceLevel := None; dv_priceRange := None;
     dv_hoursLabels := None; dv_profileEmail := None |}.

Definition validate : RawData -> completion (option BusinessRecord) :=
  validateBusinessData exact simple_URL blacklist.

End Sample.

(** ** Filters with one check switched off

    A threshold of [0] and an empty list of price levels are the values
    [meetsFilterCriteria] reads as "no filter". *)

Definition without_rating_filter (f : Filters) : Filters :=
  {| minRating := 0; minReviews := minReviews f;
     filterByPriceLevel := filterByPriceLevel f;
     minPrice := minPrice f; maxPrice := maxPrice f |}.

Definition without_reviews_filter (f : Filters) : Filters :=
  {| minRating := minRating f; minReviews := 0;
     filterByPriceLevel := filterByPriceLevel f;
     minPrice := minPrice f; maxPrice := maxPrice f |}.

Definition without_level_filter (f : Filters) : Filters :=
  {| minRating := minRating f; minReviews := minReviews f;
     filterByPriceLevel := [];
     minPrice := minPrice f; maxPrice := maxPrice f |}.

Definition without_price_filter (f : Filters) : Filters :=
  {| minRating := minRating f; minReviews := minReviews f;
     filterByPriceLevel := filterByPriceLevel f;
     minPrice := 0; maxPrice := 0 |}.

(** Filters with one check switched on. *)
Definition only_minRating (q : Q) : Filters :=
  {| minRating := q; minReviews := 0; filterByPriceLevel := [];
     minPrice := 0; maxPrice := 0 |}.

Definition only_minReviews (q : Q) : Filters :=
  {| minRating := 0; minReviews := q; filterByPriceLevel := [];
     minPrice := 0; maxPrice := 0 |}.

Definition only_levels (levels : list string) : Filters :=
  {| minRating := 0; minReviews := 0; filterByPriceLevel := levels;
     minPrice := 0; maxPrice := 0 |}.

Definition only_price (lo hi : Q) : Filters :=
  {| minRating := 0; minReviews := 0; filterByPriceLevel := [];
     minPrice := lo; maxPrice := hi |}.

(** The first digit group of a price text, as [parseInt] reads it. *)
Definition first_price (range : string) : option Z :=
  match Regex.match_all Patterns.digitsRegex (JsString.chars range) with
  | first :: _ => JsString.parseInt first
  | [] => None
  end.

Definition price_groups (range : string) : nat :=
  List.length (Regex.match_all Patterns.digitsRegex (JsString.chars range)).

Definition has_plus (range : string) : bool :=
  JsString.includes (JsString.chars "+") (JsString.chars range).

(** ** What the specification asks of an email address

    An address is acceptable when its lower-case form holds no blacklisted
    domain, no blacklisted pattern matches it and the syntax pattern does. *)

Definition acceptable (bl : Blacklist) (e : string) : Prop :=
  (forall d, d ∈ domains bl ->
     JsString.includes (JsString.chars d) (JsString.toLowerCase (JsString.chars e)) = false) /\
  (forall p, p ∈ patterns bl -> Regex.test p (JsString.chars e) = false) /\
  Regex.test Patterns.emailRegex (JsString.chars e) = true.

(** A list without its repetitions, each element at its first occurrence. *)
Fixpoint first_occurrences (l : list string) : list string :=
  match l with
  | [] => []
  | x :: t => x :: filter (fun y => y <> x) (first_occurrences t)
  end.

(** ** What the specification says about the hours

    What one label states: the day as it is written and the range, trimmed. *)
Definition parse_label (label : string) : option (string * string) :=
  match JsString.chars label with
  | [] => None
  | l =>
      match Regex.exec Patterns.hoursRegex l with
      | Some m =>
          Some (JsString.str (default [] (Regex.group 1 m)),
                JsString.str (JsString.trim (default [] (Regex.group 2 m))))
      | None => None
      end
  end.

(** The range of the first label that states [day]. *)
Fixpoint first_range (day : string) (labels : list string) : option string :=
  match labels with
  | [] => None
  | label :: labels' =>
      match parse_label label with
      | Some (d, r) => if String.eqb d day then Some r else first_range day labels'
      | None => first_range day labels'
      end
  end.

(** A string that [trim] leaves alone. *)
Definition trimmed (l : list ascii) : Prop :=
  JsString.trimStart l = l /\ JsString.trimStart (rev l) = rev l.

(** ** What a card contributes to the walk *)

Section CardOutcome.
Variable fround : Q -> Q.
Variable URL_parse : string -> option (string * string).
Variable blacklist : Blacklist.
Variable filters : Filters.
Variable extractBusinessHours : bool.

(** The raw record of a card that has not been seen, [None] when the
    extraction returns [null]. *)
Definition raw_of (card : Card) : option RawData :=
  fst (extractBusinessData card ∅ extractBusinessHours).

(** The records a card adds to the result: the validated record when the
    extraction succeeds, the validator returns and the filter accepts. *)
Definition accepted (card : Card) : list BusinessRecord :=
  match raw_of card with
  | Some raw =>
      match validateBusinessData fround URL_parse blacklist raw with
      | Normal (Some b) => if meetsFilterCriteria b filters then [b] else []
      | Normal None | TypeError => []
      end
  | None => []
  end.

(** The URL under which a card is remembered. *)
Definition card_url (card : Card) : option string := truthy_str (href card).

Definition unseen (card : Card) (seen : gset string) : Prop :=
  forall u, card_url card = Some u -> u ∉ seen.

End CardOutcome.

(** The cap as a length. *)
Definition cap (maxResults : Z) : nat := Z.to_nat maxResults.

(** The [while] loop, entered at its [i]-th turn with the variables [w], is
    left: some amount of fuel is enough. *)
Definition leaves_loop (fround : Q -> Q)
  (URL_parse : string -> option (string * string)) (blacklist : Blacklist)
  (maxResults : Z) (filters : Filters) (extractBusinessHours : bool)
  (feed : nat -> list Card) (i : nat) (w : Walk) : Prop :=
  exists fuel w',
    walk_from fround URL_parse blacklist maxResults filters extractBusinessHours
      feed fuel i w = Some w'.

(** ** White space, directly

    What replacing every [\s+] by one space amounts to: outside a run of
    white space ([inside = false]) the first white-space character becomes a
    space, inside one the others vanish. *)
Fixpoint collapse (inside : bool) (l : list ascii) : list ascii :=
  match l with
  | [] => []
  | c :: t =>
      if JsString.is_space c
      then if inside then collapse true t else " "%char :: collapse true t
      else c :: collapse false t
  end.

(** The characters [cleanPhone] keeps. *)
Definition phone_char (c : ascii) : bool :=
  JsString.is_digit c || JsString.is_char "+" c.

Module SampleRecords.
Local Open Scope string_scope.

Definition plain (name : string) : BusinessRecord :=
  {| businessName := Some name; address := None; street := None; city := None;
     state := None; zip := None; country := None; phone := None;
     website := None; rating := None; reviewCount := 0; category := None;
     priceLevel := None; priceRange := None; googleMapsUrl := None;
     latitude := None; longitude := None; businessHours := None;
     emails := []; emailSource := "not_found" |}.

Definition priced (level range : option string) : BusinessRecord :=
  {| businessName := Some "Cafe"; address := None; street := None; city := None;
     state := None; zip := None; country := None; phone := None;
     website := None; rating := Some (9 # 2); reviewCount := 120; category := None;
     priceLevel := level; priceRange := range; googleMapsUrl := None;
     latitude := None; longitude := None; businessHours := None;
     emails := []; emailSource := "not_found" |}.

Definition strict : Filters :=
  {| minRating := 4; minReviews := 50; filterByPriceLevel := ["$$$"];
     minPrice := 0; maxPrice := 0 |}.

End SampleRecords.

Module SampleEmails.
Local Open Scope string_scope.

Definition candidates : list string :=
  ["info@example.com"; "noreply@company.com"; " Sales@Company.com"; "bad";
   "sales@company.com"].

Definition raw_with_emails (es : list string) : RawData :=
  {| raw_businessName := VStr "Shop"; raw_address := None; raw_phone := None;
     raw_website := None; raw_rating := VNull; raw_reviewCount := VStr "0";
     raw_category := None; raw_priceLevel := None; raw_priceRange := None;
     raw_googleMapsUrl := None; raw_emails := Some es;
     raw_emailSource := Some "google_profile"; raw_businessHours := None |}.

Definition html : string :=
  "<a href='mailto:Info@Joes.com'>write</a> a@b.com.x info@joes.com q@example.com".

End SampleEmails.

Module SampleHours.
Local Open Scope string_scope.

Definition tuesday : string := "Tuesday, 9:00 AM to 5:00 PM, Copy open hours".
Definition monday_main : string := "Monday, 9:00 AM to 5:00 PM, Copy open hours".
Definition monday_kitchen : string := "Monday, 11:00 AM to 2:00 PM, Copy open hours".
Definition monday_lower : string := "monday, 8:00 AM to 1:00 PM, Copy open hours".

(** A label whose range is blank. *)
Definition monday_blank : string := "Monday,  , Copy open hours".

Definition labels : list string := [tuesday; monday_main; monday_kitchen].

(** The detail view whose hours buttons carry the given labels. *)
Definition shown (labels : list string) : DetailView :=
  {| dv_businessName := Some "Diner"; dv_address := None; dv_phone := None;
     dv_website := None; dv_rating := None; dv_reviewCount := "0";
     dv_category := None; dv_priceLevel := None; dv_priceRange := None;
     dv_hoursLabels := Some labels; dv_profileEmail := None |}.

Definition view : DetailView :=
  {| dv_businessName := Some "Diner"; dv_address := None; dv_phone := None;
     dv_website := None; dv_rating := None; dv_reviewCount := "0";
     dv_category := None; dv_priceLevel := None; dv_priceRange := None;
     dv_hoursLabels := Some labels; dv_profileEmail := None |}.

End SampleHours.

Module SampleFeed.
Import Sample.
Local Open Scope string_scope.

Definition card (url : string) (name : option string) : Card :=
  {| href := Some url; panel := Some (view_named name) |}.

(** The record of a card that shows nothing but a name. *)
Definition listed (name : option string) (url : string) : BusinessRecord :=
  {| businessName := name; address := None; street := None; city := None;
     state := None; zip := None; country := None; phone := None;
     website := None; rating := None; reviewCount := 0; category := None;
     priceLevel := None; priceRange := None; googleMapsUrl := Some url;
     latitude := None; longitude := None; businessHours := None;
     emails := []; emailSource := "not_found" |}.

Definition c1 : Card := card "/place/a" (Some "A").
Definition c2 : Card := card "/place/b" None.
Definition c3 : Card := card "/place/c" (Some "C").
Definition c4 : Card := card "/place/d" None.
Definition c5 : Card := card "/place/e" (Some "E").

Definition five (i : nat) : list Card := [c1; c2; c3; c4; c5].

(** A card whose heading is blank. *)
Definition blank : Card := card "/place/x" (Some "   ").

Definition walk (maxResults : Z) (feed : nat -> list Card) (fuel : nat)
  : option (list BusinessRecord) :=
  extractBusinessListings exact simple_URL blacklist maxResults no_filters false feed fuel.

End SampleFeed.

Module SampleSites.
Import Sample.
Local Open Scope string_scope.

(** A record that carries an address from the profile and has a website. *)
Definition from_profile (site : option string) : BusinessRecord :=
  {| businessName := Some "Shop"; address := None; street := None; city := None;
     state := None; zip := None; country := None; phone := None;
     website := site; rating := None; reviewCount := 0; category := None;
     priceLevel := None; priceRange := None; googleMapsUrl := None;
     latitude := None; longitude := None; businessHours := None;
     emails := ["owner@shop.org"]; emailSource := "google_profile" |}.

(** The web as the crawler finds it: one site with a contact page. *)
Definition web (url : string) : option Page :=
  if String.eqb url "https://shop.org/" then
    Some {| content := "<p>Write to sales@shop.org</p>";
            anchors := [("https://shop.org/contact", "Contact us");
                        ("https://shop.org/menu", "Menu")] |}
  else if String.eqb url "https://shop.org/contact" then
    Some {| content := "<p>sales@shop.org, Desk@Shop.org</p>"; anchors := [] |}
  else None.

End SampleSites.

Module SampleRevalidation.
Import Sample.
Local Open Scope string_scope.

Definition full (rating reviews : value) (addr url : option string) : RawData :=
  {| raw_businessName := VStr "  Joe's   Pizza ";
     raw_address := addr;
     raw_phone := Some "(718) 555-1234";
     raw_website := Some "https://joes.example/";
     raw_rating := rating;
     raw_reviewCount := reviews;
     raw_category := Some "Pizza  restaurant";
     raw_priceLevel := Some "$$";
     raw_priceRange := Some "$10–20";
     raw_googleMapsUrl := url;
     raw_emails := Some ["Joe@Pizza.org "; "noreply@pizza.org"];
     raw_emailSource := Some "google_profile";
     raw_businessHours := Some {[ "Monday" := " 9 AM to 5 PM "; "Funday" := "x" ]} |}.

(** A record with a rating, one with a blank address, one whose link is no
    URL, and one that can be validated again. *)
Definition rated : RawData :=
  full (VStr "4.5") (VStr "1,234") (Some "123 Main St, Brooklyn, NY 11201, United States")
    (Some "https://www.google.com/maps/place/X/@40.5,-73.5,17z").

(** The record the validator returns, for the records above. *)
Definition validated (raw : RawData) : BusinessRecord :=
  match validate raw with
  | Normal (Some b) => b
  | Normal None | TypeError => SampleRecords.plain ""
  end.


End SampleRevalidation.

(** * Choosing an address, profile links, page texts and the CSV export

    ** [prioritizeEmails] of [validation.js] *)

Module Prioritize.
Import JsString.

Definition priority : list string :=
  ["info"; "contact"; "hello"; "sales"; "support"; "admin"]%string.

(** [Array.prototype.findIndex]; [None] is [-1]. *)
Fixpoint findIndex {A} (p : A -> bool) (l : list A) : option nat :=
  match l with
  | [] => None
  | x :: t => if p x then Some 0%nat else S <$> findIndex p t
  end.

(** The score the comparator gives an address: the index of the first
    priority word its lower-case prefix contains, [999] without one. *)
Definition score (email : string) : nat :=
  let prefix := toLowerCase (default [] (head (split "@" (chars email)))) in
  match findIndex (fun p => includes (chars p) prefix) priority with
  | Some i => i
  | None => 999%nat
  end.

(** [Array.prototype.sort] is stable: an element goes behind those that
    do not compare greater. *)
Fixpoint insert_by (f : string -> nat) (x : string) (sorted : list string)
  : list string :=
  match sorted with
  | [] => [x]
  | y :: t => if (f x <? f y)%nat then x :: y :: t else y :: insert_by f x t
  end.

Definition sort_by (f : string -> nat) (l : list string) : list string :=
  fold_left (fun sorted x => insert_by f x sorted) l [].

Definition prioritizeEmails (emails : option (list string)) : option string :=
  match emails with
  | None | Some [] => None
  | Some l => truthy_str (head (sort_by score l))
  end.

End Prioritize.

(** ** [findEmailInGoogleProfile] and [extractText] *)

Module Selectors.
Import JsString.

(** [str.replace(sub, '')] with a string pattern: the first occurrence
    goes. *)
Fixpoint remove_first (sub l : list ascii) : list ascii :=
  if startsWith sub l then drop (List.length sub) l
  else match l with
       | [] => []
       | c :: t => c :: remove_first sub t
       end.

(** [href] is the attribute of the first [mailto:] link, [None] without
    such a link or when the page throws. *)
Definition findEmailInGoogleProfile (href : option string) : option string :=
  match truthy_str href with
  | None => None
  | Some h =>
      Some (str (default [] (head (split "?" (remove_first (chars "mailto:") (chars h))))))
  end.

(** [texts] holds, selector by selector, the text content of the element
    found, [None] without an element or when the lookup throws. *)
Fixpoint extractText (texts : list (option string)) : option string :=
  match texts with
  | [] => None
  | text :: texts' =>
      match truthy_str text ≫= (fun t => or_null (trim (chars t))) with
      | Some t => Some t
      | None => extractText texts'
      end
  end.

End Selectors.

(** ** [src/utils/csvExport.js] *)

Module Csv.
Import JsString Regex.
Local Open Scope string_scope.
Local Open Scope list_scope.

Definition quote : ascii := "034"%char.
Definition newline : ascii := "010"%char.

(** [Array.prototype.join] *)
Definition join (sep : list ascii) (l : list (list ascii)) : list ascii :=
  match l with
  | [] => []
  | x :: t => x ++ flat_map (fun y => sep ++ y) t
  end.

(** What a property of a flattened business holds. *)
Inductive cell : Type :=
| Null
| Text (s : string)
| Number (q : Q).

(** An object: its own properties in insertion order. *)
Definition object : Type := list (string * cell).

Definition keys (o : object) : list string := map fst o.

(** [o[key]]; [None] is [undefined]. *)
Fixpoint get (key : string) (o : object) : option cell :=
  match o with
  | [] => None
  | (k, v) :: o' => if String.eqb k key then Some v else get key o'
  end.

Definition opt_text (o : option string) : cell :=
  match o with
  | Some s => Text s
  | None => Null
  end.

Definition opt_number (o : option Q) : cell :=
  match o with
  | Some q => Number q
  | None => Null
  end.

Definition dayOrder : list string :=
  ["Monday"; "Tuesday"; "Wednesday"; "Thursday"; "Friday"; "Saturday"; "Sunday"].

(** The entries [flattenForCSV] pushes, one for each day of [dayOrder]
    whose hours are truthy. *)
Definition hoursArray (businessHours : gmap string string) : list string :=
  omap (fun day =>
          (fun hours => str (chars day ++ chars ": " ++ chars hours)) <$>
          truthy_str (businessHours !! day))
       dayOrder.

Definition flattenForCSV (business : BusinessRecord) : object :=
  [ ("businessName", opt_text (businessName business));
    ("address", opt_text (address business));
    ("street", opt_text (street business));
    ("city", opt_text (city business));
    ("state", opt_text (state business));
    ("zip", opt_text (zip business));
    ("country", opt_text (country business));
    ("phone", opt_text (phone business));
    ("website", opt_text (website business));
    ("rating", opt_number (rating business));
    ("reviewCount", Number (inject_Z (reviewCount business)));
    ("category", opt_text (category business));
    ("priceLevel", opt_text (priceLevel business));
    ("priceRange", opt_text (priceRange business));
    ("googleMapsUrl", opt_text (googleMapsUrl business));
    ("latitude", opt_number (latitude business));
    ("longitude", opt_number (longitude business));
    ("businessHours",
       match businessHours business with
       | Some hours =>
           match hoursArray hours with
           | [] => Text ""
           | hoursArray => Text (str (join (chars " | ") (map chars hoursArray)))
           end
       | None => Null
       end);
    ("emails", Text (str (join (chars "; ") (map chars (emails business)))));
    ("emailSource", Text (emailSource business)) ].

Section Writer.

(** [String(value)] on a number. *)
Variable Number_toString : Q -> string.

(** [String(value)], the empty string standing for the early return on
    [null] and [undefined]. *)
Definition stringValue (value : option cell) : list ascii :=
  match value with
  | None | Some Null => []
  | Some (Text s) => chars s
  | Some (Number q) => chars (Number_toString q)
  end.

(** The quoting of a cell that holds a comma, a quote or a newline. *)
Definition escape (stringValue : list ascii) : list ascii :=
  if includes [","%char] stringValue || includes [quote] stringValue ||
     includes [newline] stringValue
  then [quote] ++ replace_all (Chr quote) [quote; quote] stringValue ++ [quote]
  else stringValue.

(** The cell of a data row. *)
Definition cell_text (value : option cell) : list ascii :=
  match value with
  | None | Some Null => []
  | Some _ => escape (stringValue value)
  end.

Definition headerArray (flattenedBusinesses : list object) : list string :=
  JsSet.of_list (flat_map keys flattenedBusinesses).

Definition rows (flattenedBusinesses : list object) : list (list (list ascii)) :=
  let headerArray := headerArray flattenedBusinesses in
  map chars headerArray ::
  map (fun business => map (fun header => cell_text (get header business)) headerArray)
      flattenedBusinesses.

Definition convertToCSV (businesses : list BusinessRecord) : string :=
  match businesses with
  | [] => ""
  | _ :: _ =>
      let flattenedBusinesses := map flattenForCSV businesses in
      str (join [newline] (map (join [","%char]) (rows flattenedBusinesses)))
  end.

End Writer.
End Csv.

(** ** Reading comma-separated text back

    A reader of the usual kind: cells are separated by commas, rows by
    newlines; a cell that starts with a quote runs to its closing quote, a
    doubled quote inside standing for one quote.  [field] is the cell read
    so far and [row] the cells of the row read so far, both reversed. *)

Module CsvReader.
Import JsString Csv.

Inductive mode : Type :=
| FieldStart
| Bare
| Quoted
| QuoteSeen.

Fixpoint read (m : mode) (field : list ascii) (row : list (list ascii))
  (l : list ascii) : list (list (list ascii)) :=
  match l with
  | [] => [rev (rev field :: row)]
  | c :: t =>
      match m with
      | Quoted =>
          if is_char quote c then read QuoteSeen field row t
          else read Quoted (c :: field) row t
      | FieldStart | Bare | QuoteSeen =>
          if is_char ","%char c then read FieldStart [] (rev field :: row) t
          else if is_char newline c
          then rev (rev field :: row) :: read FieldStart [] [] t
          else if is_char quote c then
            match m with
            | FieldStart => read Quoted field row t
            | QuoteSeen => read Quoted (c :: field) row t
            | _ => read Bare (c :: field) row t
            end
          else read Bare (c :: field) row t
      end
  end.

Definition read_csv (text : string) : list (list (list ascii)) :=
  read FieldStart [] [] (chars text).

(** A character that needs no quoting. *)
Definition plain (c : ascii) : bool :=
  negb (is_char ","%char c) && negb (is_char quote c) && negb (is_char newline c).

End CsvReader.

(** ** What a match is, declaratively

    [steps r s s'] holds when the expression [r] can take the matcher from
    the state [s] to the state [s'], whatever the order in which the
    matcher tries the alternatives; [derives r w] when [w] is a word of
    the expression, anchors and groups left aside. *)

Module RegexSpec.
Import JsString Regex.

Inductive steps : regex -> mstate -> mstate -> Prop :=
| steps_Eps s : steps Eps s s
| steps_Cls (p : ascii -> bool) s c t :
    rest s = c :: t -> p c = true -> steps (Cls p) s (advance c t s)
| steps_Seq r1 r2 s s1 s2 :
    steps r1 s s1 -> steps r2 s1 s2 -> steps (Seq r1 r2) s s2
| steps_Alt_l r1 r2 s s' : steps r1 s s' -> steps (Alt r1 r2) s s'
| steps_Alt_r r1 r2 s s' : steps r2 s s' -> steps (Alt r1 r2) s s'
| steps_Star_stop greedy r s : steps (Star greedy r) s s
| steps_Star_again greedy r s s1 s2 :
    steps r s s1 -> steps (Star greedy r) s1 s2 -> steps (Star greedy r) s s2
| steps_Grp i r s s1 : steps r s s1 -> steps (Grp i r) s (capture i s s1)
| steps_Bol s : pos s = 0%nat -> steps Bol s s
| steps_Eol s : rest s = [] -> steps Eol s s.

Inductive derives : regex -> list ascii -> Prop :=
| derives_Eps : derives Eps []
| derives_Cls (p : ascii -> bool) c : p c = true -> derives (Cls p) [c]
| derives_Seq r1 r2 w1 w2 :
    derives r1 w1 -> derives r2 w2 -> derives (Seq r1 r2) (w1 ++ w2)
| derives_Alt_l r1 r2 w : derives r1 w -> derives (Alt r1 r2) w
| derives_Alt_r r1 r2 w : derives r2 w -> derives (Alt r1 r2) w
| derives_Star_stop greedy r : derives (Star greedy r) []
| derives_Star_again greedy r w1 w2 :
    derives r w1 -> derives (Star greedy r) w2 -> derives (Star greedy r) (w1 ++ w2)
| derives_Grp i r w : derives r w -> derives (Grp i r) w
| derives_Bol : derives Bol []
| derives_Eol : derives Eol [].

End RegexSpec.

(** ** Shapes of cleaned values *)

Definition next_is_space (l : list ascii) : bool :=
  match l with
  | c :: _ => JsString.is_space c
  | [] => false
  end.

(** Every white-space character is a space, and no white space follows
    it. *)
Fixpoint single_spaced (l : list ascii) : bool :=
  match l with
  | [] => true
  | c :: t =>
      (if JsString.is_space c
       then JsString.is_char " " c && negb (next_is_space t)
       else true) && single_spaced t
  end.

(** The groups of an expression. *)
Fixpoint groups_of (r : Regex.regex) : list nat :=
  match r with
  | Regex.Grp i r1 => i :: groups_of r1
  | Regex.Seq r1 r2 | Regex.Alt r1 r2 => groups_of r1 ++ groups_of r2
  | Regex.Star _ r1 => groups_of r1
  | _ => []
  end.

(** ** [scrapeGoogleMaps]: the walk, then the enrichment

    The run in which the browser opens and the results load; a failure
    before that point is thrown on to the caller and yields no list. *)

Section Pipeline.
Variable fround : Q -> Q.
Variable URL_parse : string -> option (string * string).
Variable blacklist : Blacklist.
Variable goto : string -> option Page.
Variable feed : nat -> list Card.

(** The options: [filters] gathers [minRating], [minReviews],
    [filterByPriceLevel], [minPrice] and [maxPrice]. *)
Variable maxResults : Z.
Variable filters : Filters.
Variable findEmails : bool.
Variable extractBusinessHours : bool.

(** [batchFindEmails] writes into the records of [businesses], which is
    the array returned. *)
Definition scrapeGoogleMaps (fuel : nat) : option (list BusinessRecord) :=
  match extractBusinessListings fround URL_parse blacklist maxResults filters
          extractBusinessHours feed fuel with
  | Some businesses =>
      Some (if findEmails && (0 <? List.length businesses)%nat
            then batchFindEmails blacklist goto businesses
            else businesses)
  | None => None
  end.

End Pipeline.

(** * Properties *)

(** ** Strings *)

Module JsStringFacts.
Import JsString.

Lemma chars_str (l : list ascii) : chars (str l) = l.
Proof. apply list_ascii_of_string_of_list_ascii. Qed.

Lemma str_chars (s : string) : str (chars s) = s.
Proof. apply string_of_list_ascii_of_string. Qed.

Lemma or_null_Some (l : list ascii) (s : string) :
  or_null l = Some s -> l <> [] /\ s = str l.
Proof. destruct l; simpl; [discriminate|]. intros [= <-]. split; [discriminate|reflexivity]. Qed.

Lemma or_null_chars (l : list ascii) (s : string) :
  or_null l = Some s -> chars s = l /\ l <> [].
Proof. intros [Hl ->]%or_null_Some. split; [apply chars_str|exact Hl]. Qed.

Lemma truthy_str_Some (o : option string) (s : string) :
  truthy_str o = Some s -> o = Some s /\ chars s <> [].
Proof.
  destruct o as [t|]; simpl; [|discriminate].
  intros [Hne ->]%or_null_Some. rewrite str_chars. split; [reflexivity|exact Hne].
Qed.

Lemma truthy_str_None (o : option string) :
  truthy_str o = None -> o = None \/ o = Some ""%string.
Proof.
  destruct o as [t|]; simpl; [|auto].
  destruct t; simpl; [auto|discriminate].
Qed.

Lemma truthy_str_nonempty (s : string) :
  chars s <> [] -> truthy_str (Some s) = Some s.
Proof.
  intros Hne. simpl. rewrite <- (str_chars s) at 2.
  destruct (chars s); [congruence|reflexivity].
Qed.


Lemma span_app (p : ascii -> bool) (l : list ascii) :
  l = fst (span p l) ++ snd (span p l).
Proof.
  induction l as [|c t IH]; simpl; [reflexivity|].
  destruct (p c); [|reflexivity].
  destruct (span p t) as [a b]; simpl in *. now f_equal.
Qed.

Lemma span_all (p : ascii -> bool) (l : list ascii) :
  forallb p (fst (span p l)) = true.
Proof.
  induction l as [|c t IH]; simpl; [reflexivity|].
  destruct (p c) eqn:E; [|reflexivity].
  destruct (span p t) as [a b]; simpl in *. now rewrite E.
Qed.

Lemma span_stop (p : ascii -> bool) (l : list ascii) :
  match snd (span p l) with c :: _ => p c = false | [] => True end.
Proof.
  induction l as [|c t IH]; simpl; [exact I|].
  destruct (p c) eqn:E; [|exact E].
  destruct (span p t) as [a b]; simpl in *. exact IH.
Qed.

Lemma span_id (p : ascii -> bool) (l : list ascii) :
  forallb p l = true -> span p l = (l, []).
Proof.
  induction l as [|c t IH]; simpl; [reflexivity|].
  intros [Hc Ht]%andb_prop. rewrite Hc, (IH Ht). reflexivity.
Qed.

Lemma digit_not_space (c : ascii) : is_digit c = true -> is_space c = false.
Proof.
  unfold is_digit, is_space. intros [H1 H2]%andb_prop.
  apply Nat.leb_le in H1, H2.
  destruct (Nat.leb_spec 9 (code c)), (Nat.leb_spec (code c) 13), (Nat.eqb_spec (code c) 32);
    simpl; try reflexivity; lia.
Qed.

Lemma digit_not_sign (c : ascii) :
  is_digit c = true -> is_char "-" c = false /\ is_char "+" c = false.
Proof.
  unfold is_digit, is_char. intros [H1 H2]%andb_prop.
  apply Nat.leb_le in H1, H2. change (code "-") with 45%nat. change (code "+") with 43%nat.
  split; apply Nat.eqb_neq; lia.
Qed.

(** An integer up to [2^53] is read exactly. *)
Lemma to_double_small (n : Z) : (n <= 9007199254740992)%Z -> to_double n = n.
Proof.
  intros H. unfold to_double. destruct (Z.ltb_spec n 9007199254740992); [reflexivity|].
  replace n with 9007199254740992%Z by lia. reflexivity.
Qed.

Lemma to_double_nonneg (n : Z) : (0 <= n)%Z -> (0 <= to_double n)%Z.
Proof.
  intros H. unfold to_double. destruct (Z.ltb_spec n 9007199254740992); [exact H|].
  apply Z.shiftl_nonneg.
  assert (Hq : (0 <= Z.shiftr n (Z.log2 n - 52))%Z) by now apply Z.shiftr_nonneg.
  destruct (_ || _); lia.
Qed.

(** [parseInt] reads a run of digits as the double nearest to its value. *)
Lemma parseInt_digits (l : list ascii) :
  l <> [] -> forallb is_digit l = true -> parseInt l = Some (to_double (digits_val l)).
Proof.
  intros Hne Hall. destruct l as [|c t]; [congruence|].
  pose proof Hall as Hall'. simpl in Hall'. apply andb_prop in Hall' as [Hc Ht].
  unfold parseInt. simpl trimStart. rewrite (digit_not_space c Hc).
  unfold sign_split. destruct (digit_not_sign c Hc) as [-> ->].
  rewrite (span_id _ _ Hall). reflexivity.
Qed.

End JsStringFacts.
(** ** The matcher on a run of one character class *)

Module RegexFacts.
Import JsString Regex JsStringFacts.

Lemma star_iter_cls (p : ascii -> bool) (n : nat) (s : mstate) :
  List.length (rest s) <= n ->
  star_iter (rmatch (Cls p)) true Some n s = Some (run p s).
Proof.
  revert s. induction n as [|n IH]; intros [i l cs] Hn; simpl in *.
  - destruct l; simpl in *; [|lia]. unfold run; simpl. now rewrite Nat.add_0_r.
  - destruct l as [|c t]; simpl.
    + unfold run; simpl. now rewrite Nat.add_0_r.
    + destruct (p c) eqn:Hc; simpl.
      * destruct (Nat.ltb_spec i (S i)); [|lia].
        rewrite IH by (simpl in *; lia).
        unfold run; simpl. rewrite Hc. destruct (span p t) as [a b]; simpl.
        do 2 f_equal. lia.
      * unfold run; simpl. rewrite Hc. simpl. now rewrite Nat.add_0_r.
Qed.

Lemma match_here_plus (p : ascii -> bool) (i : nat) (l : list ascii) :
  match_here (Plus (Cls p)) i l =
  match fst (span p l) with
  | [] => None
  | a => Some {| pos := i + List.length a; rest := snd (span p l); caps := [] |}
  end.
Proof.
  unfold match_here, Plus. cbn [rmatch start_at rest].
  destruct l as [|c t]; cbn [span fst]; [reflexivity|].
  destruct (p c) eqn:Hc; cbn [fst]; [|reflexivity].
  etransitivity; [apply (star_iter_cls p); simpl; lia|].
  unfold run; simpl. destruct (span p t) as [a b]; simpl.
  do 2 f_equal. lia.
Qed.

(** Every match a scan reports was found by an attempt at its index. *)
Lemma scan_found (r : regex) (f : found) (l : list ascii) (i skip : nat) :
  In f (scan r i skip l) ->
  exists j l' m, match_here r j l' = Some m /\ f = found_of j l' m.
Proof.
  revert i skip. induction l as [|c t IH]; intros i skip; simpl.
  - destruct skip; simpl; [|tauto].
    destruct (match_here r i []) as [m|] eqn:E; simpl; [|tauto].
    intros [<-|[]]. eauto.
  - destruct skip; simpl; [|apply IH].
    destruct (match_here r i (c :: t)) as [m|] eqn:E; simpl.
    + intros [<-|H]; [eauto|]. eapply IH, H.
    + apply IH.
Qed.

(** A match of [\d+] is a non-empty run of digits, which [parseInt] reads
    whole. *)
Lemma digits_match (m : list ascii) (l : list ascii) :
  In m (match_all Patterns.digitsRegex l) ->
  m <> [] /\ forallb is_digit m = true.
Proof.
  unfold match_all. intros (f & <- & Hf)%in_map_iff.
  apply scan_found in Hf as (j & l' & st & Hm & ->).
  unfold Patterns.digitsRegex, Patterns.digit in Hm. rewrite match_here_plus in Hm.
  pose proof (span_all is_digit l') as Hall. pose proof (span_app is_digit l') as Happ.
  destruct (span is_digit l') as [a b]; simpl in *.
  destruct a as [|c a']; [discriminate|]. injection Hm as <-.
  unfold found_of; simpl.
  replace (j + S (List.length a') - j) with (S (List.length a')) by lia.
  rewrite Happ. simpl. rewrite firstn_app, firstn_all, Nat.sub_diag. simpl.
  rewrite app_nil_r. split; [discriminate|exact Hall].
Qed.

Lemma digits_match_parseInt (m : list ascii) (l : list ascii) :
  In m (match_all Patterns.digitsRegex l) -> parseInt m = Some (to_double (digits_val m)).
Proof. intros [Hne Hall]%digits_match. now apply parseInt_digits. Qed.

End RegexFacts.

(** ** Addresses and sets *)

Module EmailFacts.
Import JsString Regex Patterns JsStringFacts.

Lemma lower_idem (c : ascii) : lower (lower c) = lower c.
Proof. destruct c as [[] [] [] [] [] [] [] []]; reflexivity. Qed.

Lemma toLowerCase_idem (l : list ascii) : toLowerCase (toLowerCase l) = toLowerCase l.
Proof.
  unfold toLowerCase. rewrite map_map. apply map_ext. intros c. apply lower_idem.
Qed.

Lemma existsb_false {A} (f : A -> bool) (l : list A) (x : A) :
  existsb f l = false -> x ∈ l -> f x = false.
Proof.
  intros E Hx%list_elem_of_In. destruct (f x) eqn:Hf; [|reflexivity].
  assert (existsb f l = true) by (apply existsb_exists; eauto). congruence.
Qed.

Lemma validateEmail_Some (bl : Blacklist) (email e : string) :
  validateEmail bl email = Some e ->
  chars e = toLowerCase (trim (chars email)) /\ acceptable bl e.
Proof.
  unfold validateEmail. destruct (chars email) as [|c t] eqn:Ec; [discriminate|].
  set (trimmed := toLowerCase (trim (c :: t))).
  destruct (existsb _ (domains bl)) eqn:Hd; [discriminate|].
  destruct (existsb _ (patterns bl)) eqn:Hp; [discriminate|].
  destruct (test emailRegex trimmed) eqn:Hs; [|discriminate].
  intros [= <-]. unfold acceptable. rewrite !chars_str.
  split; [reflexivity|]. repeat split.
  - intros d Hin. unfold trimmed at 1. rewrite toLowerCase_idem.
    apply (existsb_false _ _ d Hd Hin).
  - intros p Hin. apply (existsb_false _ _ p Hp Hin).
  - exact Hs.
Qed.

Lemma omap_validateEmail (bl : Blacklist) (l : list string) (e : string) :
  e ∈ omap (validateEmail bl) l -> acceptable bl e.
Proof.
  intros (x & _ & Hx)%list_elem_of_omap. now apply validateEmail_Some in Hx.
Qed.

(** The insertion order of a [Set] is the order of first occurrence. *)
Lemma add_all_first_occurrences (l s : list string) :
  JsSet.add_all l s = s ++ filter (fun y => y ∉ s) (first_occurrences l).
Proof.
  revert s. induction l as [|x t IH]; intros s; simpl.
  - now rewrite app_nil_r.
  - unfold JsSet.add_all in *. simpl. rewrite IH. unfold JsSet.add.
    case_bool_decide as Hx.
    + rewrite filter_cons_False by (intros Hn; now apply Hn).
      rewrite list_filter_filter. f_equal. apply list_filter_iff.
      intros y. split; [|tauto]. intros Hy. split; [exact Hy|]. intros ->. now apply Hy.
    + rewrite filter_cons_True by exact Hx.
      rewrite <- app_assoc. simpl. do 2 f_equal.
      rewrite list_filter_filter. apply list_filter_iff.
      intros y. rewrite not_elem_of_app, list_elem_of_singleton. tauto.
Qed.

Lemma of_list_first_occurrences (l : list string) :
  JsSet.of_list l = first_occurrences l.
Proof.
  unfold JsSet.of_list. rewrite add_all_first_occurrences. simpl.
  induction (first_occurrences l) as [|x t IH]; [reflexivity|].
  rewrite filter_cons_True by apply not_elem_of_nil. now f_equal.
Qed.

Lemma first_occurrences_elem (l : list string) (e : string) :
  e ∈ first_occurrences l <-> e ∈ l.
Proof.
  induction l as [|x t IH]; simpl; [reflexivity|].
  rewrite !elem_of_cons, list_elem_of_filter, IH.
  destruct (decide (e = x)); tauto.
Qed.

Lemma first_occurrences_NoDup (l : list string) : NoDup (first_occurrences l).
Proof.
  induction l as [|x t IH]; simpl; [constructor|].
  constructor; [|now apply NoDup_filter].
  rewrite list_elem_of_filter. tauto.
Qed.

Lemma extractEmailsFromHTML_eq (bl : Blacklist) (html : string) :
  extractEmailsFromHTML bl html =
  first_occurrences
    (omap (validateEmail bl) (map str (match_all emailPattern (chars html)))).
Proof.
  unfold extractEmailsFromHTML. destruct (chars html) as [|c t] eqn:E.
  - reflexivity.
  - apply of_list_first_occurrences.
Qed.

End EmailFacts.

(** ** The validator, field by field *)

Module ValidatorFacts.
Import JsString Regex Patterns JsStringFacts.

Section Fields.
Variable fround : Q -> Q.
Variable URL_parse : string -> option (string * string).
Variable blacklist : Blacklist.

(** What a returning call of [validateBusinessData] returns: never [null],
    and field by field what the object literal says. *)
Lemma validated_fields (raw : RawData) (ob : option BusinessRecord) :
  validateBusinessData fround URL_parse blacklist raw = Normal ob ->
  exists b, ob = Some b /\
    businessName b = cleanString (raw_businessName raw) /\
    address b = cleanString (opt_value (raw_address raw)) /\
    phone b = cleanPhone (raw_phone raw) /\
    website b = validateUrl URL_parse (raw_website raw) /\
    parseRating fround (raw_rating raw) = Normal (rating b) /\
    parseReviewCount (raw_reviewCount raw) = Normal (reviewCount b) /\
    category b = cleanString (opt_value (raw_category raw)) /\
    priceLevel b = truthy_str (raw_priceLevel raw) /\
    priceRange b = truthy_str (raw_priceRange raw) /\
    googleMapsUrl b = validateUrl URL_parse (raw_googleMapsUrl raw) /\
    (latitude b, longitude b) = parseCoordinates fround (raw_googleMapsUrl raw) /\
    businessHours b = validateBusinessHours (raw_businessHours raw) /\
    emails b = match raw_emails raw with
               | Some l => omap (validateEmail blacklist) l
               | None => []
               end /\
    emailSource b = default "not_found"%string (truthy_str (raw_emailSource raw)) /\
    country b = ap_country (parseAddress (raw_address raw)).
Proof.
  unfold validateBusinessData.
  destruct (parseCoordinates fround (raw_googleMapsUrl raw)) as [la lo].
  destruct (parseRating fround (raw_rating raw)) as [r|]; [|discriminate].
  destruct (parseReviewCount (raw_reviewCount raw)) as [n|]; [|discriminate].
  cbn. intros [= <-]. eexists. split; [reflexivity|]. cbn. repeat split.
Qed.

Lemma coordinates_of_range (r : regex) (u : list ascii) (la lo : Q) :
  coordinates_of fround r u = Some (la, lo) ->
  (-90 <= la <= 90)%Q /\ (-180 <= lo <= 180)%Q.
Proof.
  unfold coordinates_of. destruct (exec r u) as [m|]; [|discriminate].
  destruct (parseFloat fround (default [] (group 1 m))) as [x|]; [|discriminate].
  destruct (parseFloat fround (default [] (group 2 m))) as [y|];
    [|cbn; rewrite andb_false_r; discriminate].
  cbn. destruct (_ && _) eqn:E; [|discriminate]. intros [= <- <-].
  rewrite !andb_true_iff, !Qle_bool_iff in E. tauto.
Qed.

End Fields.
End ValidatorFacts.

(** ** White space *)

Module TrimFacts.
Import JsString JsStringFacts.

Lemma trimStart_head (l : list ascii) (c : ascii) (t : list ascii) :
  trimStart l = c :: t -> is_space c = false.
Proof.
  induction l as [|a l IH]; simpl; [discriminate|].
  destruct (is_space a) eqn:E; [exact IH|]. intros [= <- <-]. exact E.
Qed.

Lemma trimStart_fix (c : ascii) (t : list ascii) :
  is_space c = false -> trimStart (c :: t) = c :: t.
Proof. intros E. simpl. now rewrite E. Qed.

Lemma trimStart_idem (l : list ascii) : trimStart (trimStart l) = trimStart l.
Proof.
  destruct (trimStart l) as [|c t] eqn:E; [reflexivity|].
  apply trimStart_fix. eapply trimStart_head, E.
Qed.

Lemma trimStart_suffix (l : list ascii) : exists p, l = p ++ trimStart l.
Proof.
  induction l as [|a l [p IH]]; simpl; [now exists []|].
  destruct (is_space a); [|now exists []].
  exists (a :: p). simpl. now f_equal.
Qed.

Lemma trim_trimmed (l : list ascii) : trimmed (trim l).
Proof.
  unfold trimmed, trim, trimEnd. rewrite rev_involutive.
  split; [|apply trimStart_idem].
  destruct (trimStart (rev (trimStart l))) as [|b bs] eqn:Eb; [reflexivity|].
  destruct (trimStart_suffix (rev (trimStart l))) as [p Hp]. rewrite Eb in Hp.
  apply (f_equal (@rev ascii)) in Hp. rewrite rev_involutive, rev_app_distr in Hp.
  destruct (rev (b :: bs)) as [|c t] eqn:Er.
  { apply (f_equal (@List.length ascii)) in Er. rewrite length_rev in Er. discriminate. }
  simpl in Hp. apply trimStart_fix. eapply trimStart_head, Hp.
Qed.

Lemma trimmed_trim (l : list ascii) : trimmed l -> trim l = l.
Proof.
  intros [H1 H2]. unfold trim, trimEnd. rewrite H1, H2. apply rev_involutive.
Qed.


End TrimFacts.

(** ** The listing walk *)

Module WalkFacts.
Import JsString JsStringFacts.

Section Walk.
Variable fround : Q -> Q.
Variable URL_parse : string -> option (string * string).
Variable blacklist : Blacklist.
Variable maxResults : Z.
Variable filters : Filters.
Variable flag : bool.

Local Abbreviation Visit := (visit fround URL_parse blacklist filters flag).
Local Abbreviation VisitAll := (visit_all fround URL_parse blacklist maxResults filters flag).
Local Abbreviation Accepted := (accepted fround URL_parse blacklist filters flag).
Local Abbreviation BelowCap := (below_cap maxResults).
Local Abbreviation Turn := (turn fround URL_parse blacklist maxResults filters flag).
Local Abbreviation Cap := (cap maxResults).

Lemma extract_unseen (card : Card) (seen : gset string) :
  unseen card seen ->
  extractBusinessData card seen flag =
  (raw_of flag card,
   match card_url card with Some u => {[u]} ∪ seen | None => seen end).
Proof.
  unfold unseen, raw_of, card_url, extractBusinessData. intros Hu.
  destruct (truthy_str (href card)) as [u|]; [|reflexivity].
  rewrite bool_decide_eq_false_2 by now apply Hu.
  rewrite bool_decide_eq_false_2 by apply not_elem_of_empty.
  destruct (panel card) as [view|]; [|reflexivity].
  destruct (truthy_str (dv_businessName view)); reflexivity.
Qed.

Lemma visit_unseen (card : Card) (w : Walk) :
  unseen card (seenUrls w) ->
  businesses (Visit card w) = businesses w ++ Accepted card /\
  seenUrls (Visit card w) =
    match card_url card with Some u => {[u]} ∪ seenUrls w | None => seenUrls w end.
Proof.
  intros Hu. unfold visit, accepted.
  rewrite (extract_unseen _ _ Hu).
  destruct (raw_of flag card) as [raw|]; [|cbn; now rewrite app_nil_r].
  destruct (validateBusinessData _ _ _ raw) as [[b|]|]; cbn;
    try (now rewrite app_nil_r).
  destruct (meetsFilterCriteria b filters); cbn; [easy|now rewrite app_nil_r].
Qed.

(** The counters of the [while] loop are out of the reach of a visit. *)
Lemma visit_counters (card : Card) (w : Walk) :
  previousCount (Visit card w) = previousCount w /\
  noNewResultsCount (Visit card w) = noNewResultsCount w.
Proof.
  unfold visit.
  destruct (extractBusinessData card (seenUrls w) flag) as [[raw|] seen]; cbn; [|easy].
  destruct (validateBusinessData _ _ _ raw) as [[b|]|]; cbn; try easy.
  destruct (meetsFilterCriteria b filters); easy.
Qed.

Lemma visit_all_counters (cards : list Card) (w : Walk) :
  previousCount (VisitAll cards w) = previousCount w /\
  noNewResultsCount (VisitAll cards w) = noNewResultsCount w.
Proof.
  revert w. induction cards as [|c cards IH]; intros w; simpl; [easy|].
  destruct (BelowCap w); [|easy].
  destruct (IH (Visit c w)) as [-> ->]. apply visit_counters.
Qed.

Lemma visit_all_nil_or_capped (cards : list Card) (w : Walk) :
  BelowCap w = false -> VisitAll cards w = w.
Proof. intros H. destruct cards; simpl; [reflexivity|now rewrite H]. Qed.

Lemma below_cap_lt (w : Walk) :
  BelowCap w = true <-> (List.length (businesses w) < Cap)%nat.
Proof. unfold below_cap, cap. rewrite Z.ltb_lt. lia. Qed.

Lemma accepted_length (card : Card) : (List.length (Accepted card) <= 1)%nat.
Proof.
  unfold accepted. destruct (raw_of flag card) as [raw|]; [|simpl; lia].
  destruct (validateBusinessData _ _ _ raw) as [[b|]|]; simpl; try lia.
  destruct (meetsFilterCriteria b filters); simpl; lia.
Qed.

(** A page of distinct cards, none of them seen before: the [for] loop
    appends what the cards contribute, in their order, up to the cap. *)
Lemma visit_all_unseen (cards : list Card) (w : Walk) :
  NoDup (map href cards) ->
  (forall c, c ∈ cards -> unseen c (seenUrls w)) ->
  (List.length (businesses w) <= Cap)%nat ->
  businesses (VisitAll cards w) =
  take Cap (businesses w ++ flat_map Accepted cards).
Proof.
  revert w. induction cards as [|c cards IH]; intros w Hnd Hun Hlen.
  - simpl. rewrite app_nil_r, take_ge by exact Hlen. reflexivity.
  - cbn [visit_all]. destruct (BelowCap w) eqn:Hb.
    + apply below_cap_lt in Hb.
      destruct (visit_unseen c w (Hun c (list_elem_of_here _ _))) as [Hbus Hseen].
      simpl in Hnd. apply NoDup_cons in Hnd as [Hc Hnd].
      rewrite IH.
      * rewrite Hbus. cbn [flat_map]. now rewrite app_assoc.
      * exact Hnd.
      * intros c' Hc' u Hu. rewrite Hseen.
        assert (Hold := Hun c' (list_elem_of_further _ _ _ Hc') u Hu).
        destruct (card_url c) as [v|] eqn:Ev; [|exact Hold].
        apply not_elem_of_union. split; [|exact Hold].
        rewrite elem_of_singleton. intros ->. apply Hc.
        unfold card_url in *. apply truthy_str_Some in Ev as [Ev _].
        apply truthy_str_Some in Hu as [Hu _]. rewrite Ev, <- Hu.
        now apply list_elem_of_fmap_2.
      * rewrite Hbus, length_app. pose proof (accepted_length c). lia.
    + assert (List.length (businesses w) = Cap) as Hcap.
      { destruct (Nat.lt_ge_cases (List.length (businesses w)) Cap) as [Hlt|]; [|lia].
        apply below_cap_lt in Hlt. congruence. }
      rewrite take_app_le by lia. rewrite take_ge by lia. reflexivity.
Qed.

(** A turn on a page that has not grown visits nothing. *)
Lemma turn_stalled (links : list Card) (w : Walk) :
  List.length links = previousCount w ->
  Turn links w =
  (if (3 <=? S (noNewResultsCount w))%nat
   then {| businesses := businesses w; seenUrls := seenUrls w;
           previousCount := previousCount w;
           noNewResultsCount := S (noNewResultsCount w);
           firstDebugDone := firstDebugDone w |}
   else {| businesses := businesses w; seenUrls := seenUrls w;
           previousCount := previousCount w;
           noNewResultsCount := S (noNewResultsCount w);
           firstDebugDone := firstDebugDone w |},
   (3 <=? S (noNewResultsCount w))%nat || negb (BelowCap w)).
Proof.
  intros Hlen. unfold turn.
  rewrite drop_ge by lia. cbn [visit_all]. rewrite Hlen, Nat.eqb_refl. cbn [andb].
  destruct (3 <=? S (noNewResultsCount w))%nat; reflexivity.
Qed.

(** The counters after any turn. *)
Lemma turn_counters (links : list Card) (w : Walk) :
  noNewResultsCount (fst (Turn links w)) =
    (if (List.length links =? previousCount w)%nat
     then S (noNewResultsCount w) else 0%nat) /\
  (snd (Turn links w) = false ->
   previousCount (fst (Turn links w)) = List.length links).
Proof.
  unfold turn.
  destruct (visit_all_counters (drop (previousCount w) links) w) as [-> ->].
  destruct (List.length links =? previousCount w)%nat eqn:E; cbn [andb].
  - destruct (3 <=? S (noNewResultsCount w))%nat; cbn; [split; [reflexivity|discriminate]|easy].
  - cbn. easy.
Qed.


End Walk.

Section Termination.
Variable fround : Q -> Q.
Variable URL_parse : string -> option (string * string).
Variable blacklist : Blacklist.
Variable maxResults : Z.
Variable filters : Filters.
Variable flag : bool.
Variable feed : nat -> list Card.

Local Abbreviation BelowCap := (below_cap maxResults).
Local Abbreviation Turn := (turn fround URL_parse blacklist maxResults filters flag).
Local Abbreviation WalkFrom :=
  (walk_from fround URL_parse blacklist maxResults filters flag feed).

Local Abbreviation halts :=
  (leaves_loop fround URL_parse blacklist maxResults filters flag feed).






(** Three turns in a row on a page that has not grown: the loop is left at
    the third at the latest. *)
Lemma three_stalls (i : nat) (w : Walk) :
  List.length (feed i) = previousCount w ->
  List.length (feed (S i)) = previousCount w ->
  List.length (feed (S (S i))) = previousCount w ->
  exists w', WalkFrom 3 i w = Some w' /\ businesses w' = businesses w.
Proof.
  intros E0 E1 E2. cbn [walk_from].
  destruct (BelowCap w) eqn:Hb; [|now exists w].
  rewrite (turn_stalled _ _ _ _ _ _ _ _ E0), Hb. cbn [negb orb].
  destruct (3 <=? S (noNewResultsCount w))%nat eqn:L0; [eexists; split; [reflexivity|reflexivity]|].
  cbn [orb]. unfold below_cap at 1. cbn [businesses]. fold (BelowCap w). rewrite Hb.
  rewrite turn_stalled by exact E1. cbn [noNewResultsCount negb orb].
  unfold below_cap at 1. cbn [businesses]. fold (BelowCap w). rewrite Hb. cbn [negb orb].
  destruct (3 <=? S (S (noNewResultsCount w)))%nat eqn:L1; [eexists; split; reflexivity|].
  cbn [orb]. unfold below_cap at 1. cbn [businesses]. fold (BelowCap w). rewrite Hb.
  rewrite turn_stalled by exact E2. cbn [noNewResultsCount negb orb].
  apply Nat.leb_gt in L1.
  destruct (Nat.leb_spec 3 (S (S (S (noNewResultsCount w))))); [|lia].
  eexists; split; reflexivity.
Qed.

End Termination.
End WalkFacts.

(** ** Normal forms of the cleaners *)

Module CleanFacts.
Import JsString Regex Patterns JsStringFacts RegexFacts TrimFacts.

(** Passing over the characters of a match. *)
Lemma replace_from_skip (r : regex) (by_ : list ascii) (k : nat) :
  forall (l : list ascii) (i : nat),
    (k <= List.length l)%nat ->
    replace_from r by_ i k l = replace_from r by_ (i + k) 0 (drop k l).
Proof.
  induction k as [|k IH]; intros l i Hk.
  - now rewrite Nat.add_0_r, drop_0.
  - destruct l as [|c t]; [simpl in Hk; lia|].
    cbn [replace_from drop]. rewrite IH by (simpl in Hk; lia).
    f_equal. lia.
Qed.

Lemma collapse_inside (l : list ascii) :
  collapse true l = collapse false (snd (span is_space l)).
Proof.
  induction l as [|c t IH]; simpl; [reflexivity|].
  destruct (is_space c) eqn:E.
  - rewrite IH. destruct (span is_space t); reflexivity.
  - simpl. now rewrite E.
Qed.

Lemma span_length (p : ascii -> bool) (l : list ascii) :
  (List.length (snd (span p l)) <= List.length l)%nat /\
  snd (span p l) = drop (List.length (fst (span p l))) l.
Proof.
  induction l as [|c t [IH1 IH2]]; simpl; [split; [lia|reflexivity]|].
  destruct (p c); [|simpl; split; [lia|reflexivity]].
  destruct (span p t) as [a b]; simpl in *. split; [lia|exact IH2].
Qed.

(** [replace(/\s+/g, ' ')] *)
Lemma replace_spaces (l : list ascii) :
  replace_all spaces [" "%char] l = collapse false l.
Proof.
  unfold replace_all.
  enough (H : forall i, replace_from spaces [" "%char] i 0 l = collapse false l) by apply H.
  induction l as [l IH] using (induction_ltof1 _ (@List.length ascii)).
  unfold ltof in IH. intros i. destruct l as [|c t].
  - reflexivity.
  - cbn [replace_from]. unfold spaces, space. rewrite match_here_plus.
    cbn [span collapse]. destruct (is_space c) eqn:E.
    + destruct (span_length is_space t) as [Hlen Hdrop].
      destruct (span is_space t) as [a b] eqn:Es. cbn [fst snd] in *.
      cbn [List.length pos]. 
      replace (i + S (List.length a) =? i)%nat with false
        by (symmetry; apply Nat.eqb_neq; lia).
      replace (i + S (List.length a) - i - 1)%nat with (List.length a) by lia.
      assert (List.length a <= List.length t)%nat.
      { rewrite (span_app is_space t), Es. cbn. rewrite length_app. lia. }
      rewrite replace_from_skip by assumption. rewrite <- Hdrop.
      cbn [app]. f_equal. rewrite collapse_inside, Es. cbn [snd].
      apply IH. simpl. lia.
    + cbn [fst]. f_equal. apply IH. simpl. lia.
Qed.

(** [replace(r, '')] for a one-character class [r] drops its characters. *)
Lemma replace_class (p : ascii -> bool) (l : list ascii) :
  replace_all (Cls p) [] l = filter (fun c => p c = false) l.
Proof.
  unfold replace_all.
  enough (H : forall i, replace_from (Cls p) [] i 0 l = filter (fun c => p c = false) l)
    by apply H.
  induction l as [|c t IH]; intros i; [reflexivity|].
  cbn [replace_from]. unfold match_here. cbn [rmatch start_at rest].
  destruct (p c) eqn:E.
  - cbn [advance pos app start_at]. rewrite filter_cons_False by congruence.
    replace (S i =? i)%nat with false by (symmetry; apply Nat.eqb_neq; lia).
    replace (S i - i - 1)%nat with 0%nat by lia. apply IH.
  - rewrite filter_cons_True by exact E. f_equal. apply IH.
Qed.


Lemma collapse_snoc (inside : bool) (l : list ascii) (c : ascii) :
  is_space c = false -> collapse inside (l ++ [c]) = collapse inside l ++ [c].
Proof.
  intros E. revert inside. induction l as [|a l IH]; intros inside; simpl.
  - now rewrite E.
  - destruct (is_space a); [destruct inside|]; simpl; now rewrite IH.
Qed.

Lemma trimmed_collapse (l : list ascii) : trimmed l -> trimmed (collapse false l).
Proof.
  intros [H1 H2]. destruct l as [|c t]; [split; reflexivity|].
  assert (Hc : is_space c = false) by (eapply trimStart_head, H1).
  split.
  - simpl. rewrite Hc. simpl. now rewrite Hc.
  - destruct (rev (c :: t)) as [|z zs] eqn:Er.
    { apply (f_equal (@List.length ascii)) in Er. rewrite length_rev in Er. discriminate. }
    assert (Hz : is_space z = false) by (eapply trimStart_head, H2).
    apply (f_equal (@rev ascii)) in Er. rewrite rev_involutive in Er. simpl in Er.
    rewrite Er, collapse_snoc by exact Hz. rewrite rev_app_distr. simpl. now rewrite Hz.
Qed.

(** The normal form of [cleanString] is a fixed point of it. *)
Lemma cleanString_chars (v : value) (s : string) :
  cleanString v = Some s ->
  exists l, chars s = collapse false (trim l) /\ chars s <> [].
Proof.
  destruct v as [|t|q]; simpl; try discriminate.
  destruct (chars t) as [|c l] eqn:E; [discriminate|].
  rewrite replace_spaces. intros [Hne ->]%or_null_Some. rewrite chars_str. eauto.
Qed.



End CleanFacts.

(** ** Fixed points of the normalisers *)

Module IdempotenceFacts.
Import JsString Regex Patterns JsStringFacts RegexFacts TrimFacts CleanFacts EmailFacts.


Lemma filter_fix {A} (P : A -> Prop) `{forall x, Decision (P x)} (l : list A) :
  Forall P l -> filter P l = l.
Proof.
  induction 1 as [|x l Hx Hl IH]; [reflexivity|].
  rewrite filter_cons_True by exact Hx. now f_equal.
Qed.












End IdempotenceFacts.

(** ** The filter *)

Module FilterFacts.
Import JsString Regex Patterns JsStringFacts RegexFacts.

Lemma meetsFilterCriteria_and (b : BusinessRecord) (f : Filters) :
  meetsFilterCriteria b f =
  rating_ok b f && reviews_ok b f && priceLevel_ok b f && priceRange_ok b f.
Proof.
  unfold meetsFilterCriteria.
  destruct (rating_ok b f), (reviews_ok b f), (priceLevel_ok b f), (priceRange_ok b f);
    reflexivity.
Qed.

Lemma priceRange_ok_off (b : BusinessRecord) (f : Filters) :
  priceRange_ok b (without_price_filter f) = true.
Proof. reflexivity. Qed.

Lemma priceLevel_ok_off (b : BusinessRecord) (f : Filters) :
  priceLevel_ok b (without_level_filter f) = true.
Proof. reflexivity. Qed.

Lemma rating_ok_off (b : BusinessRecord) (f : Filters) :
  rating_ok b (without_rating_filter f) = true.
Proof. unfold rating_ok. destruct (rating b); reflexivity. Qed.

Lemma reviews_ok_off (b : BusinessRecord) (f : Filters) :
  reviews_ok b (without_reviews_filter f) = true.
Proof. reflexivity. Qed.

(** The first digit group is always a number. *)
Lemma first_price_Some (range : string) (first : list ascii) (others : list (list ascii)) :
  match_all digitsRegex (chars range) = first :: others ->
  first_price range = Some (to_double (digits_val first)) /\ chars range <> [].
Proof.
  intros E. unfold first_price. rewrite E. split.
  - apply (digits_match_parseInt first (chars range)). rewrite E. now left.
  - intros Hnil. rewrite Hnil in E. discriminate.
Qed.

(** The price check when only a maximum is set and the text has a digit
    group: the two branches that compare, and the one that does not. *)
Lemma priceRange_ok_max (b : BusinessRecord) (f : Filters) (range : string) (n : Z) :
  priceRange b = Some range ->
  first_price range = Some n ->
  Qltb 0 (minPrice f) = false ->
  Qltb 0 (maxPrice f) = true ->
  priceRange_ok b f =
  if has_plus range || (price_groups range =? 2)%nat
  then Qle_bool (inject_Z n) (maxPrice f) else true.
Proof.
  intros Hr Hn Hmin Hmax. unfold priceRange_ok, first_price, has_plus, price_groups in *.
  rewrite Hr, Hmin, Hmax. simpl orb.
  destruct (match_all digitsRegex (chars range)) as [|first others] eqn:E; [discriminate|].
  assert (Hne : chars range <> []) by (intros Hnil; rewrite Hnil in E; discriminate).
  rewrite (truthy_str_nonempty _ Hne), E, Hn. cbn [andb].
  unfold Qltb. rewrite negb_involutive.
  change (chars "+") with ["+"%char].
  destruct (includes ["+"%char] (chars range)); [reflexivity|].
  cbn [orb]. destruct (List.length (first :: others) =? 2)%nat; reflexivity.
Qed.

End FilterFacts.

Import JsString Regex Patterns JsStringFacts RegexFacts FilterFacts.

(** With every threshold at [0] and no price level listed, everything
    passes. *)
Lemma no_filter_passes (b : BusinessRecord) (f : Filters) :
  meetsFilterCriteria b
    (without_rating_filter (without_reviews_filter
       (without_level_filter (without_price_filter f)))) = true.
Proof.
  rewrite meetsFilterCriteria_and. unfold rating_ok, reviews_ok, priceLevel_ok, priceRange_ok.
  cbn. destruct (rating b); reflexivity.
Qed.

(** C10.  The rating and review-count checks of [meetsFilterCriteria] compare
    only a truthy field.  A record whose rating is [null] passes a filter
    made of any [minRating], and under any filter fares as it does with the
    rating filter off; a record whose review count is [0] passes a filter
    made of any [minReviews], and fares as it does with the review filter
    off. *)
Theorem C10_null_rating_and_zero_reviews_pass (b : BusinessRecord) (f : Filters) :
  (rating b = None ->
   (forall q, meetsFilterCriteria b (only_minRating q) = true) /\
   meetsFilterCriteria b f = meetsFilterCriteria b (without_rating_filter f)) /\
  (reviewCount b = 0%Z ->
   (forall q, meetsFilterCriteria b (only_minReviews q) = true) /\
   meetsFilterCriteria b f = meetsFilterCriteria b (without_reviews_filter f)).
Proof.
  assert (Hrating : forall g, rating b = None ->
            meetsFilterCriteria b g = meetsFilterCriteria b (without_rating_filter g)).
  { intros g H. rewrite !meetsFilterCriteria_and, rating_ok_off.
    unfold rating_ok. rewrite H. reflexivity. }
  assert (Hreviews : forall g, reviewCount b = 0%Z ->
            meetsFilterCriteria b g = meetsFilterCriteria b (without_reviews_filter g)).
  { intros g H. rewrite !meetsFilterCriteria_and, reviews_ok_off.
    unfold reviews_ok at 1. rewrite H. rewrite andb_false_r. reflexivity. }
  split; intros H; (split; [intros q|auto]).
  - rewrite (Hrating _ H). apply (no_filter_passes b (only_minRating q)).
  - rewrite (Hreviews _ H). apply (no_filter_passes b (only_minReviews q)).
Qed.

Lemma Qltb_true (x y : Q) : Qltb x y = true <-> (x < y)%Q.
Proof.
  unfold Qltb. rewrite negb_true_iff, <- not_true_iff_false, Qle_bool_iff.
  split; [apply Qnot_le_lt|apply Qlt_not_le].
Qed.

Lemma Qltb_false (x y : Q) : Qltb x y = false <-> (y <= x)%Q.
Proof. unfold Qltb. rewrite negb_false_iff. apply Qle_bool_iff. Qed.

Lemma max_only_iff (b : BusinessRecord) (f : Filters) (range : string) (n : Z) :
  priceRange b = Some range ->
  first_price range = Some n ->
  has_plus range || (price_groups range =? 2)%nat = true ->
  (minPrice f <= 0)%Q -> (0 < maxPrice f)%Q ->
  (meetsFilterCriteria b f = true <->
   (inject_Z n <= maxPrice f)%Q /\
   meetsFilterCriteria b (without_price_filter f) = true).
Proof.
  intros Hr Hn Hcmp Hmin%Qltb_false Hmax%Qltb_true.
  rewrite !meetsFilterCriteria_and, priceRange_ok_off, andb_true_r.
  rewrite (priceRange_ok_max b f range n Hr Hn Hmin Hmax), Hcmp.
  rewrite andb_true_iff, Qle_bool_iff. tauto.
Qed.

(** C4, in the form that holds of the code.  The sparse price fields pass
    when absent.  (a) A record without a price range passes a filter made of
    any price bounds, and under any filter fares as with the price bounds off.
    (b) With only a positive [maxPrice] set, a range text that contains [+]
    passes exactly when the number [parseInt] reads from its first digit
    group is at most [maxPrice]; that number is a double, so it is the value
    of the group as long as the value is at most [2^53], and for such a group
    the text passes exactly when the value of the group is at most
    [maxPrice].  (c) The same holds of a text without [+] that has two digit
    groups, whatever the second.  (d) A record without a price level passes a
    filter made of any list of levels, and fares as with the level filter
    off. *)
Theorem C4_price_filters_pass_when_absent (b : BusinessRecord) (f : Filters) :
  (priceRange b = None ->
   (forall lo hi, meetsFilterCriteria b (only_price lo hi) = true) /\
   meetsFilterCriteria b f = meetsFilterCriteria b (without_price_filter f)) /\
  (forall range first others,
     priceRange b = Some range ->
     match_all digitsRegex (chars range) = first :: others ->
     has_plus range = true ->
     (minPrice f <= 0)%Q -> (0 < maxPrice f)%Q ->
     (meetsFilterCriteria b f = true <->
      (inject_Z (to_double (digits_val first)) <= maxPrice f)%Q /\
      meetsFilterCriteria b (without_price_filter f) = true) /\
     ((digits_val first <= 9007199254740992)%Z ->
      (meetsFilterCriteria b f = true <->
       (inject_Z (digits_val first) <= maxPrice f)%Q /\
       meetsFilterCriteria b (without_price_filter f) = true))) /\
  (forall range lower upper,
     priceRange b = Some range ->
     match_all digitsRegex (chars range) = [lower; upper] ->
     has_plus range = false ->
     (minPrice f <= 0)%Q -> (0 < maxPrice f)%Q ->
     (meetsFilterCriteria b f = true <->
      (inject_Z (to_double (digits_val lower)) <= maxPrice f)%Q /\
      meetsFilterCriteria b (without_price_filter f) = true) /\
     ((digits_val lower <= 9007199254740992)%Z ->
      (meetsFilterCriteria b f = true <->
       (inject_Z (digits_val lower) <= maxPrice f)%Q /\
       meetsFilterCriteria b (without_price_filter f) = true))) /\
  (priceLevel b = None ->
   (forall levels, meetsFilterCriteria b (only_levels levels) = true) /\
   meetsFilterCriteria b f = meetsFilterCriteria b (without_level_filter f)).
Proof.
  assert (Hprice : forall g, priceRange b = None ->
            meetsFilterCriteria b g = meetsFilterCriteria b (without_price_filter g)).
  { intros g H. rewrite !meetsFilterCriteria_and, priceRange_ok_off.
    unfold priceRange_ok. rewrite H. cbn [truthy_str].
    destruct (_ || _); reflexivity. }
  assert (Hlevel : forall g, priceLevel b = None ->
            meetsFilterCriteria b g = meetsFilterCriteria b (without_level_filter g)).
  { intros g H. rewrite !meetsFilterCriteria_and, priceLevel_ok_off.
    unfold priceLevel_ok. rewrite H. cbn [truthy_str].
    destruct (filterByPriceLevel g); reflexivity. }
  assert (Hread : forall range first others,
            priceRange b = Some range ->
            match_all digitsRegex (chars range) = first :: others ->
            has_plus range || (price_groups range =? 2)%nat = true ->
            (minPrice f <= 0)%Q -> (0 < maxPrice f)%Q ->
            (meetsFilterCriteria b f = true <->
             (inject_Z (to_double (digits_val first)) <= maxPrice f)%Q /\
             meetsFilterCriteria b (without_price_filter f) = true) /\
            ((digits_val first <= 9007199254740992)%Z ->
             (meetsFilterCriteria b f = true <->
              (inject_Z (digits_val first) <= maxPrice f)%Q /\
              meetsFilterCriteria b (without_price_filter f) = true))).
  { intros range first others Hr Hm Hcmp Hmin Hmax.
    destruct (first_price_Some _ _ _ Hm) as [Hn _].
    pose proof (max_only_iff b f range _ Hr Hn Hcmp Hmin Hmax) as Hiff.
    split; [exact Hiff|]. intros Hsmall. now rewrite (to_double_small _ Hsmall) in Hiff. }
  split; [|split; [|split]].
  - intros H. split; [intros lo hi|auto].
    rewrite (Hprice _ H). apply (no_filter_passes b (only_price lo hi)).
  - intros range first others Hr Hm Hplus Hmin Hmax.
    apply (Hread range first others); try assumption.
    rewrite Hplus. reflexivity.
  - intros range lower upper Hr Hm Hplus Hmin Hmax.
    apply (Hread range lower [upper]); try assumption.
    unfold price_groups. rewrite Hm, Hplus. reflexivity.
  - intros H. split; [intros levels|auto].
    rewrite (Hlevel _ H). apply (no_filter_passes b (only_levels levels)).
Qed.

Import SampleRecords.

Lemma C10_witness :
  (meetsFilterCriteria (plain "Cafe") (only_minRating (9 # 2)) = true /\
   meetsFilterCriteria (plain "Cafe") strict =
     meetsFilterCriteria (plain "Cafe") (without_rating_filter strict)) /\
  (meetsFilterCriteria (plain "Cafe") (only_minReviews 50) = true /\
   meetsFilterCriteria (plain "Cafe") strict =
     meetsFilterCriteria (plain "Cafe") (without_reviews_filter strict)).
Proof.
  destruct (C10_null_rating_and_zero_reviews_pass (plain "Cafe") strict) as [Hr Hn].
  destruct (Hr eq_refl) as [Hr1 Hr2]. destruct (Hn eq_refl) as [Hn1 Hn2].
  exact (conj (conj (Hr1 (9 # 2)) Hr2) (conj (Hn1 50%Q) Hn2)).
Defined.

Lemma C4_witness :
  (meetsFilterCriteria (priced None None) (only_price 50 0) = true /\
   meetsFilterCriteria (priced None None) strict =
     meetsFilterCriteria (priced None None) (without_price_filter strict)) /\
  ((meetsFilterCriteria (priced None (Some "$100+"%string)) (only_price 0 150) = true <->
    (inject_Z (to_double (digits_val (chars "100"))) <= 150)%Q /\
    meetsFilterCriteria (priced None (Some "$100+"%string))
      (without_price_filter (only_price 0 150)) = true) /\
   (meetsFilterCriteria (priced None (Some "$100+"%string)) (only_price 0 150) = true <->
    (inject_Z (digits_val (chars "100")) <= 150)%Q /\
    meetsFilterCriteria (priced None (Some "$100+"%string))
      (without_price_filter (only_price 0 150)) = true)) /\
  ((meetsFilterCriteria (priced None (Some "$30–40"%string)) (only_price 0 20) = true <->
    (inject_Z (to_double (digits_val (chars "30"))) <= 20)%Q /\
    meetsFilterCriteria (priced None (Some "$30–40"%string))
      (without_price_filter (only_price 0 20)) = true) /\
   (meetsFilterCriteria (priced None (Some "$30–40"%string)) (only_price 0 20) = true <->
    (inject_Z (digits_val (chars "30")) <= 20)%Q /\
    meetsFilterCriteria (priced None (Some "$30–40"%string))
      (without_price_filter (only_price 0 20)) = true)) /\
  (meetsFilterCriteria (priced None (Some "$30–40"%string)) (only_levels ["$$$"%string]) = true /\
   meetsFilterCriteria (priced None (Some "$30–40"%string)) strict =
     meetsFilterCriteria (priced None (Some "$30–40"%string)) (without_level_filter strict)).
Proof.
  split; [|split; [|split]].
  - destruct (proj1 (C4_price_filters_pass_when_absent (priced None None) strict) eq_refl)
      as [H1 H2].
    exact (conj (H1 50%Q 0%Q) H2).
  - destruct (proj1 (proj2 (C4_price_filters_pass_when_absent
                           (priced None (Some "$100+"%string)) (only_price 0 150)))
             "$100+"%string (chars "100") []) as [H1 H2].
    + reflexivity.
    + vm_compute. reflexivity.
    + vm_compute. reflexivity.
    + vm_compute. discriminate.
    + reflexivity.
    + refine (conj H1 (H2 _)). vm_compute. discriminate.
  - destruct (proj1 (proj2 (proj2 (C4_price_filters_pass_when_absent
                           (priced None (Some "$30–40"%string)) (only_price 0 20))))
             "$30–40"%string (chars "30") (chars "40")) as [H1 H2].
    + reflexivity.
    + vm_compute. reflexivity.
    + vm_compute. reflexivity.
    + vm_compute. discriminate.
    + reflexivity.
    + refine (conj H1 (H2 _)). vm_compute. discriminate.
  - destruct (proj2 (proj2 (proj2 (C4_price_filters_pass_when_absent
                (priced None (Some "$30–40"%string)) strict))) eq_refl) as [H1 H2].
    exact (conj (H1 ["$$$"%string]) H2).
Defined.

(** C4 as the specification words it fails above [2^53]: the first digit
    group of the text is greater than [maxPrice], yet the record passes,
    because [parseInt] reads the group as the double [9007199254740992]. *)
Lemma C4_counterexample :
  has_plus "$9007199254740993+" = true /\
  match_all digitsRegex (chars "$9007199254740993+") = [chars "9007199254740993"] /\
  digits_val (chars "9007199254740993") = 9007199254740993%Z /\
  (9007199254740992 < inject_Z (digits_val (chars "9007199254740993")))%Q /\
  first_price "$9007199254740993+" = Some 9007199254740992%Z /\
  meetsFilterCriteria (priced None (Some "$9007199254740993+"%string))
    (only_price 0 9007199254740992) = true.
Proof. vm_compute. repeat split; reflexivity. Qed.

(** The three cases the specification gives for the price policy. *)
Example price_policy_cases :
  meetsFilterCriteria (priced None None) (only_price 50 0) = true /\
  meetsFilterCriteria (priced None (Some "$30–40"%string)) (only_price 0 20) = false /\
  meetsFilterCriteria (priced None (Some "$100+"%string)) (only_price 0 150) = true.
Proof. vm_compute. auto. Qed.

(** ** Coordinates *)

Import JsString Regex Patterns JsStringFacts ValidatorFacts.

(** C5, in the form that holds of the code.  [parseCoordinates] returns both coordinates, the
    latitude within [-90, 90] and the longitude within [-180, 180], or
    neither.  The [@] pattern is tried first: when its pair is in range that
    pair is returned whatever else the URL holds; when it is absent or out
    of range the result is that of the [!3d...!4d] pattern alone.  A
    validated record has a latitude exactly when it has a longitude. *)
Theorem C5_coordinates_both_or_neither
  (fround : Q -> Q) (URL_parse : string -> option (string * string))
  (blacklist : Blacklist) :
  (forall url,
     parseCoordinates fround url = (None, None) \/
     exists la lo, parseCoordinates fround url = (Some la, Some lo) /\
       (-90 <= la <= 90)%Q /\ (-180 <= lo <= 180)%Q) /\
  (forall u la lo,
     chars u <> [] ->
     coordinates_of fround atRegex (chars u) = Some (la, lo) ->
     parseCoordinates fround (Some u) = (Some la, Some lo)) /\
  (forall u,
     chars u <> [] ->
     coordinates_of fround atRegex (chars u) = None ->
     parseCoordinates fround (Some u) =
     match coordinates_of fround dataRegex (chars u) with
     | Some (la, lo) => (Some la, Some lo)
     | None => (None, None)
     end) /\
  (forall raw b,
     validateBusinessData fround URL_parse blacklist raw = Normal (Some b) ->
     (latitude b = None <-> longitude b = None)).
Proof.
  assert (Hboth : forall url,
     parseCoordinates fround url = (None, None) \/
     exists la lo, parseCoordinates fround url = (Some la, Some lo) /\
       (-90 <= la <= 90)%Q /\ (-180 <= lo <= 180)%Q).
  { intros url. unfold parseCoordinates.
    destruct (truthy_str url) as [u|]; [|now left].
    destruct (coordinates_of fround atRegex (chars u)) as [[la lo]|] eqn:E1.
    { right. exists la, lo. split; [reflexivity|]. eapply coordinates_of_range, E1. }
    destruct (coordinates_of fround dataRegex (chars u)) as [[la lo]|] eqn:E2.
    { right. exists la, lo. split; [reflexivity|]. eapply coordinates_of_range, E2. }
    now left. }
  split; [exact Hboth|]. split; [|split].
  - intros u la lo Hne E. unfold parseCoordinates.
    rewrite (truthy_str_nonempty u Hne), E. reflexivity.
  - intros u Hne E. unfold parseCoordinates.
    rewrite (truthy_str_nonempty u Hne), E. reflexivity.
  - intros raw b (b' & [= <-] & F)%validated_fields.
    destruct F as (_ & _ & _ & _ & _ & _ & _ & _ & _ & _ & Hc & _).
    destruct (Hboth (raw_googleMapsUrl raw)) as [E|(la & lo & E & _)];
      rewrite E in Hc; injection Hc as -> ->; split; congruence.
Qed.

Import Sample.

(** C5 as the specification words it fails where the [@] pair is out of
    range: both patterns are present, the [@] pattern with the values 95.5
    and 10.5, and the result is not that pair but the pair of the
    [!3d...!4d] pattern. *)
Lemma C5_counterexample :
  let url := "https://www.google.com/maps/place/X/@95.5,10.5,17z/data=!3d40.5!4d-73.5"%string in
  (exists m, exec atRegex (chars url) = Some m /\
             group 1 m = Some (chars "95.5") /\ group 2 m = Some (chars "10.5")) /\
  parseFloat exact (chars "95.5") = Some (191 # 2) /\
  parseFloat exact (chars "10.5") = Some (21 # 2) /\
  parseCoordinates exact (Some url) = (Some (81 # 2), Some (-147 # 2)) /\
  parseCoordinates exact (Some url) <> (Some (191 # 2), Some (21 # 2)).
Proof.
  cbv zeta. split; [|vm_compute; repeat split; discriminate].
  eexists. split; [vm_compute; reflexivity|]. vm_compute. auto.
Qed.

Lemma C5_witness :
  parseCoordinates exact
    (Some "https://www.google.com/maps/place/X/@40.5,-73.5,17z/data=!3d41.5!4d-70.25"%string)
    = (Some (81 # 2), Some (-147 # 2)) /\
  parseCoordinates exact (Some "https://www.google.com/maps/place/X/data=!3d41.5!4d-70.25"%string)
    = (Some (83 # 2), Some (-281 # 4)) /\
  (latitude (SampleRecords.plain "Cafe") = None <-> longitude (SampleRecords.plain "Cafe") = None).
Proof.
  destruct (C5_coordinates_both_or_neither exact simple_URL blacklist)
    as (_ & Hat & Hdata & Hrec).
  split; [|split].
  - apply Hat; [discriminate|vm_compute; reflexivity].
  - rewrite Hdata; [vm_compute; reflexivity|discriminate|vm_compute; reflexivity].
  - apply (Hrec (raw_named (VStr "Cafe"))). vm_compute. reflexivity.
Defined.

(** ** Emails *)

Import JsString Regex Patterns JsStringFacts ValidatorFacts EmailFacts.

(** C9.  Whatever the candidates and the blacklist, an address that
    [validateEmail] lets through is acceptable: its lower-case form holds no
    blacklisted domain, no blacklisted pattern matches it, and it has the
    syntax of an address.  So is every address of a validated record, and so
    is every address [extractEmailsFromHTML] returns; the latter are, without
    repetition and in the order of their first occurrence, the validated
    matches of the email pattern in the page. *)
Theorem C9_emails_pass_blacklist_and_syntax
  (fround : Q -> Q) (URL_parse : string -> option (string * string))
  (bl : Blacklist) :
  (forall (candidates : list string) e,
     e ∈ omap (validateEmail bl) candidates -> acceptable bl e) /\
  (forall raw b e,
     validateBusinessData fround URL_parse bl raw = Normal (Some b) ->
     e ∈ emails b -> acceptable bl e) /\
  (forall html,
     NoDup (extractEmailsFromHTML bl html) /\
     (forall e, e ∈ extractEmailsFromHTML bl html -> acceptable bl e) /\
     extractEmailsFromHTML bl html =
     first_occurrences
       (omap (validateEmail bl) (map str (match_all emailPattern (chars html))))).
Proof.
  split; [|split].
  - intros candidates e. apply omap_validateEmail.
  - intros raw b e (b' & [= <-] & F)%validated_fields.
    destruct F as (_ & _ & _ & _ & _ & _ & _ & _ & _ & _ & _ & _ & He & _).
    rewrite He. destruct (raw_emails raw) as [l|].
    + apply omap_validateEmail.
    + intros []%not_elem_of_nil.
  - intros html. rewrite extractEmailsFromHTML_eq. split; [|split].
    + apply first_occurrences_NoDup.
    + intros e He. apply (proj1 (first_occurrences_elem _ _)) in He.
      eapply omap_validateEmail, He.
    + reflexivity.
Qed.

Import Sample SampleEmails.

(** The two cases the specification gives, and the order of what is kept. *)
Example blacklisted_addresses_dropped :
  omap (validateEmail blacklist) candidates = ["sales@company.com"; "sales@company.com"]%string /\
  extractEmailsFromHTML blacklist html = ["info@joes.com"; "a@b.com"]%string.
Proof. vm_compute. auto. Qed.

Lemma C9_witness :
  acceptable blacklist "sales@company.com" /\
  acceptable blacklist "info@joes.com" /\
  (NoDup (extractEmailsFromHTML blacklist html) /\
   acceptable blacklist "a@b.com").
Proof.
  destruct (C9_emails_pass_blacklist_and_syntax exact simple_URL blacklist)
    as (Hc & Hr & Hh).
  split; [|split; [|split]].
  - apply (Hc candidates). vm_compute. apply list_elem_of_here.
  - eapply (Hr (raw_with_emails ["Info@Joes.com "%string])).
    + vm_compute. reflexivity.
    + vm_compute. apply list_elem_of_here.
  - apply (Hh html).
  - apply (Hh html). vm_compute. apply list_elem_of_further, list_elem_of_here.
Defined.

(** ** Business hours *)

Module HoursFacts.
Import JsString Regex Patterns JsStringFacts TrimFacts.

Lemma hours_step_parse (hours : gmap string string) (seenDays : gset string)
  (label : string) :
  hours_step (hours, seenDays) label =
  match parse_label label with
  | Some (day, timeRange) =>
      if bool_decide (day ∈ seenDays) then (hours, seenDays)
      else (<[day := timeRange]> hours, {[day]} ∪ seenDays)
  | None => (hours, seenDays)
  end.
Proof.
  unfold hours_step, parse_label.
  destruct (chars label); [reflexivity|].
  destruct (exec hoursRegex _); reflexivity.
Qed.

(** The range a label states is trimmed. *)
Lemma parse_label_trimmed (label day r : string) :
  parse_label label = Some (day, r) -> trimmed (chars r).
Proof.
  unfold parse_label. destruct (chars label); [discriminate|].
  destruct (exec hoursRegex _); [|discriminate].
  intros [= _ <-]. rewrite chars_str. apply trim_trimmed.
Qed.

Lemma first_range_trimmed (day r : string) (labels : list string) :
  first_range day labels = Some r -> trimmed (chars r).
Proof.
  induction labels as [|label labels IH]; simpl; [discriminate|].
  destruct (parse_label label) as [[d r']|] eqn:E; [|exact IH].
  destruct (String.eqb d day); [|exact IH].
  intros [= <-]. eapply parse_label_trimmed, E.
Qed.

(** The loop keeps [seenDays] equal to the keys of [hours], and a day that
    has a range keeps it. *)
Lemma fold_hours_lookup (labels : list string) (hours : gmap string string)
  (seenDays : gset string) (day : string) :
  seenDays = dom hours ->
  fst (fold_left hours_step labels (hours, seenDays)) !! day =
  match hours !! day with
  | Some r => Some r
  | None => first_range day labels
  end.
Proof.
  revert hours seenDays. induction labels as [|label labels IH]; intros hours seenDays Hdom.
  - simpl. destruct (hours !! day); reflexivity.
  - cbn [fold_left first_range]. rewrite hours_step_parse.
    destruct (parse_label label) as [[d r]|]; [|now apply IH].
    case_bool_decide as Hseen.
    + rewrite (IH _ _ Hdom). destruct (hours !! day) eqn:Eh; [reflexivity|].
      destruct (String.eqb_spec d day) as [->|]; [|reflexivity].
      rewrite Hdom in Hseen. apply elem_of_dom in Hseen as [x Hx]. congruence.
    + rewrite IH by (rewrite dom_insert_L; congruence).
      destruct (String.eqb_spec d day) as [->|Hne].
      * rewrite lookup_insert_eq.
        rewrite Hdom in Hseen. apply not_elem_of_dom in Hseen. now rewrite Hseen.
      * rewrite lookup_insert_ne by exact Hne. reflexivity.
Qed.

Lemma collectHours_lookup (labels : list string) (day : string) :
  collectHours labels !! day = first_range day labels.
Proof.
  unfold collectHours. rewrite fold_hours_lookup by (now rewrite dom_empty_L).
  now rewrite lookup_empty.
Qed.

(** A label that states the day ends the search; the labels before it that
    state other days, or nothing, do not. *)
Lemma first_range_app (day r : string) (before after : list string) (label : string) :
  (forall l, l ∈ before -> fst <$> parse_label l <> Some day) ->
  parse_label label = Some (day, r) ->
  first_range day (before ++ label :: after) = Some r.
Proof.
  intros Hbefore Hlabel. induction before as [|l before IH]; simpl.
  - rewrite Hlabel, String.eqb_refl. reflexivity.
  - assert (Hl := Hbefore l (list_elem_of_here _ _)).
    assert (IH' := IH (fun x Hx => Hbefore x (list_elem_of_further _ _ _ Hx))).
    destruct (parse_label l) as [[d r']|]; [|exact IH'].
    destruct (String.eqb_spec d day) as [->|]; [|exact IH'].
    now contradiction Hl.
Qed.

(** What [validateBusinessHours] keeps of an entry. *)
Lemma validateBusinessHours_lookup (h0 h : gmap string string) (day t : string) :
  validateBusinessHours (Some h0) = Some h ->
  h !! day = Some t ->
  day ∈ validDays /\ exists t0, h0 !! day = Some t0 /\ t = str (trim (chars t0)).
Proof.
  unfold validateBusinessHours. destruct (size h0 =? 0)%nat; [discriminate|].
  destruct (0 <? size _)%nat; [|discriminate]. intros [= <-].
  rewrite map_lookup_imap. destruct (h0 !! day) as [t0|]; [|discriminate].
  cbn. unfold valid_hours_entry. case_bool_decide as Hday; [|discriminate].
  intros [_ ->]%or_null_Some. eauto.
Qed.

Lemma size_lookup_Some (h : gmap string string) (day t : string) :
  h !! day = Some t -> (size h =? 0)%nat = false /\ (0 <? size h)%nat = true.
Proof.
  intros Hl. assert (size h <> 0)%nat as Hne.
  { intros Hz. apply map_size_empty_iff in Hz. rewrite Hz, lookup_empty in Hl. discriminate. }
  split; [apply Nat.eqb_neq; exact Hne|apply Nat.ltb_lt; lia].
Qed.

(** A weekday whose first stated range is not blank keeps it through
    [validateBusinessHours]. *)
Lemma validateBusinessHours_keeps (h0 : gmap string string) (day r : string) :
  day ∈ validDays -> h0 !! day = Some r -> trimmed (chars r) -> chars r <> [] ->
  exists h, validateBusinessHours (Some h0) = Some h /\ h !! day = Some r.
Proof.
  intros Hday Hl Htrim Hne. unfold validateBusinessHours.
  assert (Hkept : map_imap valid_hours_entry h0 !! day = Some r).
  { rewrite map_lookup_imap, Hl. cbn. unfold valid_hours_entry.
    rewrite bool_decide_eq_true_2 by exact Hday.
    rewrite (trimmed_trim _ Htrim). rewrite <- (str_chars r) at 2.
    destruct (chars r); [congruence|reflexivity]. }
  rewrite (proj1 (size_lookup_Some _ _ _ Hl)), (proj2 (size_lookup_Some _ _ _ Hkept)).
  eauto.
Qed.

End HoursFacts.

Import JsString Regex Patterns JsStringFacts TrimFacts HoursFacts.

(** Where the extraction does keep the first range.  For each day, as it is
    written in the labels, the extraction keeps the range of the first label
    that states it in that spelling: a label stating [day] with range [r],
    preceded by no label stating [day], gives [day] the range [r], whatever
    follows.  After [validateBusinessHours] the keys are among the seven
    weekday names and each of them carries the first range stated for it in
    that spelling; a weekday whose first range is not blank is among
    them. *)
Lemma first_range_per_spelling (labels : list string) :
  (forall day, collectHours labels !! day = first_range day labels) /\
  (forall before label after day r,
     labels = before ++ label :: after ->
     (forall l, l ∈ before -> fst <$> parse_label l <> Some day) ->
     parse_label label = Some (day, r) ->
     collectHours labels !! day = Some r) /\
  (forall view h day r,
     dv_hoursLabels view = Some labels ->
     validateBusinessHours (extractHoursData view) = Some h ->
     h !! day = Some r ->
     day ∈ validDays /\ first_range day labels = Some r) /\
  (forall view day r,
     dv_hoursLabels view = Some labels ->
     day ∈ validDays ->
     first_range day labels = Some r ->
     r <> ""%string ->
     exists h, validateBusinessHours (extractHoursData view) = Some h /\
               h !! day = Some r).
Proof.
  split; [|split; [|split]].
  - apply collectHours_lookup.
  - intros before label after day r -> Hbefore Hlabel.
    rewrite collectHours_lookup. now apply first_range_app.
  - intros view h day r Hl Hv Hr. unfold extractHoursData in Hv. rewrite Hl in Hv.
    destruct (size (collectHours labels) =? 0)%nat; [discriminate|].
    destruct (validateBusinessHours_lookup _ _ _ _ Hv Hr) as (Hday & t0 & Ht0 & ->).
    split; [exact Hday|]. rewrite collectHours_lookup in Ht0. rewrite Ht0. f_equal.
    apply first_range_trimmed in Ht0. rewrite (trimmed_trim _ Ht0). now rewrite str_chars.
  - intros view day r Hl Hday Hfirst Hne. unfold extractHoursData. rewrite Hl.
    assert (Hc : collectHours labels !! day = Some r) by now rewrite collectHours_lookup.
    rewrite (proj1 (size_lookup_Some _ _ _ Hc)).
    apply validateBusinessHours_keeps; [exact Hday|exact Hc| |].
    + eapply first_range_trimmed, Hfirst.
    + intros Hnil. apply Hne. rewrite <- (str_chars r), Hnil. reflexivity.
Qed.

Import SampleHours.

(** Two entries for Monday: the first range is kept. *)
Example monday_twice :
  map_to_list (collectHours [monday_main; monday_kitchen]) =
  [("Monday", "9:00 AM to 5:00 PM")]%string.
Proof. vm_compute. reflexivity. Qed.

(** The first ranges of a page, through the extraction and the validator. *)
Example first_ranges_of_a_page :
  collectHours labels !! "Monday"%string = Some "9:00 AM to 5:00 PM"%string /\
  (exists h, validateBusinessHours (extractHoursData view) = Some h /\
             h !! "Monday"%string = Some "9:00 AM to 5:00 PM"%string).
Proof.
  destruct (first_range_per_spelling labels) as (_ & Hfirst & _ & Hkept). split.
  - apply (Hfirst [tuesday] monday_main [monday_kitchen]).
    + reflexivity.
    + intros l Hl. apply list_elem_of_singleton in Hl. rewrite Hl.
      vm_compute. discriminate.
    + vm_compute. reflexivity.
  - apply (Hkept view).
    + reflexivity.
    + apply (bool_decide_unpack _). vm_compute. exact I.
    + vm_compute. reflexivity.
    + discriminate.
Qed.

(** C8 does not hold of the code.  The pattern of [extractHoursData]
    ignores case, but the key under which a range is kept, and under which a
    day counts as seen, is the day as the label writes it.  So a label that
    writes [monday] is accepted, leaves the extraction under a key that is
    none of the seven weekday names, and does not stop a later [Monday]:
    after [validateBusinessHours] Monday carries the second range stated for
    it.  And a first label whose range is blank takes the place of Monday,
    so that the range of a later label is discarded and the validator, which
    drops blank values, leaves no Monday at all. *)
Theorem C8_weekday_key_is_case_sensitive :
  (forall labels day, collectHours labels !! day = first_range day labels) /\
  parse_label monday_lower = Some ("monday", "8:00 AM to 1:00 PM")%string /\
  extractHoursData (shown [monday_lower; monday_main]) =
    Some {[ "monday"%string := "8:00 AM to 1:00 PM"%string;
            "Monday"%string := "9:00 AM to 5:00 PM"%string ]} /\
  validateBusinessHours (extractHoursData (shown [monday_lower; monday_main])) =
    Some {[ "Monday"%string := "9:00 AM to 5:00 PM"%string ]} /\
  extractHoursData (shown [monday_blank; monday_main]) =
    Some {[ "Monday"%string := ""%string ]} /\
  validateBusinessHours (extractHoursData (shown [monday_blank; monday_main])) = None.
Proof.
  split; [intros labels day; apply collectHours_lookup|].
  split; [vm_compute; reflexivity|].
  split; [vm_compute; reflexivity|].
  split; [vm_compute; reflexivity|].
  split; vm_compute; reflexivity.
Qed.

(** ** The walk: termination, the cap and the result set *)

Import JsString JsStringFacts WalkFacts.


(** C7.  With [maxResults = 3] and a first page of five distinct cards of
    which the second and the fourth yield no record while the others are
    accepted, the result is the records of the first, third and fifth card
    in that order. *)
Theorem C7_failed_cards_do_not_count
  (fround : Q -> Q) (URL_parse : string -> option (string * string))
  (blacklist : Blacklist) (filters : Filters) (flag : bool)
  (feed : nat -> list Card) (c1 c2 c3 c4 c5 : Card) (b1 b3 b5 : BusinessRecord)
  (fuel : nat) :
  feed 0%nat = [c1; c2; c3; c4; c5] ->
  NoDup [href c1; href c2; href c3; href c4; href c5] ->
  raw_of flag c2 = None ->
  raw_of flag c4 = None ->
  accepted fround URL_parse blacklist filters flag c1 = [b1] ->
  accepted fround URL_parse blacklist filters flag c3 = [b3] ->
  accepted fround URL_parse blacklist filters flag c5 = [b5] ->
  extractBusinessListings fround URL_parse blacklist 3 filters flag feed (S fuel)
  = Some [b1; b3; b5].
Proof.
  intros Hfeed Hnd H2 H4 H1 H3 H5.
  assert (Hpage : businesses
            (visit_all fround URL_parse blacklist 3 filters flag [c1; c2; c3; c4; c5] initial)
          = [b1; b3; b5]).
  { rewrite visit_all_unseen.
    - cbn [flat_map]. rewrite H1, H3, H5. unfold accepted. rewrite H2, H4. reflexivity.
    - exact Hnd.
    - intros c _ u _. apply not_elem_of_empty.
    - cbn. lia. }
  unfold extractBusinessListings. cbn [walk_from]. change (below_cap 3 initial) with true.
  cbv iota. rewrite Hfeed. unfold turn. change (previousCount initial) with 0%nat.
  rewrite drop_0.
  destruct (visit_all_counters fround URL_parse blacklist 3 filters flag
              [c1; c2; c3; c4; c5] initial) as [Hp _].
  rewrite Hp. change (previousCount initial) with 0%nat. cbn [List.length Nat.eqb andb].
  unfold below_cap. cbn [businesses]. rewrite Hpage. cbn. reflexivity.
Qed.

Import Sample SampleFeed.

(** A feed that never grows beyond its first page: the first turn visits the
    cards, the next three find nothing new, and the fourth turn is the last. *)
Example walk_of_a_fixed_page :
  walk 10 five 3 = None /\
  walk 10 five 4 =
  Some [listed (Some "A") "https://www.google.com/maps/place/a";
        listed (Some "C") "https://www.google.com/maps/place/c";
        listed (Some "E") "https://www.google.com/maps/place/e"]%string.
Proof. vm_compute. auto. Qed.


Lemma C7_witness :
  walk 3 five 1 =
  Some [listed (Some "A") "https://www.google.com/maps/place/a";
        listed (Some "C") "https://www.google.com/maps/place/c";
        listed (Some "E") "https://www.google.com/maps/place/e"]%string.
Proof.
  apply (C7_failed_cards_do_not_count exact simple_URL blacklist no_filters false
           five c1 c2 c3 c4 c5).
  - reflexivity.
  - apply (bool_decide_unpack _). vm_compute. exact I.
  - vm_compute. reflexivity.
  - vm_compute. reflexivity.
  - vm_compute. reflexivity.
  - vm_compute. reflexivity.
  - vm_compute. reflexivity.
Defined.

Import Sample SampleFeed ValidatorFacts.

(** C1 does not hold of the code.  [validateBusinessData] has no [return null]: whenever
    it returns, it returns a record.  A raw record whose name is blank comes
    back with [businessName] [null], and the walker, whose guard on a [null]
    result never fires, puts that record into the result set. *)
Theorem C1_blank_name_enters_result :
  (forall fround URL_parse bl raw,
     validateBusinessData fround URL_parse bl raw <> Normal None) /\
  cleanString (VStr "   ") = None /\
  validate (raw_named (VStr "   ")) =
    Normal (Some {| businessName := None; address := None; street := None;
                    city := None; state := None; zip := None; country := None;
                    phone := None; website := None; rating := None;
                    reviewCount := 0; category := None; priceLevel := None;
                    priceRange := None; googleMapsUrl := None; latitude := None;
                    longitude := None; businessHours := None; emails := [];
                    emailSource := "not_found" |}) /\
  walk 10 (fun _ => [blank]) 4 =
    Some [listed None "https://www.google.com/maps/place/x"].
Proof.
  split; [|vm_compute; auto].
  intros fround URL_parse bl raw H.
  apply validated_fields in H as (b & Hb & _). discriminate.
Qed.

(** ** The email enrichment *)

Module EnrichFacts.
Import JsString JsStringFacts.

Lemma findEmailOnWebsite_nonempty (bl : Blacklist) (goto : string -> option Page)
  (site : option string) (es : list string) :
  findEmailOnWebsite bl goto site = Some es -> es <> [].
Proof.
  unfold findEmailOnWebsite. destruct (truthy_str site) as [url|]; [|discriminate].
  destruct (goto url) as [page|]; [|discriminate].
  destruct (fold_left _ _ _); [discriminate|]. intros [= <-]. discriminate.
Qed.

End EnrichFacts.

Import JsString JsStringFacts EnrichFacts.

(** C2 does not hold of the code.  [batchFindEmails] never reads
    [emailSource]: whatever a record carries from the detail view, a record
    with a website gets the addresses of the crawl and the source ['website']
    when the crawl finds any, and no address and the source ['not_found']
    when it finds none; in neither case does it keep the source
    ['google_profile'].  Only a record without a website is returned as it
    is. *)
Theorem C2_enrichment_overrides_profile
  (bl : Blacklist) (goto : string -> option Page)
  (businesses : list BusinessRecord) (i : nat) (b : BusinessRecord) :
  businesses !! i = Some b ->
  (truthy_str (website b) = None ->
   batchFindEmails bl goto businesses !! i = Some b) /\
  (forall found,
     findEmailOnWebsite bl goto (website b) = Some found ->
     found <> [] /\
     batchFindEmails bl goto businesses !! i = Some (with_emails b found "website")) /\
  (truthy_str (website b) <> None ->
   findEmailOnWebsite bl goto (website b) = None ->
   batchFindEmails bl goto businesses !! i = Some (with_emails b [] "not_found")) /\
  (truthy_str (website b) <> None ->
   exists b', batchFindEmails bl goto businesses !! i = Some b' /\
              emailSource b' <> "google_profile"%string).
Proof.
  intros Hb. unfold batchFindEmails. rewrite list_lookup_fmap, Hb. cbn.
  unfold findEmails_task. split; [|split; [|split]].
  - intros ->. reflexivity.
  - intros found Hfound. split; [eapply findEmailOnWebsite_nonempty, Hfound|].
    rewrite Hfound. unfold findEmailOnWebsite in Hfound.
    destruct (truthy_str (website b)); [reflexivity|discriminate].
  - intros Hsite Hnone. rewrite Hnone.
    destruct (truthy_str (website b)); [reflexivity|congruence].
  - intros Hsite. destruct (truthy_str (website b)); [|congruence].
    destruct (findEmailOnWebsite bl goto (website b));
      eexists; (split; [reflexivity|discriminate]).
Qed.

Import Sample SampleSites.

(** A record that carries an address from the profile and has a website:
    after the enrichment the address is the one of the crawl, and when the
    site cannot be loaded the address is gone. *)
Example profile_address_replaced :
  emailSource (from_profile (Some "https://shop.org/"%string)) = "google_profile"%string /\
  emails (from_profile (Some "https://shop.org/"%string)) = ["owner@shop.org"%string] /\
  batchFindEmails blacklist web [from_profile (Some "https://shop.org/"%string)] =
  [with_emails (from_profile (Some "https://shop.org/"%string))
     ["sales@shop.org"; "desk@shop.org"]%string "website"] /\
  batchFindEmails blacklist web [from_profile (Some "https://closed.example/"%string)] =
  [with_emails (from_profile (Some "https://closed.example/"%string)) [] "not_found"].
Proof. vm_compute. repeat split. Qed.

Lemma C2_witness :
  batchFindEmails blacklist web [from_profile None] !! 0%nat = Some (from_profile None) /\
  (["sales@shop.org"; "desk@shop.org"]%string <> [] /\
   batchFindEmails blacklist web [from_profile (Some "https://shop.org/"%string)] !! 0%nat =
   Some (with_emails (from_profile (Some "https://shop.org/"%string))
           ["sales@shop.org"; "desk@shop.org"]%string "website")) /\
  batchFindEmails blacklist web [from_profile (Some "https://closed.example/"%string)] !! 0%nat =
  Some (with_emails (from_profile (Some "https://closed.example/"%string)) [] "not_found") /\
  (exists b',
     batchFindEmails blacklist web [from_profile (Some "https://shop.org/"%string)] !! 0%nat =
     Some b' /\ emailSource b' <> "google_profile"%string).
Proof.
  split; [|split; [|split]].
  - apply (C2_enrichment_overrides_profile blacklist web [from_profile None] 0
             (from_profile None)); reflexivity.
  - apply (C2_enrichment_overrides_profile blacklist web
             [from_profile (Some "https://shop.org/"%string)] 0
             (from_profile (Some "https://shop.org/"%string))).
    + reflexivity.
    + vm_compute. reflexivity.
  - apply (C2_enrichment_overrides_profile blacklist web
             [from_profile (Some "https://closed.example/"%string)] 0
             (from_profile (Some "https://closed.example/"%string))).
    + reflexivity.
    + vm_compute. discriminate.
    + vm_compute. reflexivity.
  - apply (C2_enrichment_overrides_profile blacklist web
             [from_profile (Some "https://shop.org/"%string)] 0
             (from_profile (Some "https://shop.org/"%string))).
    + reflexivity.
    + vm_compute. discriminate.
Defined.

(** ** Validating twice *)

Import JsString JsStringFacts ValidatorFacts CleanFacts IdempotenceFacts.




Import Sample SampleRevalidation.




(** ** Scenarios of the specification, run on the embedding *)

Example address_scenario :
  parseAddress (Some "123 Main St, Brooklyn, NY 11201, United States"%string) =
  {| ap_street := Some "123 Main St"%string; ap_city := Some "Brooklyn"%string;
     ap_state := Some "NY"%string; ap_zip := Some "11201"%string;
     ap_country := Some "United States"%string |}.
Proof. vm_compute. reflexivity. Qed.

Example coordinates_scenario :
  parseCoordinates Sample.exact
    (Some "https://www.google.com/maps/place/X/@40.6892,-73.9915,17z"%string) =
    (Some (101723 # 2500), Some (-147983 # 2000)) /\
  parseCoordinates Sample.exact (Some "https://www.google.com/maps/place/X"%string) =
    (None, None).
Proof. vm_compute. auto. Qed.

Example rating_scenario :
  parseRating Sample.exact (VStr "4.5 stars") = Normal (Some (9 # 2)) /\
  parseRating Sample.exact (VStr "5.5") = Normal None /\
  parseReviewCount (VStr "1,234 reviews") = Normal 1234%Z.
Proof. vm_compute. auto. Qed.

(** * Further properties of the code

    ** What the matcher finds *)

Module RegexSpecFacts.
Import JsString Regex RegexSpec.

Lemma orelse_Some {A} (x y : option A) (a : A) :
  orelse x y = Some a -> x = Some a \/ y = Some a.
Proof. destruct x; simpl; auto. Qed.

(** The matcher only finds what the expression allows. *)
Lemma star_iter_sound (r : regex) (greedy : bool) (k : mstate -> option mstate)
  (res : mstate) :
  (forall s k res, rmatch r s k = Some res -> exists s', steps r s s' /\ k s' = Some res) ->
  forall n s, star_iter (rmatch r) greedy k n s = Some res ->
  exists s', steps (Star greedy r) s s' /\ k s' = Some res.
Proof.
  intros IHr. induction n as [|n IH]; intros s H.
  - simpl in H. destruct greedy; simpl in H; exists s; split;
      try apply steps_Star_stop; try exact H.
    destruct (k s); [exact H|discriminate].
  - cbn [star_iter] in H.
    assert (Hcase : rmatch r s (fun s1 =>
                      if (pos s <? pos s1)%nat then star_iter (rmatch r) greedy k n s1
                      else None) = Some res \/ k s = Some res).
    { destruct greedy; apply orelse_Some in H; tauto. }
    destruct Hcase as [Hagain|Hstop].
    + apply IHr in Hagain as (s1 & H1 & Hk).
      destruct (pos s <? pos s1)%nat; [|discriminate].
      apply IH in Hk as (s' & H2 & Hk). exists s'. split; [|exact Hk].
      eapply steps_Star_again; eassumption.
    + exists s. split; [apply steps_Star_stop|exact Hstop].
Qed.

Lemma rmatch_sound (r : regex) :
  forall s k res, rmatch r s k = Some res -> exists s', steps r s s' /\ k s' = Some res.
Proof.
  induction r as [|p|r1 IH1 r2 IH2|r1 IH1 r2 IH2|g r IH|i r IH| |]; intros s k res H;
    cbn [rmatch] in H.
  - exists s. split; [constructor|exact H].
  - destruct (rest s) as [|c t] eqn:E; [discriminate|].
    destruct (p c) eqn:Ep; [|discriminate].
    exists (advance c t s). split; [now constructor|exact H].
  - apply IH1 in H as (s1 & H1 & H). apply IH2 in H as (s2 & H2 & H).
    exists s2. split; [econstructor; eassumption|exact H].
  - apply orelse_Some in H as [H|H].
    + apply IH1 in H as (s' & H1 & H). exists s'. split; [now apply steps_Alt_l|exact H].
    + apply IH2 in H as (s' & H1 & H). exists s'. split; [now apply steps_Alt_r|exact H].
  - eapply star_iter_sound; eassumption.
  - apply IH in H as (s1 & H1 & H). exists (capture i s s1).
    split; [now constructor|exact H].
  - destruct (pos s =? 0)%nat eqn:E; [|discriminate].
    exists s. split; [constructor; now apply Nat.eqb_eq|exact H].
  - destruct (rest s) eqn:E; [|discriminate].
    exists s. split; [now constructor|exact H].
Qed.

(** The word a run of the matcher consumes. *)
Lemma steps_word (r : regex) (s s' : mstate) :
  steps r s s' ->
  exists w, rest s = w ++ rest s' /\ pos s' = (pos s + List.length w)%nat /\ derives r w.
Proof.
  induction 1 as [s|p s c t E Hp|r1 r2 s s1 s2 _ (w1 & E1 & P1 & D1) _ (w2 & E2 & P2 & D2)
                 |r1 r2 s s' _ (w & E & P & D)|r1 r2 s s' _ (w & E & P & D)
                 |g r s|g r s s1 s2 _ (w1 & E1 & P1 & D1) _ (w2 & E2 & P2 & D2)
                 |i r s s1 _ (w & E & P & D)|s Hp|s Hr].
  - exists []. split; [reflexivity|]. split; [simpl; lia|constructor].
  - exists [c]. simpl. split; [exact E|]. split; [simpl; lia|now constructor].
  - exists (w1 ++ w2). rewrite <- app_assoc, <- E2, E1, P2, P1, length_app.
    split; [reflexivity|]. split; [simpl; lia|now constructor].
  - exists w. split; [exact E|]. split; [exact P|now apply derives_Alt_l].
  - exists w. split; [exact E|]. split; [exact P|now apply derives_Alt_r].
  - exists []. split; [reflexivity|]. split; [simpl; lia|constructor].
  - exists (w1 ++ w2). rewrite <- app_assoc, <- E2, E1, P2, P1, length_app.
    split; [reflexivity|]. split; [simpl; lia|now apply derives_Star_again].
  - exists w. simpl. split; [exact E|]. split; [exact P|now constructor].
  - exists []. split; [reflexivity|]. split; [simpl; lia|constructor].
  - exists []. split; [reflexivity|]. split; [simpl; lia|constructor].
Qed.

(** What a group records is the word its expression consumed. *)
Lemma capture_word (i : nat) (r : regex) (s s1 : mstate) :
  steps r s s1 ->
  exists w, caps (capture i s s1) = (i, w) :: caps s1 /\ derives r w /\
            rest s = w ++ rest s1 /\ pos s1 = (pos s + List.length w)%nat.
Proof.
  intros (w & E & P & D)%steps_word. exists w. simpl. rewrite P, E.
  replace (pos s + List.length w - pos s)%nat with (List.length w) by lia.
  rewrite take_app_length. split; [reflexivity|]. split; [exact D|]. split; [reflexivity|lia].
Qed.

Lemma search_found (r : regex) (l : list ascii) :
  forall i f, search r i l = Some f ->
  exists j m, match_here r (i + j) (drop j l) = Some m /\ f = found_of (i + j) (drop j l) m.
Proof.
  induction l as [|c t IH]; intros i f H; cbn [search] in H.
  - destruct (match_here r i []) as [m|] eqn:E; [|discriminate].
    injection H as <-. exists 0%nat, m. rewrite Nat.add_0_r. simpl. auto.
  - destruct (match_here r i (c :: t)) as [m|] eqn:E.
    + injection H as <-. exists 0%nat, m. rewrite Nat.add_0_r. simpl. auto.
    + apply IH in H as (j & m & H1 & H2). exists (S j), m.
      replace (i + S j)%nat with (S i + j)%nat by lia. simpl. auto.
Qed.

(** A match of a pattern anchored on both sides is the whole input. *)
Lemma test_anchored (r : regex) (l : list ascii) :
  test (Seq Bol (Seq r Eol)) l = true -> derives r l.
Proof.
  unfold test, exec. destruct (search _ 0 l) as [f|] eqn:E; [intros _|discriminate].
  apply search_found in E as (j & m & H & _). unfold match_here in H.
  apply rmatch_sound in H as (s' & H & _).
  inversion H as [| |r1 r2 s0 s1 s2 Hb Hrest| | | | | | |]; subst.
  inversion Hb; subst. simpl in *. subst j. rewrite drop_0 in *.
  inversion Hrest as [| |r1 r2 s0 s1 s2 Hr He| | | | | | |]; subst.
  inversion He; subst.
  apply steps_word in Hr as (w & Ew & _ & D). simpl in Ew.
  match goal with Hnil : rest _ = [] |- _ => rewrite Hnil, app_nil_r in Ew end.
  now subst.
Qed.

End RegexSpecFacts.

Module ShapeFacts.
Import JsString Regex Patterns RegexSpec JsStringFacts RegexSpecFacts EmailFacts.

Lemma is_char_eq (a c : ascii) : is_char a c = true -> c = a.
Proof.
  unfold is_char, code. intros H%Nat.eqb_eq.
  rewrite <- (ascii_nat_embedding a), <- (ascii_nat_embedding c). now rewrite H.
Qed.

Lemma derives_Cls_inv (p : ascii -> bool) (w : list ascii) :
  derives (Cls p) w -> exists c, w = [c] /\ p c = true.
Proof. inversion 1; subst. eauto. Qed.

Lemma derives_Chr_inv (a : ascii) (w : list ascii) : derives (Chr a) w -> w = [a].
Proof. intros (c & -> & Hc%is_char_eq)%derives_Cls_inv. now subst. Qed.

Lemma derives_Star_Cls (g : bool) (p : ascii -> bool) (w : list ascii) :
  derives (Star g (Cls p)) w -> forallb p w = true.
Proof.
  intros H. remember (Star g (Cls p)) as r eqn:Er.
  induction H as [| | | | | |g' r' w1 w2 H1 _ H2 IH| | |]; try discriminate; [reflexivity|].
  injection Er as -> ->. apply derives_Cls_inv in H1 as (c & -> & Hc).
  simpl. rewrite Hc. now apply IH.
Qed.

Lemma derives_Plus_Cls (p : ascii -> bool) (w : list ascii) :
  derives (Plus (Cls p)) w -> w <> [] /\ forallb p w = true.
Proof.
  unfold Plus. inversion 1 as [| |r1 r2 w1 w2 H1 H2| | | | | | |]; subst.
  apply derives_Cls_inv in H1 as (c & -> & Hc). apply derives_Star_Cls in H2.
  simpl. rewrite Hc. split; [discriminate|exact H2].
Qed.

Lemma derives_Eps_inv (w : list ascii) : derives Eps w -> w = [].
Proof. now inversion 1. Qed.

Lemma derives_Seq_inv (r1 r2 : regex) (w : list ascii) :
  derives (Seq r1 r2) w -> exists w1 w2, w = w1 ++ w2 /\ derives r1 w1 /\ derives r2 w2.
Proof. inversion 1; subst. eauto. Qed.

Lemma derives_Rep_Cls (n : nat) (p : ascii -> bool) (w : list ascii) :
  derives (Rep n (Cls p)) w -> List.length w = n /\ forallb p w = true.
Proof.
  revert w. induction n as [|n IH]; intros w; simpl.
  - intros ->%derives_Eps_inv. auto.
  - intros (w1 & w2 & -> & (c & -> & Hc)%derives_Cls_inv & [<- H2]%IH)%derives_Seq_inv.
    simpl. rewrite Hc. auto.
Qed.

Lemma derives_emailPattern (w : list ascii) :
  derives emailPattern w ->
  exists name domain tld,
    w = name ++ "@"%char :: domain ++ "."%char :: tld /\
    name <> [] /\ forallb local_char name = true /\
    domain <> [] /\ forallb domain_char domain = true /\
    (2 <= List.length tld)%nat /\ forallb is_alpha tld = true.
Proof.
  unfold emailPattern.
  intros (n & w1 & -> & [Hn1 Hn2]%derives_Plus_Cls & H)%derives_Seq_inv.
  apply derives_Seq_inv in H as (a & w2 & -> & ->%derives_Chr_inv & H).
  apply derives_Seq_inv in H as (d & w3 & -> & [Hd1 Hd2]%derives_Plus_Cls & H).
  apply derives_Seq_inv in H as (a & t & -> & ->%derives_Chr_inv & H).
  unfold AtLeast in H.
  apply derives_Seq_inv in H as (t1 & t2 & -> & [Ht1 Ht1']%derives_Rep_Cls & Ht2%derives_Star_Cls).
  exists n, d, (t1 ++ t2). rewrite length_app, forallb_app, Ht1', Ht2.
  repeat split; try assumption; lia.
Qed.

Lemma lower_not_upper (c : ascii) : is_upper (lower c) = false.
Proof. destruct c as [[] [] [] [] [] [] [] []]; reflexivity. Qed.

End ShapeFacts.

Module NormalFormFacts.
Import JsString Regex Patterns RegexSpec JsStringFacts RegexFacts RegexSpecFacts TrimFacts
  CleanFacts ShapeFacts.

Lemma trimmed_ends (l : list ascii) :
  trimmed l ->
  (forall c, head l = Some c -> is_space c = false) /\
  (forall c, last l = Some c -> is_space c = false).
Proof.
  intros [H1 H2]. split.
  - intros c Hc. destruct l as [|a t]; [discriminate|]. injection Hc as ->.
    eapply trimStart_head, H1.
  - intros c (l' & ->)%last_Some. rewrite rev_app_distr in H2.
    apply (trimStart_head _ _ _ H2).
Qed.

Lemma single_spaced_collapse (l : list ascii) :
  single_spaced (collapse false l) = true /\
  single_spaced (collapse true l) = true /\
  next_is_space (collapse true l) = false.
Proof.
  induction l as [|c t (IH1 & IH2 & IH3)]; simpl; [auto|].
  destruct (is_space c) eqn:E; simpl.
  - rewrite IH2, IH3. auto.
  - rewrite E, IH1. simpl. auto.
Qed.

Lemma digits_val_nonneg (l : list ascii) : (0 <= digits_val l)%Z.
Proof.
  unfold digits_val.
  enough (H : forall acc, (0 <= acc)%Z ->
            (0 <= fold_left (fun acc c => (10 * acc + digit_val c)%Z) l acc)%Z)
    by (apply H; lia).
  induction l as [|c t IH]; intros acc Hacc; simpl; [exact Hacc|].
  apply IH. unfold digit_val. lia.
Qed.

(** The first group of a pattern that is one group. *)
Lemma exec_group (i : nat) (r : regex) (l : list ascii) (m : found) :
  exec (Grp i r) l = Some m -> exists w, group i m = Some w /\ derives r w.
Proof.
  unfold exec. intros H. apply search_found in H as (j & st & H & ->).
  unfold match_here in H. apply rmatch_sound in H as (s' & H & [= <-]).
  inversion H as [| | | | | | |i' r' s0 s1 Hr| |]; subst.
  apply (capture_word i) in Hr as (w & Hc & D & _). exists w. split; [|exact D].
  unfold group, found_of. cbn [groups]. rewrite Hc. cbn. now rewrite Nat.eqb_refl.
Qed.

Lemma split_no_sep (sep : ascii) (l : list ascii) :
  forallb (fun c => negb (is_char sep c)) l = true -> split sep l = [l].
Proof.
  induction l as [|c t IH]; simpl; [reflexivity|].
  intros [Hc Ht]%andb_prop. apply negb_true_iff in Hc. rewrite Hc, (IH Ht). reflexivity.
Qed.

End NormalFormFacts.

Module GroupFacts.
Import JsString Regex Patterns RegexSpec JsStringFacts RegexFacts RegexSpecFacts TrimFacts
  CleanFacts ShapeFacts NormalFormFacts.

(** A run of the matcher only adds captures, and only of the groups of the
    expression. *)
Lemma steps_caps (r : regex) (s s' : mstate) :
  steps r s s' ->
  exists new, caps s' = new ++ caps s /\ Forall (fun e => fst e ∈ groups_of r) new.
Proof.
  induction 1 as [s|p s c t E Hp|r1 r2 s s1 s2 _ (n1 & E1 & F1) _ (n2 & E2 & F2)
                 |r1 r2 s s' _ (n & E & F)|r1 r2 s s' _ (n & E & F)
                 |g r s|g r s s1 s2 _ (n1 & E1 & F1) _ (n2 & E2 & F2)
                 |i r s s1 _ (n & E & F)|s Hp|s Hr]; cbn [groups_of].
  - exists []. split; [reflexivity|constructor].
  - exists []. split; [reflexivity|constructor].
  - exists (n2 ++ n1). rewrite E2, E1, app_assoc. split; [reflexivity|].
    apply Forall_app. split; eapply Forall_impl; try eassumption;
      intros e He; apply elem_of_app; auto.
  - exists n. split; [exact E|]. eapply Forall_impl; [exact F|].
    intros e He; apply elem_of_app; auto.
  - exists n. split; [exact E|]. eapply Forall_impl; [exact F|].
    intros e He; apply elem_of_app; auto.
  - exists []. split; [reflexivity|constructor].
  - exists (n2 ++ n1). rewrite E2, E1, app_assoc. split; [reflexivity|].
    apply Forall_app. split; assumption.
  - exists ((i, firstn (pos s1 - pos s) (rest s)) :: n). cbn. rewrite E.
    split; [reflexivity|]. constructor; [apply list_elem_of_here|].
    eapply Forall_impl; [exact F|]. intros e He. now apply list_elem_of_further.
  - exists []. split; [reflexivity|constructor].
  - exists []. split; [reflexivity|constructor].
Qed.

Lemma steps_caps_none (r : regex) (s s' : mstate) :
  groups_of r = [] -> steps r s s' -> caps s' = caps s.
Proof.
  intros Hg (new & E & F)%steps_caps. rewrite Hg in F.
  destruct new as [|e new]; [exact E|].
  apply Forall_cons in F as [F _]. now apply elem_of_nil in F.
Qed.

Lemma find_skip (i : nat) (new old : list (nat * list ascii)) :
  Forall (fun e => fst e <> i) new ->
  List.find (fun p => (fst p =? i)%nat) (new ++ old) =
  List.find (fun p => (fst p =? i)%nat) old.
Proof.
  induction 1 as [|e new He _ IH]; [reflexivity|]. simpl.
  apply Nat.eqb_neq in He. now rewrite He.
Qed.

Lemma upper_not_space (c : ascii) : is_upper c = true -> is_space c = false.
Proof. destruct c as [[] [] [] [] [] [] [] []]; (reflexivity || discriminate). Qed.

Lemma no_space_fix (w : list ascii) :
  forallb (fun c => negb (is_space c)) w = true ->
  trim w = w /\ collapse false w = w.
Proof.
  intros H. split.
  - apply trimmed_trim. split.
    + destruct w as [|c t]; [reflexivity|]. simpl in *.
      apply andb_prop in H as [Hc _]. apply negb_true_iff in Hc. now rewrite Hc.
    + destruct (rev w) as [|c t] eqn:E; [reflexivity|]. simpl.
      assert (Hc : In c w) by (apply in_rev; rewrite E; now left).
      rewrite forallb_forall in H. apply H, negb_true_iff in Hc. now rewrite Hc.
  - induction w as [|c t IH]; [reflexivity|]. simpl in *.
    apply andb_prop in H as [Hc Ht]. apply negb_true_iff in Hc. rewrite Hc.
    now rewrite (IH Ht).
Qed.

Lemma clean_part_no_space (w : list ascii) :
  w <> [] -> forallb (fun c => negb (is_space c)) w = true ->
  clean_part (Some w) = Some (str w).
Proof.
  intros Hne [Ht Hc]%no_space_fix. unfold clean_part. simpl.
  destruct w as [|c t] eqn:E; [congruence|]. cbn [or_null opt_value cleanString].
  rewrite chars_str, replace_spaces, Ht, Hc. reflexivity.
Qed.

(** What a match of the state and zip pattern records. *)
Lemma exec_stateZip (part : list ascii) (m : found) :
  exec stateZipRegex part = Some m ->
  (exists st, group 1 m = Some st /\ List.length st = 2%nat /\ forallb is_upper st = true) /\
  (group 2 m = None \/
   exists d5 ext, group 2 m = Some (d5 ++ ext) /\
     List.length d5 = 5%nat /\ forallb is_digit d5 = true /\
     (ext = [] \/ exists d4, ext = "-"%char :: d4 /\ List.length d4 = 4%nat /\
                             forallb is_digit d4 = true)).
Proof.
  unfold exec. intros H. apply search_found in H as (j & st & H & ->).
  unfold match_here in H. apply rmatch_sound in H as (s' & H & [= <-]).
  unfold stateZipRegex in H.
  inversion H as [| |? ? ? ? ? Hg1 Htail| | | | | | |]; subst.
  inversion Hg1 as [| | | | | | |? ? ? sa Ha| |]; subst.
  pose proof (fun G => steps_caps_none _ _ _ G Ha) as Hca.
  specialize (Hca eq_refl). cbn in Hca.
  apply (capture_word 1) in Ha as (w1 & Hc1 & [L1 U1]%(derives_Rep_Cls 2) & _).
  rewrite Hca in Hc1.
  inversion Htail as [| |? ? ? sp ? Hsp Hopt| | | | | | |]; subst.
  pose proof (fun G => steps_caps_none _ _ _ G Hsp) as Hsp'.
  specialize (Hsp' eq_refl). clear Hsp. rename Hsp' into Hsp. rewrite Hc1 in Hsp.
  unfold found_of, group. cbn [groups].
  inversion Hopt as [| | |? ? ? ? Hz|? ? ? ? He| | | | |]; subst.
  - inversion Hz as [| | | | | | |? ? ? sb Hb| |]; subst.
    pose proof (steps_caps _ _ _ Hb) as (new & Hnew & Fnew). cbn in Fnew.
    apply (capture_word 2) in Hb as (w2 & Hc2 & D2 & _).
    rewrite Hc2, Hnew, Hsp. split.
    + exists w1. split; [|auto]. cbn.
      rewrite (find_skip 1 new); [reflexivity|].
      eapply Forall_impl; [exact Fnew|]. cbn. intros e He%list_elem_of_singleton. lia.
    + right. cbn.
      apply derives_Seq_inv in D2 as (d5 & ext & -> & [L5 D5]%(derives_Rep_Cls 5) & Dext).
      exists d5, ext. split; [reflexivity|]. split; [exact L5|]. split; [exact D5|].
      inversion Dext as [| | |? ? ? Hl|? ? ? Hr| | | | |]; subst.
      * inversion Hl as [| | | | | | |? ? ? Hw| |]; subst.
        apply derives_Seq_inv in Hw as (a & d4 & -> & ->%derives_Chr_inv & [L4 D4]%(derives_Rep_Cls 4)).
        right. exists d4. auto.
      * apply derives_Eps_inv in Hr. now left.
  - inversion He; subst. rewrite Hsp. split; [|now left].
    exists w1. cbn. auto.
Qed.

End GroupFacts.

(** ** The validators: shapes and ranges of what they return *)

Module MoreValidation.
Import JsString Regex Patterns RegexSpec JsStringFacts RegexFacts RegexSpecFacts TrimFacts
  CleanFacts EmailFacts ShapeFacts NormalFormFacts ValidatorFacts.

(** X1: a string [cleanString] returns is not empty, neither starts nor
    ends with white space, and its only white space is single spaces. *)
Theorem X1_cleanString_normal_form (v : value) (s : string) :
  cleanString v = Some s ->
  s <> ""%string /\
  (forall c, head (chars s) = Some c -> is_space c = false) /\
  (forall c, last (chars s) = Some c -> is_space c = false) /\
  single_spaced (chars s) = true.
Proof.
  intros (l & Hs & Hne)%cleanString_chars. split.
  - intros ->. now apply Hne.
  - rewrite Hs.
    destruct (trimmed_ends _ (trimmed_collapse _ (trim_trimmed l))) as [Hhead Hlast].
    split; [exact Hhead|]. split; [exact Hlast|apply single_spaced_collapse].
Qed.

Lemma X1_witness :
  "Joe's Pizza"%string <> ""%string /\
  (forall c, head (chars "Joe's Pizza") = Some c -> is_space c = false) /\
  (forall c, last (chars "Joe's Pizza") = Some c -> is_space c = false) /\
  single_spaced (chars "Joe's Pizza") = true.
Proof.
  apply (X1_cleanString_normal_form (VStr "  Joe's    Pizza ") "Joe's Pizza").
  vm_compute. reflexivity.
Defined.

(** X2: a phone number [cleanPhone] returns is not empty and holds digits
    and plus signs only; its digits are the digits of the input in their
    order, behind a 1 when the country code was added. *)
Theorem X2_cleanPhone_normal_form (phone : option string) (s : string) :
  cleanPhone phone = Some s ->
  s <> ""%string /\
  forallb phone_char (chars s) = true /\
  exists p, phone = Some p /\
    (filter (fun c => is_digit c = true) (chars s) =
       filter (fun c => is_digit c = true) (chars p) \/
     filter (fun c => is_digit c = true) (chars s) =
       "1"%char :: filter (fun c => is_digit c = true) (chars p)).
Proof.
  unfold cleanPhone. destruct (truthy_str phone) as [p|] eqn:Ep; [|discriminate].
  apply truthy_str_Some in Ep as [-> _].
  unfold not_phone_char. rewrite replace_class.
  set (kept := filter _ (chars p)).
  assert (Hkept : forallb phone_char kept = true).
  { apply forallb_forall. intros c [Hc _]%list_elem_of_In%list_elem_of_filter.
    apply negb_false_iff in Hc. exact Hc. }
  assert (Hdigits : filter (fun c => is_digit c = true) kept =
                    filter (fun c => is_digit c = true) (chars p)).
  { unfold kept. rewrite list_filter_filter. apply list_filter_iff. intros c.
    split; [tauto|]. intros Hc. split; [exact Hc|]. now rewrite Hc. }
  intros [Hs Hne]%or_null_chars. split; [intros ->; now apply Hne|].
  rewrite Hs. destruct (_ && _).
  - split; [exact Hkept|]. exists p. split; [reflexivity|]. right.
    cbn [chars list_ascii_of_string app]. rewrite filter_cons_False by (vm_compute; discriminate).
    rewrite filter_cons_True by reflexivity. now rewrite Hdigits.
  - split; [exact Hkept|]. exists p. split; [reflexivity|]. now left.
Qed.

Lemma X2_witness :
  "+15551234567"%string <> ""%string /\
  forallb phone_char (chars "+15551234567") = true /\
  exists p, Some "(555) 123-4567"%string = Some p /\
    (filter (fun c => is_digit c = true) (chars "+15551234567") =
       filter (fun c => is_digit c = true) (chars p) \/
     filter (fun c => is_digit c = true) (chars "+15551234567") =
       "1"%char :: filter (fun c => is_digit c = true) (chars p)).
Proof.
  apply (X2_cleanPhone_normal_form (Some "(555) 123-4567"%string) "+15551234567").
  vm_compute. reflexivity.
Defined.

(** X3: what [validateEmail] returns is the lower-case, trimmed input and
    has the shape [name@domain.tld]: a non-empty name of letters, digits and
    [._%+-], a non-empty domain of letters, digits, dots and hyphens, and a
    last label of at least two letters; no upper-case letter is left. *)
Theorem X3_validateEmail_shape (bl : Blacklist) (email e : string) :
  validateEmail bl email = Some e ->
  chars e = toLowerCase (trim (chars email)) /\
  forallb (fun c => negb (is_upper c)) (chars e) = true /\
  exists name domain tld,
    chars e = name ++ "@"%char :: domain ++ "."%char :: tld /\
    name <> [] /\ forallb local_char name = true /\
    domain <> [] /\ forallb domain_char domain = true /\
    (2 <= List.length tld)%nat /\ forallb is_alpha tld = true.
Proof.
  intros [He (_ & _ & Hs)]%validateEmail_Some. split; [exact He|]. split.
  - rewrite He. unfold toLowerCase. rewrite forallb_forall.
    intros c (x & <- & _)%in_map_iff. now rewrite lower_not_upper.
  - apply derives_emailPattern, test_anchored. exact Hs.
Qed.

Lemma X3_witness :
  chars "sales@joes-pizza.com" = toLowerCase (trim (chars " Sales@Joes-Pizza.com ")) /\
  forallb (fun c => negb (is_upper c)) (chars "sales@joes-pizza.com") = true /\
  exists name domain tld,
    chars "sales@joes-pizza.com" = name ++ "@"%char :: domain ++ "."%char :: tld /\
    name <> [] /\ forallb local_char name = true /\
    domain <> [] /\ forallb domain_char domain = true /\
    (2 <= List.length tld)%nat /\ forallb is_alpha tld = true.
Proof.
  apply (X3_validateEmail_shape Sample.blacklist " Sales@Joes-Pizza.com " "sales@joes-pizza.com").
  vm_compute. reflexivity.
Defined.

End MoreValidation.

Module MoreValidated.
Import JsString Regex Patterns RegexSpec JsStringFacts RegexFacts RegexSpecFacts TrimFacts
  CleanFacts EmailFacts ShapeFacts NormalFormFacts ValidatorFacts.

Section Validators.
Variable fround : Q -> Q.
Variable URL_parse : string -> option (string * string).
Variable blacklist : Blacklist.

Lemma parseRating_range (v : value) (q : Q) :
  parseRating fround v = Normal (Some q) -> (0 <= q <= 5)%Q.
Proof.
  destruct v as [|s|n]; simpl; [discriminate| |destruct (Qeq_bool n 0); discriminate].
  destruct (chars s); [discriminate|].
  destruct (exec ratingRegex _); [|discriminate].
  destruct (in_range 0 5 _) eqn:E; [|discriminate].
  intros [= H]. rewrite H in E. simpl in E.
  rewrite andb_true_iff, !Qle_bool_iff in E. exact E.
Qed.

Lemma parseReviewCount_nonneg (v : value) (n : Z) :
  parseReviewCount v = Normal n -> (0 <= n)%Z.
Proof.
  destruct v as [|s|q]; simpl.
  - intros [= <-]. lia.
  - destruct (chars s) as [|c t]; [intros [= <-]; lia|].
    destruct (exec reviewRegex (c :: t)) as [m|] eqn:E; [|intros [= <-]; lia].
    unfold reviewRegex in E. apply exec_group in E as (w & -> & [_ Hw]%derives_Plus_Cls).
    intros [= <-]. cbn [default]. unfold comma, Chr. rewrite replace_class.
    set (ds := filter _ w).
    assert (Hds : forallb is_digit ds = true).
    { apply forallb_forall. intros a [Ha Hin]%list_elem_of_In%list_elem_of_filter.
      rewrite forallb_forall in Hw. apply list_elem_of_In, Hw in Hin.
      rewrite Ha, orb_false_r in Hin. exact Hin. }
    destruct ds as [|d ds'] eqn:Eds; [vm_compute; discriminate|].
    rewrite parseInt_digits by (exact Hds || discriminate).
    apply to_double_nonneg, digits_val_nonneg.
  - destruct (Qeq_bool q 0); [intros [= <-]; lia|discriminate].
Qed.

Lemma parseCoordinates_range (url : option string) (la lo : option Q) :
  parseCoordinates fround url = (la, lo) ->
  (forall x, la = Some x -> (-90 <= x <= 90)%Q) /\
  (forall y, lo = Some y -> (-180 <= y <= 180)%Q).
Proof.
  unfold parseCoordinates. destruct (truthy_str url) as [u|].
  - destruct (coordinates_of fround atRegex (chars u)) as [[x y]|] eqn:E1.
    + intros [= <- <-]. apply coordinates_of_range in E1.
      split; intros ? [= <-]; tauto.
    + destruct (coordinates_of fround dataRegex (chars u)) as [[x y]|] eqn:E2.
      * intros [= <- <-]. apply coordinates_of_range in E2.
        split; intros ? [= <-]; tauto.
      * intros [= <- <-]. split; discriminate.
  - intros [= <- <-]. split; discriminate.
Qed.

(** X4: in a record the validator returns the rating, if any, lies
    between 0 and 5, the review count is not negative, and the latitude and
    the longitude, if any, lie within 90 and 180 degrees. *)
Theorem X4_validated_numbers_in_range (raw : RawData) (b : BusinessRecord) :
  validateBusinessData fround URL_parse blacklist raw = Normal (Some b) ->
  (forall q, rating b = Some q -> (0 <= q <= 5)%Q) /\
  (0 <= reviewCount b)%Z /\
  (forall x, latitude b = Some x -> (-90 <= x <= 90)%Q) /\
  (forall y, longitude b = Some y -> (-180 <= y <= 180)%Q).
Proof.
  intros (b' & [= <-] & _ & _ & _ & _ & Hr & Hn & _ & _ & _ & _ & Hc & _)%validated_fields.
  split; [|split].
  - intros q Hq. rewrite Hq in Hr. eapply parseRating_range, Hr.
  - eapply parseReviewCount_nonneg, Hn.
  - symmetry in Hc. apply parseCoordinates_range in Hc. exact Hc.
Qed.

End Validators.

Lemma X4_witness :
  let b := SampleRevalidation.validated SampleRevalidation.rated in
  (forall q, rating b = Some q -> (0 <= q <= 5)%Q) /\
  (0 <= reviewCount b)%Z /\
  (forall x, latitude b = Some x -> (-90 <= x <= 90)%Q) /\
  (forall y, longitude b = Some y -> (-180 <= y <= 180)%Q).
Proof.
  apply (X4_validated_numbers_in_range Sample.exact Sample.simple_URL Sample.blacklist
           SampleRevalidation.rated).
  vm_compute. reflexivity.
Defined.

End MoreValidated.

Module MoreAddress.
Import JsString Regex Patterns RegexSpec JsStringFacts RegexFacts RegexSpecFacts TrimFacts
  CleanFacts EmailFacts ShapeFacts NormalFormFacts ValidatorFacts.

Lemma clean_part_nonempty (o : option (list ascii)) (s : string) :
  clean_part o = Some s -> s <> ""%string.
Proof.
  unfold clean_part. intros (l & _ & Hne)%cleanString_chars. intros ->. now apply Hne.
Qed.

(** X5: [parseAddress] gives five nulls for a missing or empty address;
    for any other address the country is a non-empty string, and when the
    address holds no comma the country is United States and the four other
    components are null. *)
Theorem X5_parseAddress_country (fullAddress : option string) :
  (truthy_str fullAddress = None -> parseAddress fullAddress = no_address) /\
  (forall a, truthy_str fullAddress = Some a ->
     (exists c, ap_country (parseAddress fullAddress) = Some c /\ c <> ""%string) /\
     (forallb (fun c => negb (is_char "," c)) (chars a) = true ->
      parseAddress fullAddress =
        {| ap_street := None; ap_city := None; ap_state := None; ap_zip := None;
           ap_country := Some "United States"%string |})).
Proof.
  unfold parseAddress. split; [intros ->; reflexivity|].
  intros a ->. split.
  - cbn [ap_country]. destruct (clean_part _) as [c|] eqn:E.
    + exists c. split; [reflexivity|]. eapply clean_part_nonempty, E.
    + eexists. split; [reflexivity|discriminate].
  - intros Hno. rewrite (split_no_sep _ _ Hno). reflexivity.
Qed.

Lemma X5_witness :
  (truthy_str (Some ""%string) = None -> parseAddress (Some ""%string) = no_address) /\
  (exists c, ap_country (parseAddress (Some "Main Street 5"%string)) = Some c /\
             c <> ""%string) /\
  parseAddress (Some "Main Street 5"%string) =
    {| ap_street := None; ap_city := None; ap_state := None; ap_zip := None;
       ap_country := Some "United States"%string |}.
Proof.
  split; [apply (X5_parseAddress_country (Some ""%string))|].
  destruct (X5_parseAddress_country (Some "Main Street 5"%string)) as [_ H].
  destruct (H "Main Street 5"%string) as [H1 H2]; [vm_compute; reflexivity|].
  exact (conj H1 (H2 ltac:(vm_compute; reflexivity))).
Defined.

End MoreAddress.

Module MoreHours.
Import JsString Regex Patterns JsStringFacts TrimFacts NormalFormFacts HoursFacts.

Lemma validDays_NoDup : NoDup validDays.
Proof. apply (bool_decide_unpack _). vm_compute. exact I. Qed.

(** What [validateBusinessHours] returns, entry by entry. *)
Lemma validated_hours_entries
  (hours : option (gmap string string)) (h : gmap string string) :
  validateBusinessHours hours = Some h ->
  (0 <? size h)%nat = true /\
  forall day t, h !! day = Some t ->
    day ∈ validDays /\ t <> ""%string /\
    exists h0 t0, hours = Some h0 /\ h0 !! day = Some t0 /\ chars t = trim (chars t0).
Proof.
  unfold validateBusinessHours. destruct hours as [h0|]; [|discriminate].
  destruct (size h0 =? 0)%nat; [discriminate|].
  destruct (0 <? size _)%nat eqn:Hs; [|discriminate]. intros [= <-].
  split; [exact Hs|].
  intros day t. rewrite map_lookup_imap. destruct (h0 !! day) as [t0|] eqn:E0; [|discriminate].
  cbn. unfold valid_hours_entry. case_bool_decide as Hd; [|discriminate].
  intros [Ht Hne]%or_null_chars. split; [exact Hd|]. split.
  - intros ->. now apply Hne.
  - exists h0, t0. auto.
Qed.

(** X7: the hours [validateBusinessHours] returns are never an empty
    object; every key is one of the seven day names as written in
    [validDays], so there are at most seven; every value is the trimmed
    value of the input for that day, and it is not empty. *)
Theorem X7_validateBusinessHours_normal_form
  (hours : option (gmap string string)) (h : gmap string string) :
  validateBusinessHours hours = Some h ->
  h <> ∅ /\ (size h <= 7)%nat /\
  forall day t, h !! day = Some t ->
    day ∈ validDays /\ t <> ""%string /\
    exists h0 t0, hours = Some h0 /\ h0 !! day = Some t0 /\ chars t = trim (chars t0).
Proof.
  intros [Hs Hentry]%validated_hours_entries. split; [|split].
  - intros He. rewrite He, map_size_empty in Hs. discriminate.
  - rewrite <- size_dom.
    transitivity (size (list_to_set validDays : gset string)).
    + apply subseteq_size. intros day [t Ht]%elem_of_dom.
      apply elem_of_list_to_set. now apply Hentry in Ht.
    + rewrite size_list_to_set by apply validDays_NoDup. reflexivity.
  - exact Hentry.
Qed.

Lemma X7_witness :
  let h : gmap string string := {[ "Monday"%string := "9 AM to 5 PM"%string ]} in
  h <> ∅ /\ (size h <= 7)%nat /\
  forall day t, h !! day = Some t ->
    day ∈ validDays /\ t <> ""%string /\
    exists h0 t0,
      Some ({[ "Monday"%string := " 9 AM to 5 PM "%string;
               "Funday"%string := "x"%string ]} : gmap string string) = Some h0 /\
      h0 !! day = Some t0 /\ chars t = trim (chars t0).
Proof.
  apply (X7_validateBusinessHours_normal_form
           (Some {[ "Monday"%string := " 9 AM to 5 PM "%string;
                    "Funday"%string := "x"%string ]})).
  vm_compute. reflexivity.
Defined.

End MoreHours.

Module MoreZip.
Import JsString Regex Patterns RegexSpec JsStringFacts RegexFacts RegexSpecFacts TrimFacts
  CleanFacts ShapeFacts NormalFormFacts GroupFacts.

Lemma clean_part_Some (o : option (list ascii)) (z : string) :
  clean_part o = Some z -> exists w, o = Some w /\ w <> [].
Proof.
  destruct o as [w|]; [|discriminate]. destruct w; [discriminate|].
  intros _. eexists. split; [reflexivity|discriminate].
Qed.

(** X6: when [parseAddress] gives a zip, the zip is five digits,
    possibly followed by a hyphen and four digits, and the state is then two
    upper-case letters. *)
Theorem X6_zip_is_five_digits (fullAddress : option string) (z : string) :
  ap_zip (parseAddress fullAddress) = Some z ->
  (exists d5 ext, chars z = d5 ++ ext /\
     List.length d5 = 5%nat /\ forallb is_digit d5 = true /\
     (ext = [] \/ exists d4, ext = "-"%char :: d4 /\ List.length d4 = 4%nat /\
                             forallb is_digit d4 = true)) /\
  exists st, ap_state (parseAddress fullAddress) = Some st /\
    List.length (chars st) = 2%nat /\ forallb is_upper (chars st) = true.
Proof.
  unfold parseAddress. destruct (truthy_str fullAddress) as [a|]; [|discriminate].
  cbn [ap_zip ap_state]. set (parts := map trim (split "," (chars a))).
  destruct (3 <=? List.length parts)%nat; [|discriminate].
  destruct (parts !! 2%nat) as [part|]; [|discriminate]. cbn [mbind option_bind].
  destruct (exec stateZipRegex part) as [m|] eqn:E; [|discriminate].
  apply exec_stateZip in E as [(st & Hst & Lst & Ust) Hzip]. cbn [mbind option_bind].
  intros Hz. destruct Hzip as [Hnone|(d5 & ext & Hg & L5 & D5 & Hext)].
  { rewrite Hnone in Hz. discriminate. }
  rewrite Hg in Hz.
  assert (Hns : forallb (fun c => negb (is_space c)) (d5 ++ ext) = true).
  { rewrite forallb_app. apply andb_true_iff. split.
    - apply forallb_forall. intros c Hc. rewrite forallb_forall in D5.
      now rewrite (digit_not_space c (D5 c Hc)).
    - destruct Hext as [->|(d4 & -> & _ & D4)]; [reflexivity|]. simpl.
      apply forallb_forall. intros c Hc. rewrite forallb_forall in D4.
      now rewrite (digit_not_space c (D4 c Hc)). }
  rewrite clean_part_no_space in Hz; [|destruct d5; [discriminate L5|discriminate]|exact Hns].
  injection Hz as <-. rewrite chars_str. split; [exists d5, ext; auto|].
  rewrite Hst. exists (str st). rewrite chars_str. split; [|auto].
  apply clean_part_no_space; [destruct st; [discriminate Lst|discriminate]|].
  apply forallb_forall. intros c Hc. rewrite forallb_forall in Ust.
  now rewrite (upper_not_space c (Ust c Hc)).
Qed.

Lemma X6_witness :
  (exists d5 ext, chars "11201-1234" = d5 ++ ext /\
     List.length d5 = 5%nat /\ forallb is_digit d5 = true /\
     (ext = [] \/ exists d4, ext = "-"%char :: d4 /\ List.length d4 = 4%nat /\
                             forallb is_digit d4 = true)) /\
  exists st, ap_state (parseAddress (Some "123 Main St, Brooklyn, NY 11201-1234"%string))
             = Some st /\
    List.length (chars st) = 2%nat /\ forallb is_upper (chars st) = true.
Proof.
  apply (X6_zip_is_five_digits (Some "123 Main St, Brooklyn, NY 11201-1234"%string)
           "11201-1234").
  vm_compute. reflexivity.
Defined.

End MoreZip.

Module MoreFilter.
Import JsString Regex Patterns JsStringFacts RegexFacts FilterFacts.

Lemma Qltb_mono (x y y' : Q) : (y' <= y)%Q -> Qltb x y' = true -> Qltb x y = true.
Proof. rewrite !Qltb_true. intros H1 H2. eapply Qlt_le_trans; eassumption. Qed.

Lemma rating_ok_looser (b : BusinessRecord) (f f' : Filters) :
  (minRating f' <= minRating f)%Q -> rating_ok b f = true -> rating_ok b f' = true.
Proof.
  unfold rating_ok. destruct (rating b) as [r|]; [|reflexivity]. intros Hle.
  rewrite !negb_true_iff. intros H.
  destruct (Qltb 0 (minRating f')) eqn:E1; [|reflexivity].
  destruct (Qeq_bool r 0) eqn:E2; [reflexivity|].
  destruct (Qltb r (minRating f')) eqn:E3; [|reflexivity].
  rewrite (Qltb_mono _ _ _ Hle E1), (Qltb_mono _ _ _ Hle E3) in H. discriminate.
Qed.

Lemma reviews_ok_looser (b : BusinessRecord) (f f' : Filters) :
  (minReviews f' <= minReviews f)%Q -> reviews_ok b f = true -> reviews_ok b f' = true.
Proof.
  unfold reviews_ok. intros Hle. rewrite !negb_true_iff. intros H.
  destruct (Qltb 0 (minReviews f')) eqn:E1; [|reflexivity].
  destruct (reviewCount b =? 0)%Z eqn:E2; [reflexivity|].
  destruct (Qltb (inject_Z (reviewCount b)) (minReviews f')) eqn:E3; [|reflexivity].
  rewrite (Qltb_mono _ _ _ Hle E1), (Qltb_mono _ _ _ Hle E3) in H. discriminate.
Qed.

Lemma priceLevel_ok_looser (b : BusinessRecord) (f f' : Filters) :
  filterByPriceLevel f' = [] \/
  (filterByPriceLevel f <> [] /\ filterByPriceLevel f ⊆ filterByPriceLevel f') ->
  priceLevel_ok b f = true -> priceLevel_ok b f' = true.
Proof.
  unfold priceLevel_ok. intros [->|[Hne Hsub]]; [reflexivity|].
  destruct (filterByPriceLevel f) as [|l ls] eqn:E; [congruence|].
  destruct (filterByPriceLevel f') as [|l' ls']; [reflexivity|].
  destruct (truthy_str (priceLevel b)) as [level|]; [|reflexivity].
  intros H%bool_decide_eq_true. apply bool_decide_eq_true. now apply Hsub.
Qed.

Lemma priceRange_ok_looser (b : BusinessRecord) (f f' : Filters) :
  (minPrice f' <= minPrice f)%Q ->
  (maxPrice f' <= 0 \/ (0 < maxPrice f /\ maxPrice f <= maxPrice f'))%Q ->
  priceRange_ok b f = true -> priceRange_ok b f' = true.
Proof.
  intros Hmin Hmax. unfold priceRange_ok.
  destruct (Qltb 0 (minPrice f') || Qltb 0 (maxPrice f')) eqn:Eon'; [|reflexivity].
  assert (Eon : Qltb 0 (minPrice f) || Qltb 0 (maxPrice f) = true).
  { apply orb_true_iff in Eon' as [H|H].
    - rewrite (Qltb_mono _ _ _ Hmin H). reflexivity.
    - destruct Hmax as [Hmax|[Hmax _]].
      + apply Qltb_true in H. exfalso. eapply Qlt_not_le; eassumption.
      + apply Qltb_true in Hmax. rewrite Hmax. apply orb_true_r. }
  rewrite Eon.
  destruct (truthy_str (priceRange b)) as [range|]; [|reflexivity].
  destruct (match_all digitsRegex (chars range)) as [|first others]; [reflexivity|].
  destruct (parseInt first) as [n|]; [|reflexivity].
  destruct (Qltb 0 (minPrice f') && Qltb (inject_Z n) (minPrice f')) eqn:E1.
  { apply andb_prop in E1 as [Ha Hb].
    rewrite (Qltb_mono _ _ _ Hmin Ha), (Qltb_mono _ _ _ Hmin Hb). discriminate. }
  destruct (Qltb 0 (minPrice f) && Qltb (inject_Z n) (minPrice f)); [discriminate|].
  destruct (Qltb 0 (maxPrice f')) eqn:E2; [|reflexivity].
  destruct Hmax as [Hmax|[Hpos Hle]].
  { apply Qltb_true in E2. exfalso. eapply Qlt_not_le; eassumption. }
  apply Qltb_true in Hpos. rewrite Hpos.
  assert (Hcmp : negb (Qltb (maxPrice f) (inject_Z n)) = true ->
                 negb (Qltb (maxPrice f') (inject_Z n)) = true).
  { rewrite !negb_true_iff, !Qltb_false. intros H. eapply Qle_trans; eassumption. }
  destruct (includes (chars "+") (chars range)); [exact Hcmp|].
  destruct (List.length (first :: others) =? 2)%nat; [exact Hcmp|reflexivity].
Qed.

(** X8: loosening a filter never excludes a business.  A record that
    meets the criteria meets every filter whose minimum rating, minimum
    review count and minimum price are not higher, whose list of price
    levels is empty or contains the list of a filter that had one, and
    whose maximum price is switched off or not lower than a maximum that
    was set. *)
Theorem X8_looser_filter_still_met (b : BusinessRecord) (f f' : Filters) :
  (minRating f' <= minRating f)%Q ->
  (minReviews f' <= minReviews f)%Q ->
  filterByPriceLevel f' = [] \/
  (filterByPriceLevel f <> [] /\ filterByPriceLevel f ⊆ filterByPriceLevel f') ->
  (minPrice f' <= minPrice f)%Q ->
  (maxPrice f' <= 0 \/ (0 < maxPrice f /\ maxPrice f <= maxPrice f'))%Q ->
  meetsFilterCriteria b f = true -> meetsFilterCriteria b f' = true.
Proof.
  intros H1 H2 H3 H4 H5. rewrite !meetsFilterCriteria_and, !andb_true_iff.
  intros [[[Ha Hb] Hc] Hd].
  repeat split;
    eauto using rating_ok_looser, reviews_ok_looser, priceLevel_ok_looser,
      priceRange_ok_looser.
Qed.

Lemma X8_witness :
  meetsFilterCriteria (SampleRecords.priced (Some "$$$"%string) (Some "$30-50"%string))
    {| minRating := 4; minReviews := 20; filterByPriceLevel := ["$$"; "$$$"]%string;
       minPrice := 10; maxPrice := 60 |} = true.
Proof.
  apply (X8_looser_filter_still_met _
           {| minRating := 4.5; minReviews := 50; filterByPriceLevel := ["$$$"]%string;
              minPrice := 20; maxPrice := 40 |}).
  - vm_compute. discriminate.
  - vm_compute. discriminate.
  - right. split; [discriminate|]. intros x Hx%list_elem_of_singleton. subst.
    apply list_elem_of_further, list_elem_of_here.
  - vm_compute. discriminate.
  - right. split; vm_compute; [reflexivity|discriminate].
  - vm_compute. reflexivity.
Defined.

(** X21: thresholds that are zero or negative and an empty list of price
    levels, the defaults of the input among them, switch every check off:
    every record meets such a filter. *)
Theorem X21_filters_off_accept_everything (b : BusinessRecord) (f : Filters) :
  (minRating f <= 0)%Q -> (minReviews f <= 0)%Q -> filterByPriceLevel f = [] ->
  (minPrice f <= 0)%Q -> (maxPrice f <= 0)%Q ->
  meetsFilterCriteria b f = true.
Proof.
  intros H1%Qltb_false H2%Qltb_false H3 H4%Qltb_false H5%Qltb_false.
  rewrite meetsFilterCriteria_and.
  unfold rating_ok, reviews_ok, priceLevel_ok, priceRange_ok.
  rewrite H1, H2, H3, H4, H5. cbn. now destruct (rating b).
Qed.

Lemma X21_witness :
  meetsFilterCriteria (SampleRecords.priced (Some "$$$"%string) (Some "$30-50"%string))
    Sample.no_filters = true.
Proof.
  apply X21_filters_off_accept_everything;
    (reflexivity || (vm_compute; discriminate)).
Defined.

End MoreFilter.

(** ** The listing walk: cap, provenance, single visits, static pages *)

Module MoreWalk.
Import JsString JsStringFacts WalkFacts ValidatorFacts.

(** A successful extraction: the card has a URL that was not seen, and the
    record does not depend on what was seen. *)
Lemma extract_Some (flag : bool) (card : Card) (seen seen' : gset string) (raw : RawData) :
  extractBusinessData card seen flag = (Some raw, seen') ->
  raw_of flag card = Some raw /\
  exists u, card_url card = Some u /\ (u ∉ seen) /\ seen' = {[u]} ∪ seen.
Proof.
  unfold raw_of, card_url, extractBusinessData.
  destruct (truthy_str (href card)) as [u|]; [|discriminate].
  case_bool_decide as Hin; [discriminate|].
  rewrite bool_decide_eq_false_2 by apply not_elem_of_empty.
  destruct (panel card) as [view|]; [|discriminate].
  destruct (truthy_str (dv_businessName view)) as [name|]; [|discriminate].
  intros [= <- <-]. split; [reflexivity|]. exists u. auto.
Qed.

Lemma extract_seen (flag : bool) (card : Card) (seen : gset string) :
  (forall u, card_url card = Some u -> u ∈ seen) ->
  extractBusinessData card seen flag = (None, seen).
Proof.
  unfold card_url, extractBusinessData. intros H.
  destruct (truthy_str (href card)) as [u|]; [|reflexivity].
  now rewrite bool_decide_eq_true_2 by (now apply H).
Qed.

Lemma extract_grows (flag : bool) (card : Card) (seen : gset string) :
  seen ⊆ snd (extractBusinessData card seen flag) /\
  forall u, card_url card = Some u -> u ∈ snd (extractBusinessData card seen flag).
Proof.
  unfold card_url, extractBusinessData.
  destruct (truthy_str (href card)) as [u|]; [|split; [set_solver|discriminate]].
  case_bool_decide as Hin.
  - split; [set_solver|]. now intros ? [= <-].
  - assert (Hu : seen ⊆ {[u]} ∪ seen /\ forall v, Some u = Some v -> v ∈ {[u]} ∪ seen).
    { split; [set_solver|]. intros ? [= <-]. set_solver. }
    destruct (panel card) as [view|]; [|exact Hu].
    destruct (truthy_str (dv_businessName view)); exact Hu.
Qed.

Section Walk.
Variable fround : Q -> Q.
Variable URL_parse : string -> option (string * string).
Variable blacklist : Blacklist.
Variable maxResults : Z.
Variable filters : Filters.
Variable flag : bool.

Local Abbreviation Validate := (validateBusinessData fround URL_parse blacklist).
Local Abbreviation Visit := (visit fround URL_parse blacklist filters flag).
Local Abbreviation VisitAll := (visit_all fround URL_parse blacklist maxResults filters flag).
Local Abbreviation Accepted := (accepted fround URL_parse blacklist filters flag).
Local Abbreviation BelowCap := (below_cap maxResults).
Local Abbreviation Turn := (turn fround URL_parse blacklist maxResults filters flag).
Local Abbreviation Cap := (cap maxResults).

Lemma seenUrls_visit (card : Card) (w : Walk) :
  seenUrls (Visit card w) = snd (extractBusinessData card (seenUrls w) flag).
Proof.
  unfold visit.
  destruct (extractBusinessData card (seenUrls w) flag) as [[raw|] seen]; cbn; [|reflexivity].
  destruct (Validate raw) as [[b|]|]; cbn; try reflexivity.
  destruct (meetsFilterCriteria b filters); reflexivity.
Qed.

(** What a visit does to the records: nothing, or it appends the record the
    card is accepted with. *)
Lemma visit_cases (card : Card) (w : Walk) :
  businesses (Visit card w) = businesses w \/
  exists b, businesses (Visit card w) = businesses w ++ [b] /\
            Accepted card = [b] /\ meetsFilterCriteria b filters = true.
Proof.
  unfold visit, accepted.
  destruct (extractBusinessData card (seenUrls w) flag) as [[raw|] seen] eqn:E; cbn;
    [|now left].
  apply extract_Some in E as [-> _].
  destruct (Validate raw) as [[b|]|]; cbn; try now left.
  destruct (meetsFilterCriteria b filters) eqn:Em; [|now left].
  right. exists b. auto.
Qed.

Lemma visit_known (card : Card) (w : Walk) :
  (forall u, card_url card = Some u -> u ∈ seenUrls w) ->
  businesses (Visit card w) = businesses w /\ seenUrls (Visit card w) = seenUrls w.
Proof.
  intros H. unfold visit. rewrite (extract_seen _ _ _ H). cbn. auto.
Qed.

Lemma visit_all_sound (P : BusinessRecord -> Prop) (cards : list Card) :
  (forall c b, c ∈ cards -> Accepted c = [b] -> meetsFilterCriteria b filters = true -> P b) ->
  forall w,
    (List.length (businesses w) <= Cap)%nat -> Forall P (businesses w) ->
    (List.length (businesses (VisitAll cards w)) <= Cap)%nat /\
    Forall P (businesses (VisitAll cards w)) /\
    businesses w `prefix_of` businesses (VisitAll cards w).
Proof.
  induction cards as [|c cards IH]; intros HP w Hlen Hall; cbn [visit_all].
  - auto.
  - destruct (BelowCap w) eqn:Hb; [|auto]. apply below_cap_lt in Hb.
    assert (Hstep : (List.length (businesses (Visit c w)) <= Cap)%nat /\
                    Forall P (businesses (Visit c w)) /\
                    businesses w `prefix_of` businesses (Visit c w)).
    { destruct (visit_cases c w) as [->|(b & -> & Hacc & Hm)]; [auto|].
      rewrite length_app. cbn. split; [lia|]. split.
      - apply Forall_app. split; [exact Hall|]. constructor; [|constructor].
        apply (HP c b); [apply list_elem_of_here|exact Hacc|exact Hm].
      - now apply prefix_app_r. }
    destruct Hstep as (H1 & H2 & H3).
    destruct (IH (fun c' b Hc => HP c' b (list_elem_of_further _ _ _ Hc)) _ H1 H2)
      as (H4 & H5 & H6).
    split; [exact H4|]. split; [exact H5|]. etransitivity; eassumption.
Qed.

Lemma turn_businesses (links : list Card) (w : Walk) :
  businesses (fst (Turn links w)) =
  businesses (VisitAll (drop (previousCount w) links) w).
Proof. unfold turn. destruct (_ && _); reflexivity. Qed.

Section Feed.
Variable feed : nat -> list Card.

Local Abbreviation WalkFrom :=
  (walk_from fround URL_parse blacklist maxResults filters flag feed).

Lemma walk_from_sound (P : BusinessRecord -> Prop) :
  (forall i c b, c ∈ feed i -> Accepted c = [b] ->
                 meetsFilterCriteria b filters = true -> P b) ->
  forall fuel i w w',
    (List.length (businesses w) <= Cap)%nat -> Forall P (businesses w) ->
    WalkFrom fuel i w = Some w' ->
    (List.length (businesses w') <= Cap)%nat /\
    Forall P (businesses w') /\
    businesses w `prefix_of` businesses w'.
Proof.
  intros HP. induction fuel as [|fuel IH]; intros i w w' Hlen Hall; cbn [walk_from];
    [discriminate|].
  destruct (BelowCap w); [|intros [= <-]; auto].
  destruct (Turn (feed i) w) as [w1 stop] eqn:Et.
  assert (Hturn : (List.length (businesses w1) <= Cap)%nat /\
                  Forall P (businesses w1) /\
                  businesses w `prefix_of` businesses w1).
  { change w1 with (fst (w1, stop)). rewrite <- Et, turn_businesses.
    apply visit_all_sound; [|exact Hlen|exact Hall].
    intros c b Hc. apply (HP i). eapply subseteq_drop, Hc. }
  destruct Hturn as (H1 & H2 & H3). destruct stop.
  - intros [= <-]. auto.
  - intros Hw. apply IH in Hw as (H4 & H5 & H6); [|exact H1|exact H2].
    split; [exact H4|]. split; [exact H5|]. etransitivity; eassumption.
Qed.

Lemma walk_from_more (k : nat) :
  forall fuel i w w', WalkFrom fuel i w = Some w' -> WalkFrom (fuel + k) i w = Some w'.
Proof.
  induction fuel as [|fuel IH]; intros i w w'; [discriminate|]. cbn [walk_from Nat.add].
  destruct (BelowCap w); [|auto].
  destruct (Turn (feed i) w) as [w1 stop]. destruct stop; [auto|apply IH].
Qed.

End Feed.
End Walk.

(** X9: the listing walk never returns more records than [maxResults],
    and none at all when [maxResults] is zero or negative. *)
Theorem X9_walk_respects_the_cap
  (fround : Q -> Q) (URL_parse : string -> option (string * string))
  (blacklist : Blacklist) (maxResults : Z) (filters : Filters) (flag : bool)
  (feed : nat -> list Card) (fuel : nat) (result : list BusinessRecord) :
  extractBusinessListings fround URL_parse blacklist maxResults filters flag feed fuel
  = Some result ->
  (Z.of_nat (List.length result) <= Z.max 0 maxResults)%Z /\
  ((maxResults <= 0)%Z -> result = []).
Proof.
  unfold extractBusinessListings.
  destruct (walk_from _ _ _ _ _ _ _ fuel 0 initial) as [w|] eqn:E; [|discriminate].
  intros [= <-].
  apply (walk_from_sound _ _ _ _ _ _ _ (fun _ => True)) in E as (Hlen & _ & _);
    [|auto|cbn; lia|constructor].
  unfold cap in Hlen. split; [lia|]. intros Hz.
  destruct (businesses w); [reflexivity|]. cbn in Hlen. lia.
Qed.

Lemma X9_witness :
  (Z.of_nat (List.length
     [SampleFeed.listed (Some "A") "https://www.google.com/maps/place/a";
      SampleFeed.listed (Some "C") "https://www.google.com/maps/place/c"]%string)
   <= Z.max 0 2)%Z /\
  ((2 <= 0)%Z ->
   [SampleFeed.listed (Some "A") "https://www.google.com/maps/place/a";
    SampleFeed.listed (Some "C") "https://www.google.com/maps/place/c"]%string = []).
Proof.
  apply (X9_walk_respects_the_cap Sample.exact Sample.simple_URL Sample.blacklist 2
           Sample.no_filters false SampleFeed.five 1).
  vm_compute. reflexivity.
Defined.

(** X10: every record the listing walk returns meets the filter criteria
    and is the validated record of a card of the feed. *)
Theorem X10_walk_returns_accepted_cards
  (fround : Q -> Q) (URL_parse : string -> option (string * string))
  (blacklist : Blacklist) (maxResults : Z) (filters : Filters) (flag : bool)
  (feed : nat -> list Card) (fuel : nat) (result : list BusinessRecord) :
  extractBusinessListings fround URL_parse blacklist maxResults filters flag feed fuel
  = Some result ->
  forall b, b ∈ result ->
    meetsFilterCriteria b filters = true /\
    exists i card, card ∈ feed i /\
      accepted fround URL_parse blacklist filters flag card = [b].
Proof.
  unfold extractBusinessListings.
  destruct (walk_from _ _ _ _ _ _ _ fuel 0 initial) as [w|] eqn:E; [|discriminate].
  intros [= <-].
  apply (walk_from_sound _ _ _ _ _ _ _
           (fun b => meetsFilterCriteria b filters = true /\
                     exists i card, card ∈ feed i /\
                       accepted fround URL_parse blacklist filters flag card = [b]))
    in E as (_ & Hall & _); [|eauto|cbn; lia|constructor].
  intros b Hb. rewrite Forall_forall in Hall. now apply Hall.
Qed.

Lemma X10_witness :
  meetsFilterCriteria
    (SampleFeed.listed (Some "C") "https://www.google.com/maps/place/c")
    Sample.no_filters = true /\
  exists i card, card ∈ SampleFeed.five i /\
    accepted Sample.exact Sample.simple_URL Sample.blacklist Sample.no_filters false card
    = [SampleFeed.listed (Some "C") "https://www.google.com/maps/place/c"].
Proof.
  apply (X10_walk_returns_accepted_cards Sample.exact Sample.simple_URL Sample.blacklist 2
           Sample.no_filters false SampleFeed.five 1
           [SampleFeed.listed (Some "A") "https://www.google.com/maps/place/a";
            SampleFeed.listed (Some "C") "https://www.google.com/maps/place/c"]%string).
  - vm_compute. reflexivity.
  - apply list_elem_of_further, list_elem_of_here.
Defined.

End MoreWalk.

Module MoreWalkPages.
Import JsString JsStringFacts WalkFacts ValidatorFacts MoreWalk.

Section Validated.
Variable fround : Q -> Q.
Variable URL_parse : string -> option (string * string).
Variable blacklist : Blacklist.

Lemma parseRating_text (o : option string) :
  exists r, parseRating fround (opt_value o) = Normal r.
Proof.
  unfold parseRating. destruct o as [t|]; cbn [opt_value]; [|eauto].
  destruct (chars t); [eauto|].
  destruct (Regex.exec Patterns.ratingRegex _); eauto.
Qed.

Lemma parseReviewCount_text (s : string) :
  exists n, parseReviewCount (VStr s) = Normal n.
Proof.
  unfold parseReviewCount. destruct (chars s); [eauto|].
  destruct (Regex.exec Patterns.reviewRegex _); eauto.
Qed.

(** The validator returns when the rating and the review count are texts. *)
Lemma validate_texts (raw : RawData) (o : option string) (s : string) :
  raw_rating raw = opt_value o -> raw_reviewCount raw = VStr s ->
  exists b, validateBusinessData fround URL_parse blacklist raw = Normal (Some b).
Proof.
  intros Ho Hs. unfold validateBusinessData.
  destruct (parseCoordinates fround (raw_googleMapsUrl raw)) as [la lo].
  rewrite Ho, Hs.
  destruct (parseRating_text o) as [r ->], (parseReviewCount_text s) as [n ->].
  eexists. reflexivity.
Qed.

(** X11: the validator never throws on a record [extractBusinessData]
    returns, and always makes a record of it.  In that record the email
    source is [google_profile] or [not_found], there is at most one email,
    and none when the source is [not_found]. *)
Theorem X11_extracted_record_validates
  (card : Card) (seen seen' : gset string) (flag : bool) (raw : RawData) :
  extractBusinessData card seen flag = (Some raw, seen') ->
  exists b, validateBusinessData fround URL_parse blacklist raw = Normal (Some b) /\
    (emailSource b = "google_profile"%string \/ emailSource b = "not_found"%string) /\
    (List.length (emails b) <= 1)%nat /\
    (emailSource b = "not_found"%string -> emails b = []).
Proof.
  unfold extractBusinessData.
  destruct (truthy_str (href card)) as [u|]; [|discriminate].
  case_bool_decide; [discriminate|].
  destruct (panel card) as [view|]; [|discriminate].
  destruct (truthy_str (dv_businessName view)) as [name|]; [|discriminate].
  intros [= Hraw _].
  assert (Hrating : raw_rating raw = opt_value (dv_rating view)) by now subst raw.
  assert (Hcount : raw_reviewCount raw = VStr (dv_reviewCount view)) by now subst raw.
  assert (Hmail : (raw_emails raw = Some [] /\ raw_emailSource raw = Some "not_found"%string) \/
                  exists e, raw_emails raw = Some [e] /\
                            raw_emailSource raw = Some "google_profile"%string).
  { subst raw. cbn [raw_emails raw_emailSource].
    destruct (truthy_str (dv_profileEmail view)) as [e|]; eauto. }
  clear Hraw.
  destruct (validate_texts raw _ _ Hrating Hcount) as [b Hb]. exists b.
  split; [exact Hb|].
  apply validated_fields in Hb as (b' & [= <-] & Hf).
  destruct Hf as (_ & _ & _ & _ & _ & _ & _ & _ & _ & _ & _ & _ & He & Hs & _).
  rewrite He, Hs.
  destruct Hmail as [[-> ->]|(e & -> & ->)]; cbn.
  - split; [now right|]. split; [lia|reflexivity].
  - split; [now left|]. destruct (validateEmail blacklist e); cbn; split; (lia || discriminate).
Qed.

End Validated.

Lemma X11_witness :
  exists b,
    validateBusinessData Sample.exact Sample.simple_URL Sample.blacklist
      {| raw_businessName := VStr "A"; raw_address := None; raw_phone := None;
         raw_website := None; raw_rating := VNull; raw_reviewCount := VStr "0";
         raw_category := None; raw_priceLevel := None; raw_priceRange := None;
         raw_googleMapsUrl := Some "https://www.google.com/maps/place/a"%string;
         raw_emails := Some []; raw_emailSource := Some "not_found"%string;
         raw_businessHours := None |} = Normal (Some b) /\
    (emailSource b = "google_profile"%string \/ emailSource b = "not_found"%string) /\
    (List.length (emails b) <= 1)%nat /\
    (emailSource b = "not_found"%string -> emails b = []).
Proof.
  apply (X11_extracted_record_validates Sample.exact Sample.simple_URL Sample.blacklist
           SampleFeed.c1 ∅ {[ "/place/a"%string ]} false).
  vm_compute. reflexivity.
Defined.

End MoreWalkPages.

Module MoreWalkOnce.
Import JsString JsStringFacts WalkFacts ValidatorFacts MoreWalk.

Section Once.
Variable fround : Q -> Q.
Variable URL_parse : string -> option (string * string).
Variable blacklist : Blacklist.
Variable maxResults : Z.
Variable filters : Filters.
Variable flag : bool.

Local Abbreviation Visit := (visit fround URL_parse blacklist filters flag).
Local Abbreviation Accepted := (accepted fround URL_parse blacklist filters flag).

(** X12: a card is extracted at most once.  The set of seen URLs only
    grows; a card whose URL has been seen, or that has none, leaves the
    records and the set as they are; so visiting a card again right away adds
    no record. *)
Theorem X12_card_visited_once (card : Card) (w : Walk) :
  seenUrls w ⊆ seenUrls (Visit card w) /\
  ((forall u, card_url card = Some u -> u ∈ seenUrls w) ->
   businesses (Visit card w) = businesses w /\
   seenUrls (Visit card w) = seenUrls w) /\
  businesses (Visit card (Visit card w)) = businesses (Visit card w).
Proof.
  pose proof (extract_grows flag card (seenUrls w)) as [Hsub Hin].
  rewrite <- (seenUrls_visit fround URL_parse blacklist filters) in Hsub, Hin.
  split; [exact Hsub|]. split.
  - apply visit_known.
  - apply visit_known. exact Hin.
Qed.

Section Static.
Variable cards : list Card.

Local Abbreviation WalkFrom :=
  (walk_from fround URL_parse blacklist maxResults filters flag (fun _ => cards)).
Local Abbreviation Turn := (turn fround URL_parse blacklist maxResults filters flag).

(** X13: on a page that never changes, of cards with distinct links, the
    walk returns the accepted records of the cards in page order, cut at
    [maxResults]; four turns are enough. *)
Theorem X13_walk_of_a_static_page (k : nat) :
  NoDup (map href cards) ->
  extractBusinessListings fround URL_parse blacklist maxResults filters flag
    (fun _ => cards) (4 + k)
  = Some (take (cap maxResults) (flat_map Accepted cards)).
Proof.
  intros Hnd. unfold extractBusinessListings.
  assert (Hpage : businesses (fst (Turn cards initial)) =
                  take (cap maxResults) (flat_map Accepted cards)).
  { rewrite turn_businesses. cbn [previousCount initial]. rewrite drop_0.
    rewrite visit_all_unseen; [reflexivity|exact Hnd| |cbn; lia].
    intros c _ u _. apply not_elem_of_empty. }
  change (4 + k)%nat with (S (3 + k)).
  assert (Hunfold : WalkFrom (S (3 + k)) 0 initial =
            if below_cap maxResults initial
            then let '(w', stop) := Turn cards initial in
                 if stop then Some w' else WalkFrom (3 + k) 1 w'
            else Some initial) by reflexivity.
  rewrite Hunfold. clear Hunfold.
  destruct (below_cap maxResults initial) eqn:Hb.
  - destruct (Turn cards initial) as [w1 stop] eqn:Et. cbn [fst] in Hpage.
    destruct stop; [cbn; now rewrite Hpage|].
    assert (Hcount : previousCount w1 = List.length cards).
    { change w1 with (fst (w1, false)). rewrite <- Et.
      apply (turn_counters fround URL_parse blacklist maxResults filters flag).
      now rewrite Et. }
    destruct (three_stalls fround URL_parse blacklist maxResults filters flag
                (fun _ => cards) 1 w1) as (w' & Hw' & Hsame); try (symmetry; exact Hcount).
    apply (walk_from_more _ _ _ _ _ _ _ k) in Hw'.
    rewrite Hw'. cbn. now rewrite Hsame, Hpage.
  - cbn. apply Z.ltb_ge in Hb. cbn in Hb. unfold cap.
    replace (Z.to_nat maxResults) with 0%nat by lia. reflexivity.
Qed.

End Static.
End Once.

Lemma X12_witness :
  let w := {| businesses := []; seenUrls := {[ "/place/a"%string ]}; previousCount := 0;
              noNewResultsCount := 0; firstDebugDone := false |} in
  let v := visit Sample.exact Sample.simple_URL Sample.blacklist Sample.no_filters false
             SampleFeed.c1 in
  businesses (v w) = businesses w /\ seenUrls (v w) = seenUrls w.
Proof.
  intros w v.
  apply (X12_card_visited_once Sample.exact Sample.simple_URL Sample.blacklist
           Sample.no_filters false SampleFeed.c1 w).
  intros u [= <-]. vm_compute. reflexivity.
Defined.

Lemma X13_witness :
  SampleFeed.walk 2 SampleFeed.five 4 =
  Some (take (cap 2)
          (flat_map (accepted Sample.exact Sample.simple_URL Sample.blacklist
                       Sample.no_filters false)
             [SampleFeed.c1; SampleFeed.c2; SampleFeed.c3; SampleFeed.c4; SampleFeed.c5])).
Proof.
  apply (X13_walk_of_a_static_page Sample.exact Sample.simple_URL Sample.blacklist 2
           Sample.no_filters false
           [SampleFeed.c1; SampleFeed.c2; SampleFeed.c3; SampleFeed.c4; SampleFeed.c5] 0).
  apply (bool_decide_unpack _). vm_compute. exact I.
Defined.

End MoreWalkOnce.

(** ** The crawl for email addresses *)

Module MoreEmailFinder.
Import JsString Regex JsStringFacts EmailFacts.

Lemma first_occurrences_fix (l : list string) : NoDup l -> first_occurrences l = l.
Proof.
  induction 1 as [|x t Hx _ IH]; simpl; [reflexivity|]. rewrite IH. f_equal.
  apply IdempotenceFacts.filter_fix, Forall_forall. intros y Hy ->. now apply Hx.
Qed.

Lemma extracted_acceptable (bl : Blacklist) (html e : string) :
  e ∈ extractEmailsFromHTML bl html -> acceptable bl e.
Proof.
  rewrite extractEmailsFromHTML_eq, first_occurrences_elem. apply omap_validateEmail.
Qed.

Lemma extracted_NoDup (bl : Blacklist) (html : string) :
  NoDup (extractEmailsFromHTML bl html).
Proof. rewrite extractEmailsFromHTML_eq. apply first_occurrences_NoDup. Qed.

Section Finder.
Variable blacklist : Blacklist.
Variable goto : string -> option Page.

Lemma visit_contacts_sound (links : list string) :
  forall s, NoDup s ->
  NoDup (fold_left (visit_contact blacklist goto) links s) /\
  s `prefix_of` fold_left (visit_contact blacklist goto) links s /\
  forall e, e ∈ fold_left (visit_contact blacklist goto) links s ->
    e ∈ s \/
    exists link page, link ∈ links /\ goto link = Some page /\
      e ∈ extractEmailsFromHTML blacklist (content page).
Proof.
  induction links as [|link links IH]; intros s Hnd; cbn [fold_left]; [auto|].
  assert (Hstep : NoDup (visit_contact blacklist goto s link) /\
                  s `prefix_of` visit_contact blacklist goto s link /\
                  forall e, e ∈ visit_contact blacklist goto s link ->
                    e ∈ s \/ exists page, goto link = Some page /\
                                e ∈ extractEmailsFromHTML blacklist (content page)).
  { unfold visit_contact. destruct (goto link) as [page|]; [|auto].
    rewrite add_all_first_occurrences,
      (first_occurrences_fix _ (extracted_NoDup blacklist (content page))).
    split; [|split].
    - apply NoDup_app. split; [exact Hnd|]. split.
      + intros e He [Hn _]%list_elem_of_filter. now apply Hn.
      + apply NoDup_filter, extracted_NoDup.
    - now apply prefix_app_r.
    - intros e [He|[_ He]%list_elem_of_filter]%elem_of_app; [now left|]. right. eauto. }
  destruct Hstep as (H1 & H2 & H3). destruct (IH _ H1) as (H4 & H5 & H6).
  split; [exact H4|]. split; [etransitivity; eassumption|].
  intros e [He|(l & p & Hl & Hp & He)]%H6.
  - apply H3 in He as [He|(p & Hp & He)]; [now left|]. right.
    exists link, p. split; [apply list_elem_of_here|auto].
  - right. exists l, p. split; [now apply list_elem_of_further|auto].
Qed.

(** X14: the addresses [findEmailOnWebsite] returns hold no repetition
    and begin with the addresses of the main page in the order that page
    has them; each comes from the main page or from one of the first two
    contact links that could be loaded, and passes the blacklist and the
    syntax check. *)
Theorem X14_crawl_result_is_a_clean_set (websiteUrl : option string) (es : list string) :
  findEmailOnWebsite blacklist goto websiteUrl = Some es ->
  NoDup es /\
  (forall e, e ∈ es -> acceptable blacklist e) /\
  exists url page, websiteUrl = Some url /\ goto url = Some page /\
    extractEmailsFromHTML blacklist (content page) `prefix_of` es /\
    forall e, e ∈ es ->
      e ∈ extractEmailsFromHTML blacklist (content page) \/
      exists link page', link ∈ take 2 (findContactPages page) /\
        goto link = Some page' /\
        e ∈ extractEmailsFromHTML blacklist (content page').
Proof.
  unfold findEmailOnWebsite.
  destruct (truthy_str websiteUrl) as [url|] eqn:Eu; [|discriminate].
  apply truthy_str_Some in Eu as [-> _].
  destruct (goto url) as [page|] eqn:Eg; [|discriminate].
  assert (Hmain : JsSet.add_all (extractEmailsFromHTML blacklist (content page)) [] =
                  extractEmailsFromHTML blacklist (content page)).
  { rewrite add_all_first_occurrences, (first_occurrences_fix _ (extracted_NoDup _ _)).
    cbn [app]. apply IdempotenceFacts.filter_fix, Forall_forall.
    intros x _. apply not_elem_of_nil. }
  rewrite Hmain.
  destruct (visit_contacts_sound (take 2 (findContactPages page)) _
              (extracted_NoDup blacklist (content page))) as (H1 & H2 & H3).
  destruct (fold_left _ _ _) as [|e0 es0] eqn:Ef; [discriminate|]. intros [= <-].
  split; [exact H1|]. split.
  - intros e [He|(l & p & _ & _ & He)]%H3; eapply extracted_acceptable, He.
  - exists url, page. split; [reflexivity|]. split; [exact Eg|]. split; [exact H2|exact H3].
Qed.

Lemma with_emails_eta (b : BusinessRecord) : with_emails b (emails b) (emailSource b) = b.
Proof. now destruct b. Qed.

(** X15: [batchFindEmails] returns as many records as it is given, in the
    same order, and changes nothing but the emails and their source.  A
    record with a website ends with the source [website] and at least one
    email, or with the source [not_found] and no email, whatever it held
    before. *)
Theorem X15_enrichment_touches_emails_only (businesses : list BusinessRecord) :
  List.length (batchFindEmails blacklist goto businesses) = List.length businesses /\
  forall i b, businesses !! i = Some b ->
    exists b', batchFindEmails blacklist goto businesses !! i = Some b' /\
      b' = with_emails b (emails b') (emailSource b') /\
      (truthy_str (website b) <> None ->
       (emailSource b' = "website"%string /\ emails b' <> []) \/
       (emailSource b' = "not_found"%string /\ emails b' = [])).
Proof.
  unfold batchFindEmails. split; [apply length_map|].
  intros i b Hb. rewrite list_lookup_fmap, Hb. cbn. eexists. split; [reflexivity|].
  unfold findEmails_task. destruct (truthy_str (website b)) as [url|] eqn:Eu.
  - destruct (findEmailOnWebsite blacklist goto (website b)) as [found|] eqn:Ef.
    + split; [reflexivity|]. intros _. left. split; [reflexivity|]. cbn.
      eapply EnrichFacts.findEmailOnWebsite_nonempty, Ef.
    + split; [reflexivity|]. intros _. right. auto.
  - split; [symmetry; apply with_emails_eta|congruence].
Qed.

End Finder.

Lemma X14_witness :
  NoDup ["sales@shop.org"; "desk@shop.org"]%string /\
  (forall e, e ∈ ["sales@shop.org"; "desk@shop.org"]%string ->
             acceptable Sample.blacklist e) /\
  exists url page, Some "https://shop.org/"%string = Some url /\
    SampleSites.web url = Some page /\
    extractEmailsFromHTML Sample.blacklist (content page)
      `prefix_of` ["sales@shop.org"; "desk@shop.org"]%string /\
    forall e, e ∈ ["sales@shop.org"; "desk@shop.org"]%string ->
      e ∈ extractEmailsFromHTML Sample.blacklist (content page) \/
      exists link page', link ∈ take 2 (findContactPages page) /\
        SampleSites.web link = Some page' /\
        e ∈ extractEmailsFromHTML Sample.blacklist (content page').
Proof.
  apply (X14_crawl_result_is_a_clean_set Sample.blacklist SampleSites.web
           (Some "https://shop.org/"%string)).
  vm_compute. reflexivity.
Defined.

Lemma X15_witness :
  exists b',
    batchFindEmails Sample.blacklist SampleSites.web
      [SampleSites.from_profile (Some "https://shop.org/"%string)] !! 0%nat = Some b' /\
    b' = with_emails (SampleSites.from_profile (Some "https://shop.org/"%string))
           (emails b') (emailSource b') /\
    (truthy_str (website (SampleSites.from_profile (Some "https://shop.org/"%string))) <> None ->
     (emailSource b' = "website"%string /\ emails b' <> []) \/
     (emailSource b' = "not_found"%string /\ emails b' = [])).
Proof.
  apply (X15_enrichment_touches_emails_only Sample.blacklist SampleSites.web
           [SampleSites.from_profile (Some "https://shop.org/"%string)]).
  reflexivity.
Defined.

End MoreEmailFinder.

(** ** Choosing an address, reading a mailto link, reading a text *)

Module MoreSelectors.
Import JsString Regex JsStringFacts TrimFacts CleanFacts NormalFormFacts Prioritize Selectors.

Lemma head_insert_by (f : string -> nat) (x y : string) (t : list string) :
  head (insert_by f x (y :: t)) = Some (if (f x <? f y)%nat then x else y).
Proof. simpl. now destruct (f x <? f y)%nat. Qed.

Lemma head_sort_by (f : string -> nat) (l : list string) :
  forall sorted,
    head (fold_left (fun sorted x => insert_by f x sorted) l sorted) =
    fold_left (fun best x =>
                 match best with
                 | Some y => Some (if (f x <? f y)%nat then x else y)
                 | None => Some x
                 end) l (head sorted).
Proof.
  induction l as [|x l IH]; intros sorted; [reflexivity|]. cbn [fold_left].
  rewrite IH. f_equal. destruct sorted as [|y t]; [reflexivity|apply head_insert_by].
Qed.

(** The element a left-to-right pass keeps when a later one replaces the
    best so far only if it scores strictly less. *)
Lemma first_least (f : string -> nat) (l : list string) :
  forall y r,
    fold_left (fun best x =>
                 match best with
                 | Some y => Some (if (f x <? f y)%nat then x else y)
                 | None => Some x
                 end) l (Some y) = Some r ->
    (r = y /\ forall e, e ∈ l -> (f y <= f e)%nat) \/
    (exists before after, l = before ++ r :: after /\ (f r < f y)%nat /\
       (forall e, e ∈ before -> (f r < f e)%nat) /\
       (forall e, e ∈ after -> (f r <= f e)%nat)).
Proof.
  induction l as [|x l IH]; intros y r; cbn [fold_left].
  - intros [= <-]. left. split; [reflexivity|]. intros e []%not_elem_of_nil.
  - destruct (Nat.ltb_spec (f x) (f y)) as [Hlt|Hge]; intros H; apply IH in H.
    + right. destruct H as [[-> Hall]|(before & after & -> & Hr & Hb & Ha)].
      * exists [], l. split; [reflexivity|]. split; [exact Hlt|].
        split; [intros e []%not_elem_of_nil|exact Hall].
      * exists (x :: before), after. split; [reflexivity|]. split; [lia|].
        split; [|exact Ha]. intros e [->|He]%elem_of_cons; [exact Hr|now apply Hb].
    + destruct H as [[-> Hall]|(before & after & -> & Hr & Hb & Ha)].
      * left. split; [reflexivity|].
        intros e [->|He]%elem_of_cons; [exact Hge|now apply Hall].
      * right. exists (x :: before), after. split; [reflexivity|]. split; [exact Hr|].
        split; [|exact Ha]. intros e [->|He]%elem_of_cons; [lia|now apply Hb].
Qed.

(** X16: of a non-empty list [prioritizeEmails] picks the first address
    whose score is the least: every address before it scores strictly more,
    every address after it at least as much.  It returns that address, or
    null when the address is the empty string. *)
Theorem X16_prioritizeEmails_picks_first_best (emails : list string) :
  emails <> [] ->
  exists before best after,
    emails = before ++ best :: after /\
    (forall e, e ∈ before -> (score best < score e)%nat) /\
    (forall e, e ∈ after -> (score best <= score e)%nat) /\
    prioritizeEmails (Some emails) = truthy_str (Some best).
Proof.
  destruct emails as [|x l]; [congruence|]. intros _.
  unfold prioritizeEmails, sort_by. rewrite head_sort_by. cbn [fold_left head].
  destruct (fold_left _ l (Some x)) as [r|] eqn:E.
  - apply first_least in E as [[-> Hall]|(before & after & -> & Hr & Hb & Ha)].
    + exists [], x, l. split; [reflexivity|]. split; [intros e []%not_elem_of_nil|].
      split; [exact Hall|reflexivity].
    + exists (x :: before), r, after. split; [reflexivity|].
      split; [|split; [exact Ha|reflexivity]].
      intros e [->|He]%elem_of_cons; [exact Hr|now apply Hb].
  - exfalso. revert E. generalize x. induction l as [|a l IH]; intros y; [discriminate|].
    cbn [fold_left]. apply IH.
Qed.

Lemma X16_witness :
  exists before best after,
    ["joe@shop.org"; "Sales@shop.org"; "team@shop.org"; "contact@shop.org";
     "reachinfo@shop.org"; "info@shop.org"]%string = before ++ best :: after /\
    (forall e, e ∈ before -> (score best < score e)%nat) /\
    (forall e, e ∈ after -> (score best <= score e)%nat) /\
    prioritizeEmails
      (Some ["joe@shop.org"; "Sales@shop.org"; "team@shop.org"; "contact@shop.org";
             "reachinfo@shop.org"; "info@shop.org"]%string) = truthy_str (Some best).
Proof.
  apply (X16_prioritizeEmails_picks_first_best
           ["joe@shop.org"; "Sales@shop.org"; "team@shop.org"; "contact@shop.org";
            "reachinfo@shop.org"; "info@shop.org"]%string).
  discriminate.
Defined.

Lemma remove_first_prefix (sub l : list ascii) :
  remove_first sub (sub ++ l) = l.
Proof.
  assert (H : startsWith sub (sub ++ l) = true).
  { induction sub as [|a sub IH]; [reflexivity|]. simpl.
    unfold is_char at 1. now rewrite Nat.eqb_refl. }
  assert (Hdrop : remove_first sub (sub ++ l) = drop (List.length sub) (sub ++ l)).
  { destruct (sub ++ l); simpl in *; now rewrite H. }
  rewrite Hdrop. apply drop_app_length.
Qed.

Lemma split_head (sep : ascii) (a rest : list ascii) :
  forallb (fun c => negb (is_char sep c)) a = true ->
  rest = [] \/ (exists c t, rest = c :: t /\ is_char sep c = true) ->
  head (split sep (a ++ rest)) = Some a.
Proof.
  intros Ha Hrest. induction a as [|c a IH]; simpl.
  - destruct Hrest as [->|(c & t & -> & Hc)]; [reflexivity|]. simpl. now rewrite Hc.
  - simpl in Ha. apply andb_prop in Ha as [Hc Ha]. apply negb_true_iff in Hc.
    rewrite Hc. specialize (IH Ha). destruct (split sep (a ++ rest)); [discriminate|].
    now injection IH as ->.
Qed.

Lemma split_head_no_sep (sep : ascii) (l piece : list ascii) :
  head (split sep l) = Some piece ->
  forallb (fun c => negb (is_char sep c)) piece = true.
Proof.
  revert piece. induction l as [|c l IH]; intros piece; simpl.
  - now intros [= <-].
  - destruct (is_char sep c) eqn:E; [now intros [= <-]|].
    destruct (split sep l) as [|p ps]; intros [= <-]; simpl; rewrite E; [reflexivity|].
    now apply IH.
Qed.

(** X17: the address [findEmailInGoogleProfile] returns holds no question
    mark, and for a link made of [mailto:], an address and possibly a query
    introduced by a question mark it is that address.  A missing or empty
    [href] gives null. *)
Theorem X17_mailto_address (href : option string) :
  (truthy_str href = None -> findEmailInGoogleProfile href = None) /\
  (forall email, findEmailInGoogleProfile href = Some email ->
     forallb (fun c => negb (is_char "?" c)) (chars email) = true) /\
  (forall address query,
     href = Some (str (chars "mailto:" ++ address ++ query)) ->
     forallb (fun c => negb (is_char "?" c)) address = true ->
     query = [] \/ (exists q, query = "?"%char :: q) ->
     findEmailInGoogleProfile href = Some (str address)).
Proof.
  unfold findEmailInGoogleProfile. split; [now intros ->|]. split.
  - intros email. destruct (truthy_str href) as [h|]; [|discriminate].
    intros [= <-]. rewrite chars_str.
    destruct (split "?" _) as [|piece ps] eqn:E; [reflexivity|].
    apply (split_head_no_sep "?" (remove_first (chars "mailto:") (chars h))).
    exact (f_equal head E).
  - intros address query -> Ha Hq. cbn [truthy_str]. rewrite chars_str.
    destruct (chars "mailto:" ++ address ++ query) as [|c t] eqn:E; [discriminate|].
    cbn [or_null]. rewrite chars_str, <- E, remove_first_prefix, split_head.
    + reflexivity.
    + exact Ha.
    + destruct Hq as [->|[q ->]]; [now left|right]. exists "?"%char, q. auto.
Qed.

Lemma X17_witness :
  forallb (fun c => negb (is_char "?" c)) (chars "joe@pizza.org") = true /\
  findEmailInGoogleProfile (Some "mailto:joe@pizza.org?subject=Hello"%string) =
  Some "joe@pizza.org"%string.
Proof.
  destruct (X17_mailto_address (Some "mailto:joe@pizza.org?subject=Hello"%string))
    as (_ & Hmark & Haddress).
  split.
  - apply Hmark. vm_compute. reflexivity.
  - apply (Haddress (chars "joe@pizza.org") (chars "?subject=Hello")).
    + reflexivity.
    + vm_compute. reflexivity.
    + right. eexists. reflexivity.
Defined.

(** X18: [extractText] returns the trimmed text of the first selector
    whose element has text that is not blank, and null when there is none;
    what it returns is never empty, has no white space at either end, and is
    not turned into null by [cleanString]. *)
Theorem X18_extractText_first_non_blank (texts : list (option string)) :
  (extractText texts = None <->
   forall text, Some text ∈ texts -> trim (chars text) = []) /\
  (forall t, extractText texts = Some t ->
     t <> ""%string /\
     (forall c, head (chars t) = Some c -> is_space c = false) /\
     (forall c, last (chars t) = Some c -> is_space c = false) /\
     cleanString (VStr t) <> None /\
     exists before text after,
       texts = before ++ Some text :: after /\
       (forall text', Some text' ∈ before -> trim (chars text') = []) /\
       chars t = trim (chars text)).
Proof.
  assert (Hblank : forall text : option string,
            truthy_str text ≫= (fun t => or_null (trim (chars t))) = None <->
            forall s, text = Some s -> trim (chars s) = []).
  { intros [s|]; [|split; [discriminate|reflexivity]].
    unfold truthy_str. destruct (chars s) as [|c l] eqn:E.
    - cbn. split; [|reflexivity]. intros _ ? [= <-]. now rewrite E.
    - cbn [or_null mbind option_bind]. rewrite chars_str.
      destruct (trim (c :: l)) eqn:Et.
      + split; [|reflexivity]. intros _ ? [= <-]. now rewrite E.
      + split; [discriminate|]. intros H. specialize (H s eq_refl).
        rewrite E in H. congruence. }
  assert (Hfound : forall (text : option string) t,
            truthy_str text ≫= (fun t => or_null (trim (chars t))) = Some t ->
            exists s, text = Some s /\ chars t = trim (chars s) /\ chars t <> []).
  { intros [s|] t; [|discriminate].
    unfold truthy_str. destruct (chars s) as [|c l] eqn:E; [discriminate|].
    cbn [or_null mbind option_bind]. rewrite chars_str, <- E.
    intros [Ht Hne]%or_null_chars. exists s. rewrite Ht. auto. }
  split.
  - induction texts as [|text texts IH]; cbn [extractText].
    + split; [|reflexivity]. intros _ ? []%not_elem_of_nil.
    + destruct (truthy_str text ≫= _) as [t|] eqn:E.
      * split; [discriminate|]. intros H. exfalso.
        apply Hfound in E as (s & -> & Ht & Hne). apply Hne. rewrite Ht.
        apply H, list_elem_of_here.
      * rewrite IH. pose proof (proj1 (Hblank _) E) as Eb. split.
        -- intros H s [Heq|Hs]%elem_of_cons; [now apply Eb|now apply H].
        -- intros H s Hs. now apply H, list_elem_of_further.
  - induction texts as [|text texts IH]; intros t; cbn [extractText]; [discriminate|].
    destruct (truthy_str text ≫= _) as [t'|] eqn:E.
    + intros [= ->]. apply Hfound in E as (s & -> & Ht & Hne).
      assert (Htrim : trimmed (chars t)) by (rewrite Ht; apply trim_trimmed).
      destruct (trimmed_ends _ Htrim) as [Hhead Hlast].
      split; [intros ->; now apply Hne|]. split; [exact Hhead|]. split; [exact Hlast|].
      split.
      * unfold cleanString. pose proof (trimmed_trim _ Htrim) as Hfix.
        destruct (chars t) as [|c l]; [congruence|].
        rewrite Hfix. change (chars " ") with [" "%char]. rewrite replace_spaces.
        cbn [collapse]. rewrite (Hhead c eq_refl). discriminate.
      * exists [], s, texts. split; [reflexivity|]. split; [|exact Ht].
        intros ? []%not_elem_of_nil.
    + intros Ht. apply IH in Ht as (H1 & H2 & H3 & H4 & before & s & after & -> & Hb & Hs).
      split; [exact H1|]. split; [exact H2|]. split; [exact H3|]. split; [exact H4|].
      exists (text :: before), s, after. split; [reflexivity|]. split; [|exact Hs].
      pose proof (proj1 (Hblank _) E) as Eb.
      intros s' [Heq|Hin]%elem_of_cons; [now apply Eb|now apply Hb].
Qed.

Lemma X18_witness :
  "Joe's Pizza"%string <> ""%string /\
  (forall c, head (chars "Joe's Pizza") = Some c -> is_space c = false) /\
  (forall c, last (chars "Joe's Pizza") = Some c -> is_space c = false) /\
  cleanString (VStr "Joe's Pizza") <> None /\
  exists before text after,
    [None; Some "   "; Some " Joe's Pizza "; Some "Pizza"]%string
    = before ++ Some text :: after /\
    (forall text', Some text' ∈ before -> trim (chars text') = []) /\
    chars "Joe's Pizza" = trim (chars text).
Proof.
  apply (X18_extractText_first_non_blank
           [None; Some "   "; Some " Joe's Pizza "; Some "Pizza"]%string).
  vm_compute. reflexivity.
Defined.

End MoreSelectors.

(** ** The CSV export *)

Module CsvFacts.
Import JsString Regex JsStringFacts RegexFacts EmailFacts Csv CsvReader.

Lemma includes_char (a : ascii) (l : list ascii) :
  includes [a] l = negb (forallb (fun c => negb (is_char a c)) l).
Proof.
  induction l as [|c t IH]; [reflexivity|]. cbn [includes startsWith forallb].
  rewrite IH, andb_true_r. now destruct (is_char a c).
Qed.

Lemma escape_plain (l : list ascii) : forallb plain l = true -> escape l = l.
Proof.
  intros H. unfold escape. rewrite !includes_char.
  assert (Hall : forall a, (forall c, plain c = true -> is_char a c = false) ->
                           forallb (fun c => negb (is_char a c)) l = true).
  { intros a Ha. apply forallb_forall. intros c Hc. rewrite forallb_forall in H.
    now rewrite (Ha c (H c Hc)). }
  rewrite !Hall; [reflexivity| | |]; intros c; unfold plain;
    rewrite !andb_true_iff, !negb_true_iff; tauto.
Qed.

Lemma escape_cases (l : list ascii) :
  (forallb plain l = true /\ escape l = l) \/
  escape l = [quote] ++ replace_all (Chr quote) [quote; quote] l ++ [quote].
Proof.
  destruct (forallb plain l) eqn:E; [left; split; [reflexivity|now apply escape_plain]|].
  right. unfold escape. rewrite !includes_char.
  destruct (forallb (fun c => negb (is_char "," c)) l) eqn:E1; [|reflexivity].
  destruct (forallb (fun c => negb (is_char quote c)) l) eqn:E2; [|reflexivity].
  destruct (forallb (fun c => negb (is_char newline c)) l) eqn:E3; [|reflexivity].
  exfalso. rewrite <- not_true_iff_false in E. apply E, forallb_forall. intros c Hc.
  rewrite forallb_forall in E1, E2, E3. unfold plain.
  now rewrite (E1 c Hc), (E2 c Hc), (E3 c Hc).
Qed.

(** [replace(/x/g, by)] for a one-character class. *)
Lemma replace_class_by (p : ascii -> bool) (by_ l : list ascii) :
  replace_all (Cls p) by_ l = flat_map (fun c => if p c then by_ else [c]) l.
Proof.
  unfold replace_all.
  enough (H : forall i, replace_from (Cls p) by_ i 0 l =
                        flat_map (fun c => if p c then by_ else [c]) l) by apply H.
  induction l as [|c t IH]; intros i; [reflexivity|].
  cbn [replace_from flat_map]. unfold match_here. cbn [rmatch start_at rest].
  destruct (p c) eqn:E.
  - cbn [advance pos app start_at]. f_equal.
    replace (S i =? i)%nat with false by (symmetry; apply Nat.eqb_neq; lia).
    replace (S i - i - 1)%nat with 0%nat by lia. apply IH.
  - cbn [app]. f_equal. apply IH.
Qed.

(** Where a cell ends: at the end of the text, a comma or a newline. *)
Lemma read_delimited (m : mode) (field : list ascii) (row : list (list ascii))
  (rest : list ascii) :
  m <> Quoted ->
  rest = [] \/ (exists r, rest = ","%char :: r) \/ (exists r, rest = newline :: r) ->
  read m field row rest =
  match rest with
  | [] => [rev (rev field :: row)]
  | c :: r =>
      if is_char ","%char c then read FieldStart [] (rev field :: row) r
      else rev (rev field :: row) :: read FieldStart [] [] r
  end.
Proof.
  intros Hm [->|[[r ->]|[r ->]]]; [reflexivity| |]; destruct m; try congruence; reflexivity.
Qed.

Lemma read_bare (w : list ascii) :
  forall (m : mode) (field : list ascii) (row : list (list ascii)) (rest : list ascii),
    m = FieldStart \/ m = Bare -> forallb plain w = true ->
    exists m', m' <> Quoted /\
      read m field row (w ++ rest) = read m' (rev w ++ field) row rest.
Proof.
  induction w as [|c w IH]; intros m field row rest Hm Hw.
  - exists m. split; [destruct Hm; congruence|reflexivity].
  - cbn [forallb] in Hw. apply andb_prop in Hw as [Hc Hw].
    unfold plain in Hc. rewrite !andb_true_iff, !negb_true_iff in Hc.
    destruct Hc as [[H1 H2] H3].
    destruct (IH Bare (c :: field) row rest (or_intror eq_refl) Hw) as (m' & Hm' & E).
    exists m'. split; [exact Hm'|].
    cbn [rev]. rewrite <- app_assoc. cbn [app]. rewrite <- E.
    destruct Hm as [->| ->]; cbn [app read]; now rewrite H1, H2, H3.
Qed.

Lemma read_quoted (w : list ascii) :
  forall (field : list ascii) (row : list (list ascii)) (rest : list ascii),
    read Quoted field row
      (flat_map (fun c => if is_char quote c then [quote; quote] else [c]) w ++ rest) =
    read Quoted (rev w ++ field) row rest.
Proof.
  induction w as [|c w IH]; intros field row rest; [reflexivity|].
  cbn [flat_map rev]. rewrite <- !app_assoc. cbn [app].
  destruct (is_char quote c) eqn:E.
  - cbn [app read].
    change (is_char quote quote) with true. change (is_char "," quote) with false.
    change (is_char newline quote) with false. cbn iota.
    rewrite IH. now rewrite (ShapeFacts.is_char_eq _ _ E).
  - cbn [app read]. rewrite E. apply IH.
Qed.

(** One written cell, read back. *)
Lemma read_cell (sv : list ascii) (row : list (list ascii)) (rest : list ascii) :
  rest = [] \/ (exists r, rest = ","%char :: r) \/ (exists r, rest = newline :: r) ->
  read FieldStart [] row (escape sv ++ rest) =
  match rest with
  | [] => [rev (sv :: row)]
  | c :: r =>
      if is_char ","%char c then read FieldStart [] (sv :: row) r
      else rev (sv :: row) :: read FieldStart [] [] r
  end.
Proof.
  intros Hrest. destruct (escape_cases sv) as [[Hplain ->]| ->].
  - destruct (read_bare sv FieldStart [] row rest (or_introl eq_refl) Hplain)
      as (m' & Hm' & ->).
    rewrite (read_delimited m' _ _ _ Hm' Hrest), app_nil_r, rev_involutive. reflexivity.
  - unfold Chr. rewrite replace_class_by, <- !app_assoc. cbn [app read].
    change (is_char quote quote) with true. change (is_char "," quote) with false.
    change (is_char newline quote) with false. cbn iota.
    rewrite read_quoted. cbn [read].
    change (is_char quote quote) with true. cbn iota.
    rewrite (read_delimited QuoteSeen _ _ _ ltac:(discriminate) Hrest),
      app_nil_r, rev_involutive.
    reflexivity.
Qed.

(** One written row, read back. *)
Lemma read_row (cells : list (list ascii)) :
  forall (row : list (list ascii)) (rest : list ascii),
    cells <> [] ->
    rest = [] \/ (exists r, rest = newline :: r) ->
    read FieldStart [] row (join [","%char] (map escape cells) ++ rest) =
    (rev row ++ cells) ::
    match rest with
    | [] => []
    | _ :: r => read FieldStart [] [] r
    end.
Proof.
  induction cells as [|x cells IH]; intros row rest Hne Hrest; [congruence|].
  destruct cells as [|y cells].
  - cbn [map join flat_map]. rewrite app_nil_r, read_cell by tauto.
    cbn [rev]. destruct Hrest as [->|[r ->]]; reflexivity.
  - specialize (IH (x :: row) rest ltac:(discriminate) Hrest).
    change (join [","%char] (map escape (x :: y :: cells)))
      with (escape x ++ ","%char :: join [","%char] (map escape (y :: cells))).
    rewrite <- app_assoc. cbn [app]. rewrite read_cell by (right; left; eauto).
    replace (is_char "," ",") with true by reflexivity.
    rewrite IH. cbn [rev]. now rewrite <- app_assoc.
Qed.

(** The written rows, read back. *)
Lemma read_rows (table : list (list (list ascii))) :
  table <> [] -> Forall (fun cells => cells <> []) table ->
  read FieldStart [] [] (join [newline] (map (fun cells => join [","%char] (map escape cells)) table))
  = table.
Proof.
  induction table as [|cells table IH]; intros Hne Hall; [congruence|].
  apply Forall_cons in Hall as [Hcells Hall].
  destruct table as [|cells' table].
  - cbn [map join flat_map]. rewrite app_nil_r.
    rewrite <- (app_nil_r (join _ _)), read_row by tauto. reflexivity.
  - specialize (IH ltac:(discriminate) Hall).
    change (join [newline] (map (fun cells => join [","%char] (map escape cells))
                              (cells :: cells' :: table)))
      with (join [","%char] (map escape cells) ++
            newline :: join [newline] (map (fun cells => join [","%char] (map escape cells))
                                         (cells' :: table))).
    rewrite read_row by (try assumption; right; eauto). cbn [rev app]. now rewrite IH.
Qed.

End CsvFacts.

Module MoreCsv.
Import JsString Regex JsStringFacts EmailFacts Csv CsvReader CsvFacts.

Lemma add_all_app (l1 l2 s : list string) :
  JsSet.add_all (l1 ++ l2) s = JsSet.add_all l2 (JsSet.add_all l1 s).
Proof. unfold JsSet.add_all. apply fold_left_app. Qed.

Lemma add_all_known (l s : list string) :
  (forall x, x ∈ l -> x ∈ s) -> JsSet.add_all l s = s.
Proof.
  intros H. rewrite add_all_first_occurrences.
  assert (F : Forall (fun x => x ∈ s) (first_occurrences l)).
  { apply Forall_forall. intros x Hx. apply H. now apply (proj1 (first_occurrences_elem l x)). }
  induction F as [|x t Hx _ IH]; [apply app_nil_r|].
  rewrite filter_cons_False by (intros Hn; now apply Hn). exact IH.
Qed.

(** The header row of objects that all have the same keys. *)
Lemma headerArray_same_keys (K : list string) (objs : list object) :
  NoDup K -> objs <> [] -> Forall (fun o => keys o = K) objs ->
  headerArray objs = K.
Proof.
  intros Hnd Hne Hall. unfold headerArray, JsSet.of_list.
  destruct objs as [|o objs]; [congruence|]. apply Forall_cons in Hall as [Ho Hall].
  cbn [flat_map]. rewrite add_all_app, Ho.
  assert (HK : JsSet.add_all K [] = K).
  { rewrite add_all_first_occurrences. cbn [app].
    rewrite (MoreEmailFinder.first_occurrences_fix _ Hnd).
    apply IdempotenceFacts.filter_fix, Forall_forall. intros x _. apply not_elem_of_nil. }
  rewrite HK. apply add_all_known. intros x Hx.
  apply list_elem_of_In, in_flat_map in Hx as (o' & Ho' & Hx).
  rewrite Forall_forall in Hall. apply list_elem_of_In in Ho', Hx.
  now rewrite (Hall o' Ho') in Hx.
Qed.

Section Writer.
Variable Number_toString : Q -> string.

Lemma cell_text_escape (value : option cell) :
  cell_text Number_toString value = escape (stringValue Number_toString value).
Proof. destruct value as [[| |]|]; reflexivity. Qed.

(** X19: the text [convertToCSV] writes for at least one business reads
    back, cell by cell, as what was written: a first row with the
    twenty field names, then for each business, in order, a row with the
    strings of its flattened fields, the empty string standing for null.
    Commas, quotes and newlines inside a field come back unchanged. *)
Theorem X19_csv_reads_back (b : BusinessRecord) (bs : list BusinessRecord) :
  read_csv (convertToCSV Number_toString (b :: bs)) =
  map chars (keys (flattenForCSV b)) ::
  map (fun business =>
         map (fun kv => stringValue Number_toString (Some (snd kv)))
             (flattenForCSV business))
      (b :: bs).
Proof.
  unfold read_csv, convertToCSV, rows. rewrite chars_str.
  set (K := keys (flattenForCSV b)).
  assert (HK : headerArray (map flattenForCSV (b :: bs)) = K).
  { apply headerArray_same_keys.
    - apply (bool_decide_unpack _). vm_compute. exact I.
    - discriminate.
    - apply Forall_forall. intros o (x & -> & _)%list_elem_of_fmap. reflexivity. }
  rewrite HK. clear HK.
  assert (Hhead : map escape (map chars K) = map chars K) by (vm_compute; reflexivity).
  assert (Hrow : forall x,
            map (fun header => cell_text Number_toString (get header (flattenForCSV x))) K =
            map escape (map (fun kv => stringValue Number_toString (Some (snd kv)))
                            (flattenForCSV x))).
  { intros x. rewrite map_map. unfold K.
    cbn [flattenForCSV keys map fst snd get String.eqb Ascii.eqb Bool.eqb].
    now rewrite !cell_text_escape. }
  generalize (b :: bs). intros l.
  transitivity
    (read FieldStart [] []
       (join [newline]
          (map (fun cells => join [","%char] (map escape cells))
             (map chars K ::
              map (fun business =>
                     map (fun kv => stringValue Number_toString (Some (snd kv)))
                         (flattenForCSV business)) l)))).
  { do 2 f_equal. rewrite !map_cons, Hhead. f_equal. rewrite !map_map.
    apply map_ext. intros x. now rewrite Hrow. }
  apply read_rows; [discriminate|].
  constructor; [discriminate|].
  apply Forall_forall. intros row (x & -> & _)%list_elem_of_fmap. discriminate.
Qed.

End Writer.
End MoreCsv.

Module MoreCsvHours.
Import JsString Regex Patterns JsStringFacts Csv.

(** Listing the entries of a map along a list of distinct keys that covers
    its domain visits every entry once. *)
Lemma listing_length {B} (g : string -> string -> B) (l : list string) :
  NoDup l ->
  forall h : gmap string string,
    (forall k, is_Some (h !! k) -> k ∈ l) ->
    List.length (omap (fun k => g k <$> h !! k) l) = size h.
Proof.
  induction 1 as [|d l Hd Hnd IH]; intros h Hdom.
  - cbn. symmetry. apply map_size_empty_iff, map_empty. intros k.
    destruct (h !! k) eqn:E; [|reflexivity].
    exfalso. eapply not_elem_of_nil, Hdom. rewrite E. eauto.
  - assert (Hrest : omap (fun k => g k <$> h !! k) l =
                    omap (fun k => g k <$> delete d h !! k) l).
    { apply list_omap_ext, Forall2_same_length_lookup. split; [reflexivity|].
      intros i x y Hx Hy. rewrite Hx in Hy. injection Hy as <-.
      rewrite lookup_delete_ne; [reflexivity|]. intros ->.
      apply Hd. eapply list_elem_of_lookup_2, Hx. }
    cbn [omap list_omap]. rewrite Hrest.
    assert (Hdom' : forall k, is_Some (delete d h !! k) -> k ∈ l).
    { intros k Hk. destruct (decide (k = d)) as [->|Hne].
      - rewrite lookup_delete_eq in Hk. now destruct Hk.
      - rewrite lookup_delete_ne in Hk by congruence.
        apply Hdom, elem_of_cons in Hk as [->|Hk]; [congruence|exact Hk]. }
    specialize (IH _ Hdom'). destruct (h !! d) as [t|] eqn:E; cbn.
    + rewrite IH, map_size_delete, E. cbn.
      assert (size h <> 0)%nat; [|lia].
      intros Hz. apply map_size_empty_iff in Hz. rewrite Hz, lookup_empty in E. discriminate.
    + rewrite IH, map_size_delete, E. reflexivity.
Qed.

(** X20: for hours that come from [validateBusinessHours], the hours
    column of the export lists every day of the schedule, as [day: hours],
    and has exactly as many entries as the schedule has days. *)
Theorem X20_hours_column_is_complete
  (hours : option (gmap string string)) (h : gmap string string) :
  validateBusinessHours hours = Some h ->
  List.length (hoursArray h) = size h /\
  forall day t, h !! day = Some t ->
    str (chars day ++ chars ": " ++ chars t) ∈ hoursArray h.
Proof.
  intros Hv.
  destruct (MoreHours.validated_hours_entries hours h Hv) as (_ & Hentry).
  assert (Htruthy : forall day, truthy_str (h !! day) = h !! day).
  { intros day. destruct (h !! day) as [t|] eqn:E; [|reflexivity].
    destruct (Hentry day t E) as (_ & Hne & _).
    apply truthy_str_nonempty. intros Hnil. apply Hne.
    rewrite <- (str_chars t), Hnil. reflexivity. }
  assert (Harray : hoursArray h =
            omap (fun day => (fun hours => str (chars day ++ chars ": " ++ chars hours))
                             <$> h !! day) dayOrder).
  { unfold hoursArray. apply list_omap_ext, Forall2_same_length_lookup.
    split; [reflexivity|]. intros i x y Hx Hy. rewrite Hx in Hy. injection Hy as <-.
    now rewrite Htruthy. }
  rewrite Harray. split.
  - apply (listing_length (fun day hours => str (chars day ++ chars ": " ++ chars hours))).
    + apply (bool_decide_unpack _). vm_compute. exact I.
    + intros day [t Ht]. now apply Hentry in Ht as [Hd _].
  - intros day t Ht. apply list_elem_of_omap. exists day. rewrite Ht. split; [|reflexivity].
    now apply Hentry in Ht as [Hd _].
Qed.

Lemma X20_witness :
  let h : gmap string string := {[ "Monday"%string := "9 AM to 5 PM"%string ]} in
  List.length (hoursArray h) = size h /\
  forall day t, h !! day = Some t ->
    str (chars day ++ chars ": " ++ chars t) ∈ hoursArray h.
Proof.
  apply (X20_hours_column_is_complete
           (Some {[ "Monday"%string := " 9 AM to 5 PM "%string;
                    "Funday"%string := "x"%string ]})).
  vm_compute. reflexivity.
Defined.

End MoreCsvHours.

(** ** The whole run *)

Module MorePipeline.
Import JsString JsStringFacts FilterFacts WalkFacts MoreWalk.

(** The filter does not read the emails. *)
Lemma meets_with_emails (b : BusinessRecord) (es : list string) (src : string)
  (f : Filters) :
  meetsFilterCriteria (with_emails b es src) f = meetsFilterCriteria b f.
Proof. reflexivity. Qed.

Lemma meets_findEmails_task (bl : Blacklist) (goto : string -> option Page)
  (b : BusinessRecord) (f : Filters) :
  meetsFilterCriteria (findEmails_task bl goto b) f = meetsFilterCriteria b f.
Proof.
  unfold findEmails_task. destruct (truthy_str (website b)); [|reflexivity].
  destruct (findEmailOnWebsite bl goto (website b)); apply meets_with_emails.
Qed.

Lemma source_findEmails_task (bl : Blacklist) (goto : string -> option Page)
  (b : BusinessRecord) :
  truthy_str (website b) <> None ->
  emailSource (findEmails_task bl goto b) = "website"%string \/
  emailSource (findEmails_task bl goto b) = "not_found"%string.
Proof.
  unfold findEmails_task. destruct (truthy_str (website b)); [intros _|congruence].
  destruct (findEmailOnWebsite bl goto (website b)); cbn; auto.
Qed.

(** X22: whatever [scrapeGoogleMaps] returns, with or without the search
    for emails, holds at most [maxResults] records, each of which meets the
    filter criteria.  Without the search for emails it is the list of the
    listing walk; with it, every record that has a website carries the
    source [website] or [not_found]. *)
Theorem X22_scrape_result
  (fround : Q -> Q) (URL_parse : string -> option (string * string))
  (blacklist : Blacklist) (goto : string -> option Page) (feed : nat -> list Card)
  (maxResults : Z) (filters : Filters) (findEmails flag : bool)
  (fuel : nat) (result : list BusinessRecord) :
  scrapeGoogleMaps fround URL_parse blacklist goto feed maxResults filters findEmails flag fuel
  = Some result ->
  (Z.of_nat (List.length result) <= Z.max 0 maxResults)%Z /\
  (forall b, b ∈ result -> meetsFilterCriteria b filters = true) /\
  (findEmails = false ->
   extractBusinessListings fround URL_parse blacklist maxResults filters flag feed fuel
   = Some result) /\
  (findEmails = true ->
   forall b, b ∈ result -> truthy_str (website b) <> None ->
     emailSource b = "website"%string \/ emailSource b = "not_found"%string).
Proof.
  unfold scrapeGoogleMaps, extractBusinessListings.
  destruct (walk_from _ _ _ _ _ _ _ fuel 0 initial) as [w|] eqn:E; [|discriminate].
  cbn [fmap option_fmap option_map].
  apply (walk_from_sound _ _ _ _ _ _ _ (fun b => meetsFilterCriteria b filters = true))
    in E as (Hlen & Hall & _); [|auto|cbn; lia|constructor].
  unfold cap in Hlen. rewrite Forall_forall in Hall.
  destruct findEmails; cbn [andb].
  - destruct (0 <? List.length (businesses w))%nat eqn:El; intros [= <-].
    + unfold batchFindEmails. rewrite length_map. split; [lia|]. split; [|split].
      * intros b (b0 & -> & Hb0)%list_elem_of_fmap.
        rewrite meets_findEmails_task. now apply Hall.
      * intros [=].
      * intros _ b (b0 & -> & Hb0)%list_elem_of_fmap Hsite.
        apply source_findEmails_task. unfold findEmails_task in Hsite.
        destruct (truthy_str (website b0)) eqn:Es; [discriminate|].
        exfalso. apply Hsite. exact Es.
    + split; [lia|]. split; [exact Hall|]. split; [intros [=]|].
      intros _ b Hb. destruct (businesses w); [now apply not_elem_of_nil in Hb|].
      cbn in El. discriminate.
  - intros [= <-]. split; [lia|]. split; [exact Hall|]. split; [reflexivity|intros [=]].
Qed.

Lemma X22_witness :
  let result :=
    [SampleFeed.listed (Some "A") "https://www.google.com/maps/place/a";
     SampleFeed.listed (Some "C") "https://www.google.com/maps/place/c"]%string in
  (Z.of_nat (List.length result) <= Z.max 0 2)%Z /\
  (forall b, b ∈ result -> meetsFilterCriteria b Sample.no_filters = true) /\
  (true = false ->
   extractBusinessListings Sample.exact Sample.simple_URL Sample.blacklist 2
     Sample.no_filters false SampleFeed.five 1 = Some result) /\
  (true = true ->
   forall b, b ∈ result -> truthy_str (website b) <> None ->
     emailSource b = "website"%string \/ emailSource b = "not_found"%string).
Proof.
  apply (X22_scrape_result Sample.exact Sample.simple_URL Sample.blacklist SampleSites.web
           SampleFeed.five 2 Sample.no_filters true false 1).
  vm_compute. reflexivity.
Defined.

End MorePipeline.

